(** * TechMate: intervention intake pipeline and lifecycle manager

    A shallow embedding of the parts of the application that create and
    update intervention records:

    - the [interventions] table of the database schema, with its column
      defaults, CHECK constraints, foreign keys and [updated_at] trigger;
    - the [generate-solution] edge function;
    - the [NewIntervention] page ([fetchData], [startRecording],
      [stopRecording], [processAudio], [handleSave], the microphone and
      save controls and the progress display);
    - the [InterventionDetail] page ([fetchData], [updateStatus] and the
      status controls it renders);
    - the [Interventions] list page's loading and filter, the dashboard's
      count of open interventions and the application's route table.

    React state is an explicit record threaded through a small
    state-and-exception monad together with the database and a
    chronological trace of observable effects.  An asynchronous call is a
    step whose outcome the environment supplies.  The handlers of the
    [NewIntervention] page are given twice: as written, and cut at their
    [await]s, with the tasks they leave pending kept beside the page, so
    that a run of events interleaves them the way the browser does. *)

From Stdlib Require Import ZArith Ascii String.
From stdpp Require Import base strings gmap list option.

Local Open Scope string_scope.
Local Open Scope Z_scope.
Local Open Scope list_scope.

(** ** JavaScript values and JSON objects *)

(** The values the program handles where it expects text: a string,
    [null] or [undefined]. *)
Inductive JsValue :=
| JsUndefined
| JsNull
| JsString (s : string).

(** A JSON object as it travels between the browser, the edge functions
    and the store: property name to text or [null] ([None]). *)
Abbreviation JsObject := (gmap string (option string)).

(** An object literal [{ k1: v1, ... }] once serialised by
    [JSON.stringify]: a later property of the same name replaces an
    earlier one, and a property whose value is [undefined] is left out. *)
Definition set_property (o : JsObject) (kv : string * JsValue) : JsObject :=
  match kv.2 with
  | JsUndefined => delete kv.1 o
  | JsNull => <[kv.1 := None]> o
  | JsString s => <[kv.1 := Some s]> o
  end.

Definition object (props : list (string * JsValue)) : JsObject :=
  foldl set_property ∅ props.

(** [o.k] on a parsed JSON object. *)
Definition property (o : JsObject) (k : string) : JsValue :=
  match o !! k with
  | None => JsUndefined
  | Some None => JsNull
  | Some (Some s) => JsString s
  end.

(** A value as a nullable column or field holds it. *)
Definition nullable (v : JsValue) : option string :=
  match v with
  | JsString s => Some s
  | _ => None
  end.

(** [String(v)], as a template literal inserts it. *)
Definition template (v : JsValue) : string :=
  match v with
  | JsUndefined => "undefined"
  | JsNull => "null"
  | JsString s => s
  end.

(** ** Observable effects *)

Inductive ToastVariant := ToastDefault | ToastDestructive.


Inductive Effect :=
| Toast (variant : ToastVariant) (title description : string)
| ConsoleError (label : string)
| ConsoleLog (label : string)
| Navigate (path : string)
| StoreInsert (table : string) (values : JsObject)
| StoreUpdate (table : string) (values : JsObject) (key : string)
| StoreSelect (table : string) (key : string)
| FunctionsInvoke (name : string) (body : JsObject)
| GetUserMedia
| TracksStopped
| Fetch (url authorization model : string) (messages : list (string * string))
        (max_tokens : Z).

Definition is_store_call (e : Effect) : bool :=
  match e with
  | StoreInsert _ _ | StoreUpdate _ _ _ | StoreSelect _ _ => true
  | _ => false
  end.

Definition is_fetch (e : Effect) : bool :=
  match e with Fetch _ _ _ _ _ => true | _ => false end.

Definition toast_of (e : Effect) : option (ToastVariant * string * string) :=
  match e with Toast v t d => Some (v, t, d) | _ => None end.

Definition invoke_of (e : Effect) : option string :=
  match e with FunctionsInvoke n _ => Some n | _ => None end.

(** Toasts shown, function names invoked and store calls made, in order. *)
Definition toasts (tr : list Effect) : list (ToastVariant * string * string) :=
  omap toast_of tr.
Definition invocations (tr : list Effect) : list string := omap invoke_of tr.
Definition store_calls (tr : list Effect) : list Effect :=
  List.filter is_store_call tr.
Definition fetches (tr : list Effect) : list Effect := List.filter is_fetch tr.

(** ** The database schema (the [interventions] migration) *)

Module Store.

(** Timestamps are kept as the text the store and the browser produce. *)
Abbreviation timestamp := string (only parsing).

Record TechnicianRow := {
  t_id : string;
  t_name : string;
  t_specialty : option string;
  t_is_active : option bool }.

Record MachineRow := {
  m_id : string;
  m_model : string;
  m_location : option string;
  m_is_active : option bool }.

Record InterventionRow := {
  id : string;
  technician_id : option string;
  machine_id : option string;
  problem_description : option string;
  audio_url : option string;
  ai_solution : option string;
  status : option string;
  priority : option string;
  created_at : timestamp;
  updated_at : timestamp;
  resolved_at : option timestamp }.

Record DB := {
  technicians : gmap string TechnicianRow;
  machines : gmap string MachineRow;
  interventions : gmap string InterventionRow }.

Definition with_interventions (t : gmap string InterventionRow) (db : DB) : DB :=
  {| technicians := technicians db; machines := machines db; interventions := t |}.

Inductive StoreError :=
| RequestFailed          (* transport failure or a policy refusal *)
| UndefinedColumn (c : string)
| CheckViolation (constraint : string)
| ForeignKeyViolation (c : string)
| UniqueViolation
| NoRows.

(** What the server contributes to one request: whether the request gets
    through at all, the value of [now()] and of [gen_random_uuid()]. *)
Record Server := {
  available : bool;
  now : timestamp;
  gen_random_uuid : string }.

(** CHECK (status IN (...)) and CHECK (priority IN (...)); a NULL passes. *)
Definition status_values : list string :=
  ["pending"; "in_progress"; "resolved"; "cancelled"].
Definition priority_values : list string :=
  ["low"; "medium"; "high"; "critical"].

Definition check_in (allowed : list string) (v : option string) : bool :=
  match v with
  | None => true
  | Some s => bool_decide (s ∈ allowed)
  end.

(** REFERENCES ... : a non-NULL reference must name an existing row. *)
Definition references {A} (t : gmap string A) (v : option string) : bool :=
  match v with
  | None => true
  | Some k => bool_decide (is_Some (t !! k))
  end.

Definition constraints (db : DB) (r : InterventionRow) : option StoreError :=
  if negb (check_in status_values (status r)) then
    Some (CheckViolation "interventions_status_check")
  else if negb (check_in priority_values (priority r)) then
    Some (CheckViolation "interventions_priority_check")
  else if negb (references (technicians db) (technician_id r)) then
    Some (ForeignKeyViolation "technician_id")
  else if negb (references (machines db) (machine_id r)) then
    Some (ForeignKeyViolation "machine_id")
  else None.

(** Columns a request may name.  The pages never send [id], [created_at]
    or [updated_at]; the model takes them from the server only. *)
Definition writable_columns : list string :=
  ["technician_id"; "machine_id"; "problem_description"; "audio_url";
   "ai_solution"; "status"; "priority"; "resolved_at"].

Definition undefined_column (values : JsObject) : option string :=
  head (List.filter (λ c, bool_decide (c ∉ writable_columns))
                    (map_to_list values).*1).

(** The value of column [c]: the one sent ([null] included), else
    [otherwise]. *)
Definition column (values : JsObject) (c : string) (otherwise : option string)
  : option string :=
  match values !! c with
  | Some v => v
  | None => otherwise
  end.

(** INSERT: omitted columns take their declared DEFAULT. *)
Definition new_row (srv : Server) (values : JsObject) : InterventionRow :=
  {| id := gen_random_uuid srv;
     technician_id := column values "technician_id" None;
     machine_id := column values "machine_id" None;
     problem_description := column values "problem_description" None;
     audio_url := column values "audio_url" None;
     ai_solution := column values "ai_solution" None;
     status := column values "status" (Some "pending");
     priority := column values "priority" (Some "medium");
     created_at := now srv;
     updated_at := now srv;
     resolved_at := column values "resolved_at" None |}.

Definition insert (srv : Server) (values : JsObject) (db : DB)
  : DB * option StoreError :=
  if negb (available srv) then (db, Some RequestFailed)
  else match undefined_column values with
  | Some c => (db, Some (UndefinedColumn c))
  | None =>
    let r := new_row srv values in
    match constraints db r with
    | Some e => (db, Some e)
    | None =>
      match interventions db !! id r with
      | Some _ => (db, Some UniqueViolation)
      | None => (with_interventions (<[id r := r]> (interventions db)) db, None)
      end
    end
  end.

(** UPDATE ... SET: sent columns are overwritten, the others are kept;
    the BEFORE UPDATE trigger then stamps [updated_at]. *)
Definition patched (srv : Server) (values : JsObject) (r : InterventionRow)
  : InterventionRow :=
  {| id := id r;
     technician_id := column values "technician_id" (technician_id r);
     machine_id := column values "machine_id" (machine_id r);
     problem_description := column values "problem_description" (problem_description r);
     audio_url := column values "audio_url" (audio_url r);
     ai_solution := column values "ai_solution" (ai_solution r);
     status := column values "status" (status r);
     priority := column values "priority" (priority r);
     created_at := created_at r;
     updated_at := now srv;
     resolved_at := column values "resolved_at" (resolved_at r) |}.

(** [.update(values).eq('id', key)]: the primary key selects at most one
    row; matching no row is not an error. *)
Definition update (srv : Server) (values : JsObject) (key : string) (db : DB)
  : DB * option StoreError :=
  if negb (available srv) then (db, Some RequestFailed)
  else match undefined_column values with
  | Some c => (db, Some (UndefinedColumn c))
  | None =>
    match interventions db !! key with
    | None => (db, None)
    | Some r =>
      let r' := patched srv values r in
      match constraints db r' with
      | Some e => (db, Some e)
      | None => (with_interventions (<[key := r']> (interventions db)) db, None)
      end
    end
  end.

(** [.select('*').eq('id', key).single()]. *)
Definition select_single {A} (srv : Server) (t : gmap string A) (key : string)
  : option A * option StoreError :=
  if negb (available srv) then (None, Some RequestFailed)
  else match t !! key with
  | Some r => (Some r, None)
  | None => (None, Some NoRows)
  end.

End Store.

(** ** Sequencing, exceptions and state *)

(** What a [throw] or a rejected promise carries. *)
Inductive FunctionsError :=
| FunctionsHttpError (status : Z)   (* the function answered outside 2xx *)
| FunctionsRelayError
| FunctionsFetchError.

Inductive Thrown :=
| Functions (e : FunctionsError)
| Postgrest (e : Store.StoreError)
| ReaderError                       (* the FileReader's error event *)
| MediaError                        (* a DOMException from the media stack *)
| TypeError.                        (* a property read on [null] *)

(** What the edge function can catch: an instance of Error with its
    message, or some other value. *)
Inductive JsThrown :=
| JsError (message : string)
| NotAnError.

Inductive Completion (E A : Type) :=
| Normal (a : A)
| Abrupt (e : E).
Arguments Normal {E A} a.
Arguments Abrupt {E A} e.

(** The world outside a component: the database and the effect trace. *)
Record World := {
  db : Store.DB;
  trace : list Effect }.

(** A component instance: its React state and the world it acts on. *)
Record Session (P : Type) := {
  page : P;
  world : World }.
Arguments page {P} s.
Arguments world {P} s.

Definition M (E P A : Type) : Type := Session P → Completion E A * Session P.

Definition ret {E P A} (a : A) : M E P A := λ σ, (Normal a, σ).

Definition bind {E P A B} (m : M E P A) (k : A → M E P B) : M E P B :=
  λ σ, match m σ with
       | (Normal a, σ') => k a σ'
       | (Abrupt e, σ') => (Abrupt e, σ')
       end.

Definition throw {E P A} (e : E) : M E P A := λ σ, (Abrupt e, σ).

(** [await p] for a promise whose settlement the environment supplies. *)
Definition await {E P A} (c : Completion E A) : M E P A := λ σ, (c, σ).

(** [try { m } catch (error) { h error }] *)
Definition try_catch {E P A} (m : M E P A) (h : E → M E P A) : M E P A :=
  λ σ, match m σ with
       | (Normal a, σ') => (Normal a, σ')
       | (Abrupt e, σ') => h e σ'
       end.

(** [... finally { f }]: [f] runs on both exits and keeps the completion. *)
Definition finally {E P A} (m : M E P A) (f : M E P unit) : M E P A :=
  λ σ, match m σ with
       | (c, σ') =>
         match f σ' with
         | (Normal _, σ'') => (c, σ'')
         | (Abrupt e, σ'') => (Abrupt e, σ'')
         end
       end.

Notation "x <- m ;; k" := (bind m (λ x, k))
  (at level 100, m at next level, k at level 200, right associativity).
Notation "m ;; k" := (bind m (λ _, k))
  (at level 100, k at level 200, right associativity).

Definition get_page {E P} : M E P P := λ σ, (Normal (page σ), σ).
Definition get_db {E P} : M E P Store.DB := λ σ, (Normal (db (world σ)), σ).

Definition set_page {E P} (f : P → P) : M E P unit :=
  λ σ, (Normal tt, {| page := f (page σ); world := world σ |}).

Definition set_db {E P} (d : Store.DB) : M E P unit :=
  λ σ, (Normal tt,
        {| page := page σ;
           world := {| db := d; trace := trace (world σ) |} |}).

Definition emit {E P} (e : Effect) : M E P unit :=
  λ σ, (Normal tt,
        {| page := page σ;
           world := {| db := db (world σ); trace := trace (world σ) ++ [e] |} |}).

(** A store request: logged, then answered by the server. *)
Definition store_insert {E P} (srv : Store.Server) (values : JsObject)
  : M E P (option Store.StoreError) :=
  emit (StoreInsert "interventions" values) ;;
  d <- get_db ;;
  let '(d', error) := Store.insert srv values d in
  set_db d' ;;
  ret error.

Definition store_update {E P} (srv : Store.Server) (values : JsObject) (key : string)
  : M E P (option Store.StoreError) :=
  emit (StoreUpdate "interventions" values key) ;;
  d <- get_db ;;
  let '(d', error) := Store.update srv values key d in
  set_db d' ;;
  ret error.

(** Running a handler from a given state. *)
Definition exec {E P A} (m : M E P A) (σ : Session P) : Session P := (m σ).2.
Definition eval {E P A} (m : M E P A) (σ : Session P) : Completion E A := (m σ).1.

(** JavaScript truthiness of a string: only the empty string is falsy. *)
Definition falsy (s : string) : bool := bool_decide (s = EmptyString).

(** ... and of a nullable string: [null] is falsy too. *)
Definition truthy (v : option string) : bool :=
  match v with
  | Some s => negb (falsy s)
  | None => false
  end.

(** [!v]: [undefined], [null] and the empty string are falsy. *)
Definition js_falsy (v : JsValue) : bool :=
  match v with
  | JsString s => falsy s
  | _ => true
  end.

(** A nullable field read as a JavaScript value. *)
Definition of_nullable (v : option string) : JsValue :=
  match v with
  | Some s => JsString s
  | None => JsNull
  end.

(** [s.split(sep)] for a one-character separator. *)
Fixpoint split_on (sep : ascii) (s : string) : list string :=
  match s with
  | EmptyString => [EmptyString]
  | String c rest =>
    if Ascii.eqb c sep then EmptyString :: split_on sep rest
    else match split_on sep rest with
         | [] => [String c EmptyString]
         | w :: ws => String c w :: ws
         end
  end.

(** [l[i]] on an array of strings. *)
Definition element (l : list string) (i : nat) : JsValue :=
  match l !! i with
  | Some s => JsString s
  | None => JsUndefined
  end.

(** What [supabase.functions.invoke] resolves to, [{ data, error }]: an
    error; or a [data] of which the page reads one property ([text] or
    [solution]), here [field]; or a [data] that is [null], on which that
    read throws. *)
Inductive InvokeResult :=
| Data (field : JsValue)
| NoData
| Failed (error : FunctionsError).

(** Whether [if (error) throw error] or the property read throws. *)
Definition throws (r : InvokeResult) : bool :=
  match r with
  | Data _ => false
  | NoData | Failed _ => true
  end.

(** ** The NewIntervention page *)

Module NewIntervention.

(** The rows of the two pickers, as the store returns them: [location]
    and [specialty] are nullable columns. *)
Record Machine := {
  id : string;
  model : string;
  location : option string }.

Record Technician := {
  technician_id : string;
  name : string;
  specialty : option string }.

Inductive ProcessingStep := idle | recording | transcribing | generating | complete.

#[global] Instance ProcessingStep_eq_dec : EqDecision ProcessingStep.
Proof. solve_decision. Defined.

(** The state values [processAudio] reads: a recorder's [onstop] calls
    the [processAudio] of the render in which its [startRecording] was
    invoked, and so sees these values as they were in that render. *)
Record Closure := {
  closure_machines : list Machine;
  closure_selectedMachine : string }.

(** The component's state and refs.  [mediaRecorderRef] holds the last
    recorder created; a recorder is given by what its [onstop] closes
    over. *)
Record Page := {
  machines : list Machine;
  technicians : list Technician;
  selectedMachine : string;
  selectedTechnician : string;
  problemDescription : JsValue;
  aiSolution : JsValue;
  processingStep : ProcessingStep;
  isRecording : bool;
  saving : bool;
  mediaRecorderRef : option Closure;
  audioChunksRef : list string }.

Definition closure (render : Page) : Closure :=
  {| closure_machines := machines render;
     closure_selectedMachine := selectedMachine render |}.

(** The [useState]/[useRef] initial values. *)
Definition initial : Page :=
  {| machines := []; technicians := [];
     selectedMachine := EmptyString; selectedTechnician := EmptyString;
     problemDescription := JsString EmptyString;
     aiSolution := JsString EmptyString;
     processingStep := idle; isRecording := false; saving := false;
     mediaRecorderRef := None; audioChunksRef := [] |}.

Definition setMachines (v : list Machine) : M Thrown Page unit :=
  set_page (λ p,
    {| machines := v; technicians := technicians p;
       selectedMachine := selectedMachine p;
       selectedTechnician := selectedTechnician p;
       problemDescription := problemDescription p; aiSolution := aiSolution p;
       processingStep := processingStep p; isRecording := isRecording p;
       saving := saving p; mediaRecorderRef := mediaRecorderRef p;
       audioChunksRef := audioChunksRef p |}).

Definition setTechnicians (v : list Technician) : M Thrown Page unit :=
  set_page (λ p,
    {| machines := machines p; technicians := v;
       selectedMachine := selectedMachine p;
       selectedTechnician := selectedTechnician p;
       problemDescription := problemDescription p; aiSolution := aiSolution p;
       processingStep := processingStep p; isRecording := isRecording p;
       saving := saving p; mediaRecorderRef := mediaRecorderRef p;
       audioChunksRef := audioChunksRef p |}).

Definition setSelectedMachine (v : string) : M Thrown Page unit :=
  set_page (λ p,
    {| machines := machines p; technicians := technicians p;
       selectedMachine := v; selectedTechnician := selectedTechnician p;
       problemDescription := problemDescription p; aiSolution := aiSolution p;
       processingStep := processingStep p; isRecording := isRecording p;
       saving := saving p; mediaRecorderRef := mediaRecorderRef p;
       audioChunksRef := audioChunksRef p |}).

Definition setSelectedTechnician (v : string) : M Thrown Page unit :=
  set_page (λ p,
    {| machines := machines p; technicians := technicians p;
       selectedMachine := selectedMachine p; selectedTechnician := v;
       problemDescription := problemDescription p; aiSolution := aiSolution p;
       processingStep := processingStep p; isRecording := isRecording p;
       saving := saving p; mediaRecorderRef := mediaRecorderRef p;
       audioChunksRef := audioChunksRef p |}).

Definition setProblemDescription (v : JsValue) : M Thrown Page unit :=
  set_page (λ p,
    {| machines := machines p; technicians := technicians p;
       selectedMachine := selectedMachine p;
       selectedTechnician := selectedTechnician p;
       problemDescription := v; aiSolution := aiSolution p;
       processingStep := processingStep p; isRecording := isRecording p;
       saving := saving p; mediaRecorderRef := mediaRecorderRef p;
       audioChunksRef := audioChunksRef p |}).

Definition setAiSolution (v : JsValue) : M Thrown Page unit :=
  set_page (λ p,
    {| machines := machines p; technicians := technicians p;
       selectedMachine := selectedMachine p;
       selectedTechnician := selectedTechnician p;
       problemDescription := problemDescription p; aiSolution := v;
       processingStep := processingStep p; isRecording := isRecording p;
       saving := saving p; mediaRecorderRef := mediaRecorderRef p;
       audioChunksRef := audioChunksRef p |}).

Definition setProcessingStep (v : ProcessingStep) : M Thrown Page unit :=
  set_page (λ p,
    {| machines := machines p; technicians := technicians p;
       selectedMachine := selectedMachine p;
       selectedTechnician := selectedTechnician p;
       problemDescription := problemDescription p; aiSolution := aiSolution p;
       processingStep := v; isRecording := isRecording p;
       saving := saving p; mediaRecorderRef := mediaRecorderRef p;
       audioChunksRef := audioChunksRef p |}).

Definition setIsRecording (v : bool) : M Thrown Page unit :=
  set_page (λ p,
    {| machines := machines p; technicians := technicians p;
       selectedMachine := selectedMachine p;
       selectedTechnician := selectedTechnician p;
       problemDescription := problemDescription p; aiSolution := aiSolution p;
       processingStep := processingStep p; isRecording := v;
       saving := saving p; mediaRecorderRef := mediaRecorderRef p;
       audioChunksRef := audioChunksRef p |}).

Definition setSaving (v : bool) : M Thrown Page unit :=
  set_page (λ p,
    {| machines := machines p; technicians := technicians p;
       selectedMachine := selectedMachine p;
       selectedTechnician := selectedTechnician p;
       problemDescription := problemDescription p; aiSolution := aiSolution p;
       processingStep := processingStep p; isRecording := isRecording p;
       saving := v; mediaRecorderRef := mediaRecorderRef p;
       audioChunksRef := audioChunksRef p |}).

(** [mediaRecorderRef.current = mediaRecorder] *)
Definition setMediaRecorderRef (v : option Closure) : M Thrown Page unit :=
  set_page (λ p,
    {| machines := machines p; technicians := technicians p;
       selectedMachine := selectedMachine p;
       selectedTechnician := selectedTechnician p;
       problemDescription := problemDescription p; aiSolution := aiSolution p;
       processingStep := processingStep p; isRecording := isRecording p;
       saving := saving p; mediaRecorderRef := v;
       audioChunksRef := audioChunksRef p |}).

(** [audioChunksRef.current = v] *)
Definition setAudioChunksRef (v : list string) : M Thrown Page unit :=
  set_page (λ p,
    {| machines := machines p; technicians := technicians p;
       selectedMachine := selectedMachine p;
       selectedTechnician := selectedTechnician p;
       problemDescription := problemDescription p; aiSolution := aiSolution p;
       processingStep := processingStep p; isRecording := isRecording p;
       saving := saving p; mediaRecorderRef := mediaRecorderRef p;
       audioChunksRef := v |}).

(** [fetchData], once both requests have settled: each argument is the
    [data] of one answer, [None] for [null]. *)
Definition fetchData (machinesData : option (list Machine))
    (techniciansData : option (list Technician)) : M Thrown Page unit :=
  match machinesData with
  | Some data => setMachines data
  | None => ret tt
  end ;;
  match techniciansData with
  | Some data => setTechnicians data
  | None => ret tt
  end.

(** [startRecording].  [media] is the outcome of acquiring the input
    stream and constructing the recorder on it; [render] is the render
    whose [startRecording] runs, which is the one on screen when the
    handler is invoked. *)
Definition startRecording (media : Completion Thrown unit) : M Thrown Page unit :=
  render <- get_page ;;
  try_catch
    (emit GetUserMedia ;;
     await media ;;
     setAudioChunksRef [] ;;
     setMediaRecorderRef (Some (closure render)) ;;
     setIsRecording true ;;
     setProcessingStep recording)
    (λ error,
     emit (ConsoleError "Error accessing microphone:") ;;
     emit (Toast ToastDestructive "Erro no microfone"
             "Não foi possível aceder ao microfone. Verifique as permissões.")).

(** [mediaRecorder.ondataavailable] *)
Definition ondataavailable (data : string) : M Thrown Page unit :=
  if bool_decide (0 < String.length data)%nat then
    p <- get_page ;;
    setAudioChunksRef (audioChunksRef p ++ [data])
  else ret tt.

(** [stopRecording]; the result is the recorder on which [stop()] was
    called, if any: the one whose [onstop] fires later. *)
Definition stopRecording : M Thrown Page (option Closure) :=
  p <- get_page ;;
  match mediaRecorderRef p with
  | Some mediaRecorder =>
    if isRecording p then
      setIsRecording false ;;
      ret (Some mediaRecorder)
    else ret None
  | None => ret None
  end.

(** [processAudio] of the render [render].  [reader] is what the
    FileReader produces for the recorded blob (a data URL, or a read
    error); [transcribe] and [generate] are the answers of the two edge
    functions. *)
Definition processAudio (render : Closure) (reader : option string)
    (transcribe generate : InvokeResult) : M Thrown Page unit :=
  setProcessingStep transcribing ;;
  try_catch
    (base64Audio <-
       match reader with
       | Some result => ret (element (split_on ","%char result) 1)
       | None => throw ReaderError
       end ;;
     emit (FunctionsInvoke "transcribe-audio" (object [("audio", base64Audio)])) ;;
     transcribedText <-
       match transcribe with
       | Failed transcribeError => throw (Functions transcribeError)
       | NoData => throw TypeError
       | Data text => ret text
       end ;;
     setProblemDescription transcribedText ;;
     setProcessingStep generating ;;
     let selectedMachineData :=
       List.find (λ m, bool_decide (id m = closure_selectedMachine render))
                 (closure_machines render) in
     emit (FunctionsInvoke "generate-solution"
             (object [("problemDescription", transcribedText);
                      ("machineName",
                       match selectedMachineData with
                       | Some m => JsString (model m)
                       | None => JsUndefined
                       end);
                      ("machineLocation",
                       match selectedMachineData with
                       | Some m => of_nullable (location m)
                       | None => JsUndefined
                       end)])) ;;
     solution <-
       match generate with
       | Failed solutionError => throw (Functions solutionError)
       | NoData => throw TypeError
       | Data solution => ret solution
       end ;;
     setAiSolution solution ;;
     setProcessingStep complete ;;
     emit (Toast ToastDefault "Processamento concluído"
             "Áudio transcrito e solução gerada com sucesso!"))
    (λ error,
     emit (ConsoleError "Processing error:") ;;
     setProcessingStep idle ;;
     emit (Toast ToastDestructive "Erro no processamento"
             "Ocorreu um erro ao processar o áudio. Tente novamente.")).

(** [mediaRecorder.onstop] of a recorder created in the render [render]. *)
Definition onstop (render : Closure) (reader : option string)
    (transcribe generate : InvokeResult) : M Thrown Page unit :=
  emit TracksStopped ;;
  processAudio render reader transcribe generate.

(** The object literal [handleSave] passes to [insert]. *)
Definition insert_values (p : Page) : JsObject :=
  object [("machine_id", JsString (selectedMachine p));
          ("technician_id", JsString (selectedTechnician p));
          ("problem_description", problemDescription p);
          ("ai_solution", aiSolution p);
          ("status", JsString "pending");
          ("priority", JsString "medium")].

(** [handleSave] *)
Definition handleSave (srv : Store.Server) : M Thrown Page unit :=
  p <- get_page ;;
  if falsy (selectedMachine p) || falsy (selectedTechnician p)
     || js_falsy (problemDescription p)
  then
    emit (Toast ToastDestructive "Campos obrigatórios"
            "Por favor, preencha todos os campos obrigatórios.")
  else
    setSaving true ;;
    finally
      (try_catch
         (error <- store_insert srv (insert_values p) ;;
          match error with
          | Some e => throw (Postgrest e)
          | None => ret tt
          end ;;
          emit (Toast ToastDefault "Intervenção criada"
                  "A intervenção foi registada com sucesso.") ;;
          emit (Navigate "/"))
         (λ error,
          emit (ConsoleError "Save error:") ;;
          emit (Toast ToastDestructive "Erro ao guardar"
                  "Não foi possível guardar a intervenção.")))
      (setSaving false).

(** The microphone button's [disabled] attribute. *)
Definition mic_disabled (p : Page) : bool :=
  bool_decide (processingStep p = transcribing)
  || bool_decide (processingStep p = generating).

(** The save button's [disabled] attribute. *)
Definition save_disabled (p : Page) : bool :=
  saving p || js_falsy (problemDescription p) || falsy (selectedMachine p)
  || falsy (selectedTechnician p).

(** *** The handlers between their suspension points

    An [async] handler runs until its first [await] when it is invoked
    and continues in a later task, and [stop()] only queues the
    recorder's [stop] event.  What a handler leaves with the browser is a
    [Task]; the browser runs it when the awaited outcome is there. *)
Inductive Task :=
| AwaitingGetUserMedia (render : Closure)   (* [startRecording] at its [await] *)
| AwaitingStop (render : Closure)           (* [stop()] called, [onstop] not yet run *)
| AwaitingReader (render : Closure)         (* [processAudio] at the FileReader *)
| AwaitingTranscription (render : Closure)  (* ... at [transcribe-audio] *)
| AwaitingGeneration.                       (* ... at [generate-solution] *)

(** [startRecording] up to [await getUserMedia] ... *)
Definition startRecording_request : M Thrown Page Closure :=
  render <- get_page ;;
  emit GetUserMedia ;;
  ret (closure render).

(** ... and from there on. *)
Definition startRecording_resume (render : Closure) (media : Completion Thrown unit)
  : M Thrown Page unit :=
  try_catch
    (await media ;;
     setAudioChunksRef [] ;;
     setMediaRecorderRef (Some render) ;;
     setIsRecording true ;;
     setProcessingStep recording)
    (λ error,
     emit (ConsoleError "Error accessing microphone:") ;;
     emit (Toast ToastDestructive "Erro no microfone"
             "Não foi possível aceder ao microfone. Verifique as permissões.")).

(** A click on the microphone button: a disabled button dispatches
    nothing; otherwise the handler bound in the current render runs,
    [stopRecording] while recording and [startRecording] if not. *)
Definition click : M Thrown Page (option Task) :=
  p <- get_page ;;
  if mic_disabled p then ret None
  else if isRecording p then
    stopped <- stopRecording ;;
    ret (AwaitingStop <$> stopped)
  else
    render <- startRecording_request ;;
    ret (Some (AwaitingGetUserMedia render)).

(** [onstop] up to the first [await] of [processAudio]. *)
Definition onstop_begin : M Thrown Page unit :=
  emit TracksStopped ;;
  setProcessingStep transcribing.

(** [processAudio]'s [catch] block. *)
Definition processAudio_catch (error : Thrown) : M Thrown Page unit :=
  emit (ConsoleError "Processing error:") ;;
  setProcessingStep idle ;;
  emit (Toast ToastDestructive "Erro no processamento"
          "Ocorreu um erro ao processar o áudio. Tente novamente.").

(** [processAudio] from the FileReader's result to the call of
    [transcribe-audio] ... *)
Definition processAudio_read (render : Closure) (reader : option string)
  : M Thrown Page (option Task) :=
  try_catch
    (base64Audio <-
       match reader with
       | Some result => ret (element (split_on ","%char result) 1)
       | None => throw ReaderError
       end ;;
     emit (FunctionsInvoke "transcribe-audio" (object [("audio", base64Audio)])) ;;
     ret (Some (AwaitingTranscription render)))
    (λ error, processAudio_catch error ;; ret None).

(** ... from its answer to the call of [generate-solution] ... *)
Definition processAudio_transcribed (render : Closure) (transcribe : InvokeResult)
  : M Thrown Page (option Task) :=
  try_catch
    (transcribedText <-
       match transcribe with
       | Failed transcribeError => throw (Functions transcribeError)
       | NoData => throw TypeError
       | Data text => ret text
       end ;;
     setProblemDescription transcribedText ;;
     setProcessingStep generating ;;
     let selectedMachineData :=
       List.find (λ m, bool_decide (id m = closure_selectedMachine render))
                 (closure_machines render) in
     emit (FunctionsInvoke "generate-solution"
             (object [("problemDescription", transcribedText);
                      ("machineName",
                       match selectedMachineData with
                       | Some m => JsString (model m)
                       | None => JsUndefined
                       end);
                      ("machineLocation",
                       match selectedMachineData with
                       | Some m => of_nullable (location m)
                       | None => JsUndefined
                       end)])) ;;
     ret (Some AwaitingGeneration))
    (λ error, processAudio_catch error ;; ret None).

(** ... and from that answer to the end. *)
Definition processAudio_generated (generate : InvokeResult)
  : M Thrown Page (option Task) :=
  try_catch
    (solution <-
       match generate with
       | Failed solutionError => throw (Functions solutionError)
       | NoData => throw TypeError
       | Data solution => ret solution
       end ;;
     setAiSolution solution ;;
     setProcessingStep complete ;;
     emit (Toast ToastDefault "Processamento concluído"
             "Áudio transcrito e solução gerada com sucesso!") ;;
     ret None)
    (λ error, processAudio_catch error ;; ret None).

(** What the environment supplies when a task is run. *)
Inductive Outcome :=
| Media (media : Completion Thrown unit)
| StopEvent
| Read (reader : option string)
| Answer (result : InvokeResult).

(** The continuation a task runs on an outcome of its kind. *)
Definition resume (t : Task) (o : Outcome) : option (M Thrown Page (option Task)) :=
  match t, o with
  | AwaitingGetUserMedia render, Media media =>
    Some (startRecording_resume render media ;; ret None)
  | AwaitingStop render, StopEvent =>
    Some (onstop_begin ;; ret (Some (AwaitingReader render)))
  | AwaitingReader render, Read reader => Some (processAudio_read render reader)
  | AwaitingTranscription render, Answer transcribe =>
    Some (processAudio_transcribed render transcribe)
  | AwaitingGeneration, Answer generate => Some (processAudio_generated generate)
  | _, _ => None
  end.

(** What happens to the page: the user's actions on the form, the
    recorder's events, the answer to the mount effect's [fetchData], and
    the settling of what pending task number [i] awaits. *)
Inductive Event :=
| Click
| SelectMachine (v : string)
| SelectTechnician (v : string)
| ChangeDescription (v : string)
| Loaded (machinesData : option (list Machine))
         (techniciansData : option (list Technician))
| DataAvailable (data : string)
| Settle (i : nat) (o : Outcome).

(** The page together with the tasks it has left pending. *)
Record Browser := {
  session : Session Page;
  pending : list Task }.

(** Running a handler and queuing the task it leaves, if any. *)
Definition dispatch (m : M Thrown Page (option Task)) (others : list Task)
    (b : Browser) : Browser :=
  match m (session b) with
  | (Normal (Some t), σ) => {| session := σ; pending := others ++ [t] |}
  | (_, σ) => {| session := σ; pending := others |}
  end.

Definition step (b : Browser) (e : Event) : Browser :=
  match e with
  | Click => dispatch click (pending b) b
  | SelectMachine v => dispatch (setSelectedMachine v ;; ret None) (pending b) b
  | SelectTechnician v =>
    dispatch (setSelectedTechnician v ;; ret None) (pending b) b
  | ChangeDescription v =>
    dispatch (setProblemDescription (JsString v) ;; ret None) (pending b) b
  | Loaded machinesData techniciansData =>
    dispatch (fetchData machinesData techniciansData ;; ret None) (pending b) b
  | DataAvailable data => dispatch (ondataavailable data ;; ret None) (pending b) b
  | Settle i o =>
    match pending b !! i with
    | Some t =>
      match resume t o with
      | Some m => dispatch m (delete i (pending b)) b
      | None => b
      end
    | None => b
    end
  end.

Definition run (b : Browser) (events : list Event) : Browser :=
  foldl step b events.

(** The events that neither click the microphone button nor settle a
    pending task: changes of the form, loaded picker rows and chunks. *)
Definition quiet (e : Event) : bool :=
  match e with
  | Click | Settle _ _ => false
  | _ => true
  end.

(** A page that shows a recording although no recorder is being
    recorded from has a [stop] event pending. *)
Definition stop_pending (b : Browser) : Prop :=
  processingStep (page (session b)) = recording →
  isRecording (page (session b)) = false →
  ∃ render, AwaitingStop render ∈ pending b.

(** A freshly mounted page. *)
Definition mount (w : World) : Browser :=
  {| session := {| page := initial; world := w |}; pending := [] |}.

(** One voice submission, event by event, on a page with nothing
    pending: the click that starts the recorder, the microphone being
    granted, the chunks, the click that stops the recorder, its [stop]
    event, the FileReader's result and the answers of the two functions
    (as far as [processAudio] gets to ask for them). *)
Definition submission (chunks : list string) (reader : option string)
    (transcribe generate : InvokeResult) : list Event :=
  [Click; Settle 0 (Media (Normal tt))]
  ++ (DataAvailable <$> chunks)
  ++ [Click; Settle 0 StopEvent; Settle 0 (Read reader);
      Settle 0 (Answer transcribe); Settle 0 (Answer generate)].

End NewIntervention.

(** ** The InterventionDetail page *)

Module InterventionDetail.

Record Page := {
  intervention : option Store.InterventionRow;
  machine : option Store.MachineRow;
  technician : option Store.TechnicianRow;
  loading : bool;
  updating : bool }.

Definition initial : Page :=
  {| intervention := None; machine := None; technician := None;
     loading := true; updating := false |}.

Definition setIntervention (v : option Store.InterventionRow) : M Thrown Page unit :=
  set_page (λ p,
    {| intervention := v; machine := machine p; technician := technician p;
       loading := loading p; updating := updating p |}).

Definition setMachine (v : option Store.MachineRow) : M Thrown Page unit :=
  set_page (λ p,
    {| intervention := intervention p; machine := v; technician := technician p;
       loading := loading p; updating := updating p |}).

Definition setTechnician (v : option Store.TechnicianRow) : M Thrown Page unit :=
  set_page (λ p,
    {| intervention := intervention p; machine := machine p; technician := v;
       loading := loading p; updating := updating p |}).

Definition setLoading (v : bool) : M Thrown Page unit :=
  set_page (λ p,
    {| intervention := intervention p; machine := machine p;
       technician := technician p; loading := v; updating := updating p |}).

Definition setUpdating (v : bool) : M Thrown Page unit :=
  set_page (λ p,
    {| intervention := intervention p; machine := machine p;
       technician := technician p; loading := loading p; updating := v |}).

(** [{ ...intervention, status: newStatus }] *)
Definition with_status (iv : Store.InterventionRow) (newStatus : string)
  : Store.InterventionRow :=
  {| Store.id := Store.id iv;
     Store.technician_id := Store.technician_id iv;
     Store.machine_id := Store.machine_id iv;
     Store.problem_description := Store.problem_description iv;
     Store.audio_url := Store.audio_url iv;
     Store.ai_solution := Store.ai_solution iv;
     Store.status := Some newStatus;
     Store.priority := Store.priority iv;
     Store.created_at := Store.created_at iv;
     Store.updated_at := Store.updated_at iv;
     Store.resolved_at := Store.resolved_at iv |}.

(** [fetchData]; one server answer per request. *)
Definition fetchData (srv srvM srvT : Store.Server) (interventionId : string)
  : M Thrown Page unit :=
  finally
    (try_catch
       (emit (StoreSelect "interventions" interventionId) ;;
        d <- get_db ;;
        let '(interventionData, error) :=
          Store.select_single srv (Store.interventions d) interventionId in
        match error with
        | Some e => throw (Postgrest e)
        | None => ret tt
        end ;;
        setIntervention interventionData ;;
        match interventionData with
        | None => ret tt
        | Some iv =>
          (if truthy (Store.machine_id iv) then
             let k := default EmptyString (Store.machine_id iv) in
             emit (StoreSelect "machines" k) ;;
             setMachine (Store.select_single srvM (Store.machines d) k).1
           else ret tt) ;;
          (if truthy (Store.technician_id iv) then
             let k := default EmptyString (Store.technician_id iv) in
             emit (StoreSelect "technicians" k) ;;
             setTechnician (Store.select_single srvT (Store.technicians d) k).1
           else ret tt)
        end)
       (λ error,
        emit (ConsoleError "Error fetching intervention:") ;;
        emit (Navigate "/interventions")))
    (setLoading false).

(** The [updateData] object [updateStatus] builds; [clock] is the browser's
    [new Date().toISOString()]. *)
Definition updateData (clock newStatus : string) : JsObject :=
  let updateData : JsObject := object [("status", JsString newStatus)] in
  if bool_decide (newStatus = "resolved")
  then set_property updateData ("resolved_at", JsString clock)
  else updateData.

(** [updateStatus] *)
Definition updateStatus (srv : Store.Server) (clock newStatus : string)
  : M Thrown Page unit :=
  p <- get_page ;;
  match intervention p with
  | None => ret tt
  | Some iv =>
    setUpdating true ;;
    finally
      (try_catch
         (error <- store_update srv (updateData clock newStatus) (Store.id iv) ;;
          match error with
          | Some e => throw (Postgrest e)
          | None => ret tt
          end ;;
          setIntervention (Some (with_status iv newStatus)) ;;
          emit (Toast ToastDefault "Estado atualizado"
                  ("Intervenção marcada como " +:+
                   (if bool_decide (newStatus = "resolved") then "resolvida"
                    else if bool_decide (newStatus = "in_progress")
                         then "em progresso"
                         else newStatus))))
         (λ error,
          emit (ConsoleError "Error updating status:") ;;
          emit (Toast ToastDestructive "Erro"
                  "Não foi possível atualizar o estado.")))
      (setUpdating false)
  end.

(** The controls the page renders that call [updateStatus]: the quick
    action buttons in the header and the "Alterar Estado" select. *)
Inductive Control :=
| QuickAction (label target : string) (disabled : bool)
| StatusSelect (value : string) (items : list string) (disabled : bool).

Definition quick_actions (p : Page) : list Control :=
  match intervention p with
  | None => []
  | Some iv =>
    (if bool_decide (Store.status iv = Some "pending")
     then [QuickAction "Iniciar" "in_progress" (updating p)] else [])
    ++ (if bool_decide (Store.status iv = Some "in_progress")
        then [QuickAction "Resolver" "resolved" (updating p)] else [])
    ++ (if bool_decide (Store.status iv = Some "pending")
           || bool_decide (Store.status iv = Some "in_progress")
        then [QuickAction EmptyString "cancelled" (updating p)] else [])
  end.

(** [intervention.status || 'pending'] *)
Definition status_or_pending (v : option string) : string :=
  match v with
  | Some s => if falsy s then "pending" else s
  | None => "pending"
  end.

Definition status_select (p : Page) : list Control :=
  match intervention p with
  | None => []
  | Some iv =>
    [StatusSelect (status_or_pending (Store.status iv))
       ["pending"; "in_progress"; "resolved"; "cancelled"] (updating p)]
  end.

(** While loading, or without a record, the page renders no control. *)
Definition controls (p : Page) : list Control :=
  if loading p then [] else quick_actions p ++ status_select p.

(** The target statuses a control can pass to [updateStatus]. *)
Definition targets (c : Control) : list string :=
  match c with
  | QuickAction _ target disabled => if disabled then [] else [target]
  | StatusSelect _ items disabled => if disabled then [] else items
  end.

Definition offered_transitions (p : Page) : list string :=
  concat (targets <$> controls p).

Definition quick_transitions (p : Page) : list string :=
  if loading p then [] else concat (targets <$> quick_actions p).

End InterventionDetail.

(** ** The generate-solution edge function *)

Module GenerateSolution.

(** A request: its method, and what destructuring [await req.json()]
    gives, the parsed object or what was thrown (by a body that does not
    parse, or that parses to [null]). *)
Record Request := {
  method : string;
  json : Completion JsThrown JsObject }.

Record Response := {
  body : option JsObject;
  status : Z;
  headers : list (string * string) }.

(** The gateway's answer to [fetch]: its status, what [text()] settles
    to, and what reading [choices?.[0]?.message?.content] off
    [await response.json()] gives: that value (a completion's content is
    text or [null], and there is none without a first choice), or what
    was thrown (by a body that does not parse, or that parses to
    [null]). *)
Record GatewayResponse := {
  gw_status : Z;
  gw_text : Completion JsThrown string;
  gw_content : Completion JsThrown JsValue }.

Definition ok (r : GatewayResponse) : bool :=
  (200 <=? gw_status r) && (gw_status r <=? 299).

Definition corsHeaders : list (string * string) :=
  [("Access-Control-Allow-Origin", "*");
   ("Access-Control-Allow-Headers",
    "authorization, x-client-info, apikey, content-type")].

Definition jsonHeaders : list (string * string) :=
  corsHeaders ++ [("Content-Type", "application/json")].

(** [v || otherwise] *)
Definition or_else (v : JsValue) (otherwise : string) : string :=
  if js_falsy v then otherwise else template v.

Definition systemPrompt : string :=
"Você é um especialista em manutenção industrial com vasta experiência em diagnóstico e resolução de problemas de máquinas. 

Sua tarefa é analisar problemas reportados por técnicos e fornecer soluções práticas e detalhadas.

Sempre estruture sua resposta da seguinte forma:
1. **Diagnóstico**: Análise breve do problema
2. **Causa Provável**: O que pode estar causando o problema
3. **Solução Recomendada**: Passos detalhados para resolver
4. **Prevenção**: Como evitar que o problema ocorra novamente
5. **Peças Necessárias**: Lista de peças que podem ser necessárias (se aplicável)

Seja conciso mas completo. Use linguagem técnica apropriada.".

Definition userPrompt (problemDescription machineName machineLocation : JsValue)
  : string :=
  "Máquina: " +:+ or_else machineName "Não especificada" +:+ "
Localização: " +:+ or_else machineLocation "Não especificada" +:+ "

Problema Reportado:
" +:+ template problemDescription +:+ "

Por favor, forneça uma solução detalhada para este problema.".

(** The handler passed to [serve].  [LOVABLE_API_KEY] is what
    [Deno.env.get] returns and [gateway] what the one [fetch] settles to. *)
Definition serve (LOVABLE_API_KEY : JsValue)
    (gateway : Completion JsThrown GatewayResponse) (req : Request)
  : M JsThrown unit Response :=
  if bool_decide (method req = "OPTIONS") then
    ret {| body := None; status := 200; headers := corsHeaders |}
  else
    try_catch
      (payload <- await (json req) ;;
       let problemDescription := property payload "problemDescription" in
       let machineName := property payload "machineName" in
       let machineLocation := property payload "machineLocation" in
       (if js_falsy problemDescription then
          emit (ConsoleError "No problem description provided") ;;
          throw (JsError "Problem description is required")
        else ret tt) ;;
       emit (ConsoleLog "Generating solution for problem:") ;;
       (if js_falsy LOVABLE_API_KEY then
          emit (ConsoleError "LOVABLE_API_KEY not configured") ;;
          throw (JsError "LOVABLE_API_KEY is not configured")
        else ret tt) ;;
       emit (ConsoleLog "Calling Lovable AI Gateway...") ;;
       emit (Fetch "https://ai.gateway.lovable.dev/v1/chat/completions"
               ("Bearer " +:+ template LOVABLE_API_KEY) "google/gemini-2.5-flash"
               [("system", systemPrompt);
                ("user", userPrompt problemDescription machineName machineLocation)]
               2000) ;;
       response <- await gateway ;;
       if negb (ok response) then
         errorText <- await (gw_text response) ;;
         emit (ConsoleError "AI Gateway error:") ;;
         if bool_decide (gw_status response = 429) then
           ret {| body := Some (object [("error", JsString "Rate limit exceeded. Please try again later.")]);
                  status := 429; headers := jsonHeaders |}
         else if bool_decide (gw_status response = 402) then
           ret {| body := Some (object [("error", JsString "Payment required. Please add credits to your workspace.")]);
                  status := 402; headers := jsonHeaders |}
         else throw (JsError ("AI Gateway error: " +:+ errorText))
       else
         solution <- await (gw_content response) ;;
         emit (ConsoleLog "Solution generated successfully") ;;
         ret {| body := Some (object [("solution", solution)]);
                status := 200; headers := jsonHeaders |})
      (λ error,
       let errorMessage :=
         match error with
         | JsError message => message
         | NotAnError => "Unknown error"
         end in
       emit (ConsoleError "Solution generation error:") ;;
       ret {| body := Some (object [("error", JsString errorMessage)]);
              status := 500; headers := jsonHeaders |}).

End GenerateSolution.

(** ** Sessions over one database *)

Module Lifecycle.

(** One [updateStatus] call: the server's answer, the browser clock and
    the requested status. *)
Record Transition := {
  server : Store.Server;
  clock : string;
  target : string }.

Fixpoint transitions (ts : list Transition) : M Thrown InterventionDetail.Page unit :=
  match ts with
  | [] => ret tt
  | t :: ts =>
    InterventionDetail.updateStatus (server t) (clock t) (target t) ;;
    transitions ts
  end.

(** What a user does to the database through the two pages: save the
    intake form as it stands, or open the detail page of a record and
    request status changes there. *)
Inductive Op :=
| Create (form : NewIntervention.Page) (srv : Store.Server)
| Visit (interventionId : string) (srv srvM srvT : Store.Server)
        (ts : list Transition).

Definition step (w : World) (o : Op) : World :=
  match o with
  | Create form srv =>
    world (exec (NewIntervention.handleSave srv) {| page := form; world := w |})
  | Visit k srv srvM srvT ts =>
    world (exec (InterventionDetail.fetchData srv srvM srvT k ;; transitions ts)
                {| page := InterventionDetail.initial; world := w |})
  end.

Definition run (ops : list Op) (w : World) : World := foldl step w ops.

(** A database with reference data and no intervention yet. *)
Definition fresh (technicians : gmap string Store.TechnicianRow)
    (machines : gmap string Store.MachineRow) : World :=
  {| db := {| Store.technicians := technicians; Store.machines := machines;
              Store.interventions := ∅ |};
     trace := [] |}.

(** Every row marked resolved carries a resolution time. *)
Definition resolved_rows_timestamped (d : Store.DB) : Prop :=
  ∀ (k : string) (r : Store.InterventionRow),
    Store.interventions d !! k = Some r →
    Store.status r = Some "resolved" → is_Some (Store.resolved_at r).

End Lifecycle.

(** ** Sample data used by the worked examples *)

Module Sample.

Definition technicians : gmap string Store.TechnicianRow :=
  {[ "T1" := {| Store.t_id := "T1"; Store.t_name := "Ana";
                Store.t_specialty := Some "Hidráulica";
                Store.t_is_active := Some true |} ]}.

Definition machines : gmap string Store.MachineRow :=
  {[ "M1" := {| Store.m_id := "M1"; Store.m_model := "Prensa P-200";
                Store.m_location := Some "Linha 3";
                Store.m_is_active := Some true |};
     "M2" := {| Store.m_id := "M2"; Store.m_model := "Torno T-80";
                Store.m_location := None;
                Store.m_is_active := Some true |} ]}.

Definition world0 : World := Lifecycle.fresh technicians machines.

Definition server (uuid now : string) : Store.Server :=
  {| Store.available := true; Store.now := now; Store.gen_random_uuid := uuid |}.

Definition offline : Store.Server :=
  {| Store.available := false; Store.now := "2024-05-01T09:00:00.000Z";
     Store.gen_random_uuid := "I0" |}.

Definition srv1 : Store.Server := server "I1" "2024-05-01T09:00:00.000Z".
Definition srv2 : Store.Server := server "I2" "2024-05-01T10:00:00.000Z".
Definition srv3 : Store.Server := server "I3" "2024-05-01T11:00:00.000Z".

(** The picker rows of the sample database. *)
Definition machine1 : NewIntervention.Machine :=
  {| NewIntervention.id := "M1"; NewIntervention.model := "Prensa P-200";
     NewIntervention.location := Some "Linha 3" |}.

Definition machine2 : NewIntervention.Machine :=
  {| NewIntervention.id := "M2"; NewIntervention.model := "Torno T-80";
     NewIntervention.location := None |}.

Definition technician1 : NewIntervention.Technician :=
  {| NewIntervention.technician_id := "T1"; NewIntervention.name := "Ana";
     NewIntervention.specialty := Some "Hidráulica" |}.

(** The intake form with both pickers set, after a voice submission of
    three chunks that completed. *)
Definition form : NewIntervention.Page :=
  {| NewIntervention.machines := [machine1; machine2];
     NewIntervention.technicians := [technician1];
     NewIntervention.selectedMachine := "M1";
     NewIntervention.selectedTechnician := "T1";
     NewIntervention.problemDescription := JsString "motor faz ruído anómalo";
     NewIntervention.aiSolution := JsString "1. Diagnóstico: rolamento gasto";
     NewIntervention.processingStep := NewIntervention.complete;
     NewIntervention.isRecording := false;
     NewIntervention.saving := false;
     NewIntervention.mediaRecorderRef :=
       Some {| NewIntervention.closure_machines := [machine1; machine2];
               NewIntervention.closure_selectedMachine := "M1" |};
     NewIntervention.audioChunksRef := ["c1"; "c2"; "c3"] |}.

(** The same form with no technician chosen and a typed description. *)
Definition form_without_technician : NewIntervention.Page :=
  {| NewIntervention.machines := NewIntervention.machines form;
     NewIntervention.technicians := NewIntervention.technicians form;
     NewIntervention.selectedMachine := "M1";
     NewIntervention.selectedTechnician := EmptyString;
     NewIntervention.problemDescription := JsString "motor faz ruído anómalo";
     NewIntervention.aiSolution := JsString EmptyString;
     NewIntervention.processingStep := NewIntervention.idle;
     NewIntervention.isRecording := false;
     NewIntervention.saving := false;
     NewIntervention.mediaRecorderRef := None;
     NewIntervention.audioChunksRef := [] |}.

Definition intake : Session NewIntervention.Page :=
  {| page := form; world := world0 |}.

(** The database after the form has been saved as record [I1]. *)
Definition world1 : World := Lifecycle.step world0 (Lifecycle.Create form srv1).

(** That record, as the store holds it. *)
Definition row1 : Store.InterventionRow :=
  Store.new_row srv1 (NewIntervention.insert_values form).

(** The detail page of [I1], freshly loaded. *)
Definition detail1 : Session InterventionDetail.Page :=
  exec (InterventionDetail.fetchData srv1 srv1 srv1 "I1")
       {| page := InterventionDetail.initial; world := world1 |}.

(** ... after choosing "Resolvido" in the status select ... *)
Definition detail2 : Session InterventionDetail.Page :=
  exec (InterventionDetail.updateStatus srv2 "2024-05-01T10:00:00.123Z" "resolved")
       detail1.

(** ... and then "Pendente" in the same select. *)
Definition detail3 : Session InterventionDetail.Page :=
  exec (InterventionDetail.updateStatus srv3 "2024-05-01T11:00:00.456Z" "pending")
       detail2.

(** The same two requests as one visit in the life of the database. *)
Definition reopen : list Lifecycle.Op :=
  [Lifecycle.Create form srv1;
   Lifecycle.Visit "I1" srv1 srv1 srv1
     [{| Lifecycle.server := srv2; Lifecycle.clock := "2024-05-01T10:00:00.123Z";
         Lifecycle.target := "resolved" |};
      {| Lifecycle.server := srv3; Lifecycle.clock := "2024-05-01T11:00:00.456Z";
         Lifecycle.target := "pending" |}]].

Definition resolve_only : list Lifecycle.Op :=
  [Lifecycle.Create form srv1;
   Lifecycle.Visit "I1" srv1 srv1 srv1
     [{| Lifecycle.server := srv2; Lifecycle.clock := "2024-05-01T10:00:00.123Z";
         Lifecycle.target := "resolved" |}]].

(** A freshly mounted intake page, and the events that load and set its
    pickers. *)
Definition dataUrl : string := "data:audio/webm;base64,GkXfo59ChoEB".

Definition recorder_ok : Completion Thrown unit := Normal tt.

Definition blank : Session NewIntervention.Page :=
  {| page := NewIntervention.initial; world := world0 |}.

Definition mounted : NewIntervention.Browser := NewIntervention.mount world0.

Definition pickers_set : list NewIntervention.Event :=
  [NewIntervention.Loaded (Some [machine1; machine2]) (Some [technician1]);
   NewIntervention.SelectMachine "M1";
   NewIntervention.SelectTechnician "T1"].

Definition ready : NewIntervention.Browser :=
  NewIntervention.run mounted pickers_set.

(** A first submission that completes, then a second one whose
    generation call is answered with HTTP 429. *)
Definition after_first : NewIntervention.Browser :=
  NewIntervention.run mounted
    (pickers_set ++
     NewIntervention.submission ["c1"; "c2"; "c3"] (Some dataUrl)
       (Data (JsString "motor faz ruído anómalo"))
       (Data (JsString "1. Diagnóstico: rolamento gasto"))).


(** A submission the generation function answers with 200 and no
    solution, saved as it stands. *)
Definition after_empty_answer : NewIntervention.Browser :=
  NewIntervention.run mounted
    (pickers_set ++
     NewIntervention.submission ["c1"] (Some dataUrl)
       (Data (JsString "motor faz ruído anómalo")) (Data JsUndefined)).

(** Record, stop, and click once more before the recorder's [stop] event
    is dispatched; then [onstop] starts [processAudio], which calls the
    transcription function, and only after that does the second click's
    [getUserMedia] settle. *)
Definition stopped : NewIntervention.Browser :=
  NewIntervention.run mounted
    [NewIntervention.Click;
     NewIntervention.Settle 0 (NewIntervention.Media recorder_ok);
     NewIntervention.DataAvailable "c1";
     NewIntervention.Click].

Definition clicked_again : NewIntervention.Browser :=
  NewIntervention.step stopped NewIntervention.Click.

Definition transcription_pending : NewIntervention.Browser :=
  NewIntervention.step clicked_again
    (NewIntervention.Settle 0 NewIntervention.StopEvent).

Definition transcription_in_flight : NewIntervention.Browser :=
  NewIntervention.step transcription_pending
    (NewIntervention.Settle 1 (NewIntervention.Read (Some dataUrl))).

Definition recording_during_transcription : NewIntervention.Browser :=
  NewIntervention.step transcription_in_flight
    (NewIntervention.Settle 0 (NewIntervention.Media recorder_ok)).

(** A session in the middle of a transcription. *)
Definition busy : Session NewIntervention.Page :=
  exec (NewIntervention.setProcessingStep NewIntervention.transcribing)
       (NewIntervention.session after_first).

(** Requests to the edge function. *)
Definition payload : JsObject :=
  object [("problemDescription", JsString "fuga de óleo na bomba");
          ("machineName", JsString "Prensa P-200")].

Definition request : GenerateSolution.Request :=
  {| GenerateSolution.method := "POST";
     GenerateSolution.json := Normal payload |}.

Definition gateway (status : Z) : Completion JsThrown GenerateSolution.GatewayResponse :=
  Normal {| GenerateSolution.gw_status := status;
            GenerateSolution.gw_text := Normal "upstream says no";
            GenerateSolution.gw_content := Normal (JsString "1. Diagnóstico") |}.

(** The gateway answering 429 on a connection that breaks before the
    error body has been read. *)
Definition cut_off : GenerateSolution.GatewayResponse :=
  {| GenerateSolution.gw_status := 429;
     GenerateSolution.gw_text := Abrupt (JsError "error reading a body from connection");
     GenerateSolution.gw_content := Abrupt (JsError "error reading a body from connection") |}.

Definition edge : Session unit := {| page := tt; world := world0 |}.

End Sample.

(** ** The NewIntervention page: progress display and recorder events *)

Module NewInterventionView.

Definition steps : list NewIntervention.ProcessingStep :=
  [NewIntervention.recording; NewIntervention.transcribing;
   NewIntervention.generating; NewIntervention.complete].

(** [l.indexOf(x)]: the first position of [x], or -1. *)
Fixpoint indexOf (l : list NewIntervention.ProcessingStep)
    (x : NewIntervention.ProcessingStep) : Z :=
  match l with
  | [] => -1
  | y :: l' =>
    if bool_decide (y = x) then 0
    else let i := indexOf l' x in if i <? 0 then -1 else i + 1
  end.

(** [getStepStatus] *)
Definition getStepStatus (processingStep step : NewIntervention.ProcessingStep)
  : string :=
  let currentIndex := indexOf steps processingStep in
  let stepIndex := indexOf steps step in
  if bool_decide (processingStep = NewIntervention.idle) then "idle"
  else if stepIndex <? currentIndex then "complete"
  else if stepIndex =? currentIndex then "active"
  else "pending".

(** The recorder delivering a run of [dataavailable] events. *)
Fixpoint dataavailable (chunks : list string)
  : M Thrown NewIntervention.Page unit :=
  match chunks with
  | [] => ret tt
  | data :: rest => NewIntervention.ondataavailable data ;; dataavailable rest
  end.

(** The body [processAudio] of the render [render] sends to
    generate-solution after the transcription [text]. *)
Definition generate_body (render : NewIntervention.Closure) (text : JsValue)
  : JsObject :=
  let selectedMachineData :=
    List.find (λ m, bool_decide (NewIntervention.id m
                                 = NewIntervention.closure_selectedMachine render))
              (NewIntervention.closure_machines render) in
  object [("problemDescription", text);
          ("machineName",
           match selectedMachineData with
           | Some m => JsString (NewIntervention.model m)
           | None => JsUndefined
           end);
          ("machineLocation",
           match selectedMachineData with
           | Some m => of_nullable (NewIntervention.location m)
           | None => JsUndefined
           end)].

(** The bodies sent to one edge function, in order. *)
Definition invoke_bodies (name : string) (tr : list Effect) : list JsObject :=
  omap (λ e, match e with
             | FunctionsInvoke n body =>
               if bool_decide (n = name) then Some body else None
             | _ => None
             end) tr.

(** Whether a character occurs in a string. *)
Fixpoint occurs (c : ascii) (s : string) : bool :=
  match s with
  | EmptyString => false
  | String c' s' => Ascii.eqb c' c || occurs c s'
  end.

End NewInterventionView.

(** ** The Interventions list page *)

Module Interventions.

(** [s.includes(t)]: whether [t] occurs in [s]. *)
Fixpoint includes (s t : string) : bool :=
  String.prefix t s
  || match s with
     | EmptyString => false
     | String _ s' => includes s' t
     end.

Record Page := {
  interventions : list Store.InterventionRow;
  machines : gmap string string;
  technicians : gmap string string;
  search : string;
  statusFilter : string;
  loading : bool }.

(** The [useState] initial values. *)
Definition initial : Page :=
  {| interventions := []; machines := ∅; technicians := ∅;
     search := EmptyString; statusFilter := "all"; loading := true |}.

(** [a || b] on values that are [true], [false] or [undefined]. *)
Definition or_undefined (a b : option bool) : option bool :=
  match a with
  | Some true => a
  | _ => b
  end.

(** The map a [forEach] loop of assignments [map[key] = value] builds. *)
Definition index_by {A} (key value : A → string) (rows : list A)
  : gmap string string :=
  foldl (λ map row, <[key row := value row]> map) ∅ rows.

(** [fetchData]: each argument is the [data] of one answer, [None] for
    [null].  The client settles every request with [{ data, error }]
    instead of rejecting, so the [catch] block has nothing to catch. *)
Definition fetchData (interventionsData : option (list Store.InterventionRow))
    (machinesData : option (list Store.MachineRow))
    (techniciansData : option (list Store.TechnicianRow)) (p : Page) : Page :=
  {| interventions := default (interventions p) interventionsData;
     machines := index_by Store.m_id Store.m_model (default [] machinesData);
     technicians := index_by Store.t_id Store.t_name (default [] techniciansData);
     search := search p;
     statusFilter := statusFilter p;
     loading := false |}.

Section Filter.

(** [String.prototype.toLowerCase], which the language provides. *)
Variable toLowerCase : string → string.

(** [v?.toLowerCase().includes(search.toLowerCase())] *)
Definition lower_includes (v : option string) (search : string) : option bool :=
  (λ s, includes (toLowerCase s) (toLowerCase search)) <$> v.

Definition matchesSearch (p : Page) (intervention : Store.InterventionRow)
  : option bool :=
  or_undefined
    (or_undefined
       (lower_includes (Store.problem_description intervention) (search p))
       (lower_includes
          (machines p !! default EmptyString (Store.machine_id intervention))
          (search p)))
    (lower_includes
       (technicians p !! default EmptyString (Store.technician_id intervention))
       (search p)).

Definition matchesStatus (p : Page) (intervention : Store.InterventionRow) : bool :=
  bool_decide (statusFilter p = "all")
  || bool_decide (Store.status intervention = Some (statusFilter p)).

(** [matchesSearch && matchesStatus], as [filter] reads it. *)
Definition shown (p : Page) (intervention : Store.InterventionRow) : bool :=
  match matchesSearch p intervention with
  | Some true => matchesStatus p intervention
  | _ => false
  end.

Definition filteredInterventions (p : Page) : list Store.InterventionRow :=
  List.filter (shown p) (interventions p).

End Filter.

(** A lower-casing of the ASCII letters, for the worked examples. *)
Definition ascii_lower (c : ascii) : ascii :=
  let n := nat_of_ascii c in
  if (65 <=? n)%nat && (n <=? 90)%nat then ascii_of_nat (n + 32) else c.

Fixpoint lower (s : string) : string :=
  match s with
  | EmptyString => EmptyString
  | String c s' => String (ascii_lower c) (lower s')
  end.

End Interventions.

(** ** The dashboard's count of open interventions *)

Module Dashboard.

(** The rows [.in('status', ['pending', 'in_progress'])] selects. *)
Definition is_open (r : Store.InterventionRow) : bool :=
  match Store.status r with
  | Some s => bool_decide (s ∈ ["pending"; "in_progress"])
  | None => false
  end.

(** The exact count the first request of [fetchDashboardData] asks for;
    [None] is the [null] of a failed request. *)
Definition pendingCount (srv : Store.Server) (d : Store.DB) : option nat :=
  if Store.available srv
  then Some (size (filter (λ kr, is_open kr.2 = true) (Store.interventions d)))
  else None.

(** [pendingCount || 0], the [pendingInterventions] statistic. *)
Definition pendingInterventions (srv : Store.Server) (d : Store.DB) : nat :=
  default 0%nat (pendingCount srv d).

End Dashboard.

(** ** The application's routes *)

Module App.

(** The route of the table that the router matched. *)
Inductive Route :=
| RouteAuth                       (* /auth *)
| RouteRoot                       (* / *)
| RouteInterventions              (* /interventions *)
| RouteInterventionsNew           (* /interventions/new *)
| RouteInterventionsId            (* /interventions/:id *)
| RouteInventory                  (* /inventory *)
| RouteMachines                   (* /machines *)
| RouteMachinesId                 (* /machines/:id *)
| RouteStar.                      (* * *)

Inductive PageComponent :=
| Auth | Dashboard | Interventions | NewIntervention | InterventionDetail
| Inventory | Machines | MachineDetail | NotFound.

Inductive Element :=
| Spinner                              (* ProtectedRoute's loader *)
| Splash                               (* AppRoutes' loader *)
| Navigate (to : string)
| Page (component : PageComponent).

(** [ProtectedRoute]; [user] is [None] when nobody is signed in. *)
Definition ProtectedRoute (user : option string) (loading : bool)
    (children : Element) : Element :=
  if loading then Spinner
  else if bool_decide (user = None) then Navigate "/auth"
  else children.

(** [AppRoutes]: both components read the same [useAuth] value. *)
Definition AppRoutes (user : option string) (loading : bool) (matched : Route)
  : Element :=
  if loading then Splash
  else match matched with
       | RouteAuth =>
         if bool_decide (user = None) then Page Auth else Navigate "/"
       | RouteRoot => ProtectedRoute user loading (Page Dashboard)
       | RouteInterventions => ProtectedRoute user loading (Page Interventions)
       | RouteInterventionsNew => ProtectedRoute user loading (Page NewIntervention)
       | RouteInterventionsId => ProtectedRoute user loading (Page InterventionDetail)
       | RouteInventory => ProtectedRoute user loading (Page Inventory)
       | RouteMachines => ProtectedRoute user loading (Page Machines)
       | RouteMachinesId => ProtectedRoute user loading (Page MachineDetail)
       | RouteStar => Page NotFound
       end.

End App.

(** ** What the pages write into a record *)

Module Records.

(** The columns no page ever writes after creation. *)
Definition same_particulars (r r' : Store.InterventionRow) : Prop :=
  Store.id r' = Store.id r
  ∧ Store.created_at r' = Store.created_at r
  ∧ Store.technician_id r' = Store.technician_id r
  ∧ Store.machine_id r' = Store.machine_id r
  ∧ Store.problem_description r' = Store.problem_description r
  ∧ Store.audio_url r' = Store.audio_url r
  ∧ Store.ai_solution r' = Store.ai_solution r
  ∧ Store.priority r' = Store.priority r.

(** A row as the schema and the intake form let it be. *)
Definition well_formed (d : Store.DB) (k : string) (r : Store.InterventionRow)
  : Prop :=
  Store.id r = k
  ∧ (∃ s, Store.status r = Some s ∧ s ∈ Store.status_values)
  ∧ Store.priority r = Some "medium"
  ∧ (∃ m, Store.machine_id r = Some m ∧ m ≠ EmptyString
          ∧ is_Some (Store.machines d !! m))
  ∧ (∃ t, Store.technician_id r = Some t ∧ t ≠ EmptyString
          ∧ is_Some (Store.technicians d !! t))
  ∧ (∃ text, Store.problem_description r = Some text ∧ text ≠ EmptyString)
  ∧ Store.audio_url r = None.

Definition all_well_formed (d : Store.DB) : Prop :=
  ∀ k r, Store.interventions d !! k = Some r → well_formed d k r.

(** The statuses an operation asks for. *)
Definition requested (o : Lifecycle.Op) : list string :=
  match o with
  | Lifecycle.Create _ _ => []
  | Lifecycle.Visit _ _ _ _ ts => Lifecycle.target <$> ts
  end.

End Records.

(** * Properties *)

(** ** Basic facts *)

Lemma falsy_false (s : string) : s ≠ EmptyString → falsy s = false.
Proof. intros H. unfold falsy. by apply bool_decide_eq_false. Qed.

Lemma falsy_true (s : string) : falsy s = true ↔ s = EmptyString.
Proof. unfold falsy. apply bool_decide_eq_true. Qed.

(** A value is truthy exactly when it is a non-empty string. *)
Lemma js_falsy_false (v : JsValue) :
  js_falsy v = false ↔ ∃ s, v = JsString s ∧ s ≠ EmptyString.
Proof.
  destruct v as [| |s]; simpl.
  - split; [discriminate|]. by intros (s & ? & _).
  - split; [discriminate|]. by intros (s & ? & _).
  - unfold falsy. rewrite bool_decide_eq_false. split.
    + intros H. by exists s.
    + intros (s' & [= <-] & H). exact H.
Qed.

Lemma toasts_app (a b : list Effect) : toasts (a ++ b) = toasts a ++ toasts b.
Proof. unfold toasts. apply omap_app. Qed.

Lemma invocations_app (a b : list Effect) :
  invocations (a ++ b) = invocations a ++ invocations b.
Proof. unfold invocations. apply omap_app. Qed.

Lemma store_calls_app (a b : list Effect) :
  store_calls (a ++ b) = store_calls a ++ store_calls b.
Proof. unfold store_calls. apply List.filter_app. Qed.

Lemma fetches_app (a b : list Effect) : fetches (a ++ b) = fetches a ++ fetches b.
Proof. unfold fetches. apply List.filter_app. Qed.

(** ** The store *)

Lemma insert_values_columns (p : NewIntervention.Page) :
  Store.undefined_column (NewIntervention.insert_values p) = None.
Proof.
  destruct p as [? ? ? ? description solution ? ? ? ? ?].
  destruct description, solution; vm_compute; reflexivity.
Qed.

Lemma new_row_insert_values (srv : Store.Server) (p : NewIntervention.Page) :
  Store.new_row srv (NewIntervention.insert_values p) =
  {| Store.id := Store.gen_random_uuid srv;
     Store.technician_id := Some (NewIntervention.selectedTechnician p);
     Store.machine_id := Some (NewIntervention.selectedMachine p);
     Store.problem_description := nullable (NewIntervention.problemDescription p);
     Store.audio_url := None;
     Store.ai_solution := nullable (NewIntervention.aiSolution p);
     Store.status := Some "pending";
     Store.priority := Some "medium";
     Store.created_at := Store.now srv;
     Store.updated_at := Store.now srv;
     Store.resolved_at := None |}.
Proof.
  destruct p as [? ? ? ? description solution ? ? ? ? ?], srv.
  destruct description, solution; vm_compute; reflexivity.
Qed.

Lemma updateData_columns (clock newStatus : string) :
  Store.undefined_column (InterventionDetail.updateData clock newStatus) = None.
Proof.
  unfold InterventionDetail.updateData. case_bool_decide; vm_compute; reflexivity.
Qed.

Lemma patched_updateData (srv : Store.Server) (clock newStatus : string)
    (r : Store.InterventionRow) :
  Store.patched srv (InterventionDetail.updateData clock newStatus) r =
  {| Store.id := Store.id r;
     Store.technician_id := Store.technician_id r;
     Store.machine_id := Store.machine_id r;
     Store.problem_description := Store.problem_description r;
     Store.audio_url := Store.audio_url r;
     Store.ai_solution := Store.ai_solution r;
     Store.status := Some newStatus;
     Store.priority := Store.priority r;
     Store.created_at := Store.created_at r;
     Store.updated_at := Store.now srv;
     Store.resolved_at :=
       if bool_decide (newStatus = "resolved") then Some clock
       else Store.resolved_at r |}.
Proof.
  unfold InterventionDetail.updateData.
  destruct r, srv. case_bool_decide; vm_compute; reflexivity.
Qed.

(** An insert either leaves the table alone and reports an error, or adds
    the new row under an unused key. *)
Lemma insert_cases (srv : Store.Server) (values : JsObject) (d : Store.DB) :
  (∃ e, Store.insert srv values d = (d, Some e))
  ∨ (Store.interventions d !! Store.gen_random_uuid srv = None
     ∧ Store.insert srv values d =
       (Store.with_interventions
          (<[Store.gen_random_uuid srv := Store.new_row srv values]>
             (Store.interventions d)) d, None)).
Proof.
  unfold Store.insert.
  destruct (Store.available srv); simpl; [|by eauto].
  destruct (Store.undefined_column values); [by eauto|].
  destruct (Store.constraints d _); [by eauto|].
  simpl. destruct (Store.interventions d !! _) eqn:E; [by eauto|].
  right. done.
Qed.

(** An update either changes nothing (an error, or no row under the key),
    or replaces the row under the key by its patched version. *)
Lemma update_cases (srv : Store.Server) (values : JsObject) (key : string)
    (d : Store.DB) :
  (∃ e, Store.update srv values key d = (d, Some e))
  ∨ (Store.interventions d !! key = None ∧ Store.update srv values key d = (d, None))
  ∨ (∃ r, Store.interventions d !! key = Some r
          ∧ Store.update srv values key d =
            (Store.with_interventions
               (<[key := Store.patched srv values r]> (Store.interventions d)) d,
             None)).
Proof.
  unfold Store.update.
  destruct (Store.available srv); simpl; [|by eauto].
  destruct (Store.undefined_column values); [by eauto|].
  destruct (Store.interventions d !! key) eqn:E; [|by eauto].
  destruct (Store.constraints d _); [by eauto|].
  right. right. eauto.
Qed.

(** ** What the handlers compute *)

(** [handleSave] as one equation. *)
Lemma handleSave_eq (srv : Store.Server) (σ : Session NewIntervention.Page) :
  let p := page σ in
  let w := world σ in
  exec (NewIntervention.handleSave srv) σ =
  if falsy (NewIntervention.selectedMachine p)
     || falsy (NewIntervention.selectedTechnician p)
     || js_falsy (NewIntervention.problemDescription p)
  then
    {| page := p;
       world := {| db := db w;
                   trace := trace w ++
                     [Toast ToastDestructive "Campos obrigatórios"
                        "Por favor, preencha todos os campos obrigatórios."] |} |}
  else
    let '(d', error) := Store.insert srv (NewIntervention.insert_values p) (db w) in
    {| page := (exec (NewIntervention.setSaving false) σ).(page);
       world :=
         {| db := d';
            trace := (trace w ++
              [StoreInsert "interventions" (NewIntervention.insert_values p)]) ++
              match error with
              | None =>
                [Toast ToastDefault "Intervenção criada"
                   "A intervenção foi registada com sucesso."; Navigate "/"]
              | Some _ =>
                [ConsoleError "Save error:";
                 Toast ToastDestructive "Erro ao guardar"
                   "Não foi possível guardar a intervenção."]
              end |} |}.
Proof.
  intros p w. destruct σ as [pg wd]. subst p w. simpl.
  unfold exec, NewIntervention.handleSave, bind, get_page. simpl.
  destruct (_ || _ || _); [reflexivity|].
  unfold finally, try_catch, store_insert, bind, emit, get_db, set_db. simpl.
  destruct (Store.insert srv _ _) as [d' [e|]]; simpl;
    rewrite <- ?app_assoc; reflexivity.
Qed.

(** [handleSave] on a form that passes the validation. *)
Lemma handleSave_valid (srv : Store.Server) (σ : Session NewIntervention.Page) :
  let p := page σ in
  let w := world σ in
  NewIntervention.selectedMachine p ≠ EmptyString →
  NewIntervention.selectedTechnician p ≠ EmptyString →
  js_falsy (NewIntervention.problemDescription p) = false →
  exec (NewIntervention.handleSave srv) σ =
  let '(d', error) := Store.insert srv (NewIntervention.insert_values p) (db w) in
  {| page := (exec (NewIntervention.setSaving false) σ).(page);
     world :=
       {| db := d';
          trace := (trace w ++
            [StoreInsert "interventions" (NewIntervention.insert_values p)]) ++
            match error with
            | None =>
              [Toast ToastDefault "Intervenção criada"
                 "A intervenção foi registada com sucesso."; Navigate "/"]
            | Some _ =>
              [ConsoleError "Save error:";
               Toast ToastDestructive "Erro ao guardar"
                 "Não foi possível guardar a intervenção."]
            end |} |}.
Proof.
  intros p w Hm Ht Hd. rewrite handleSave_eq. fold p w.
  by rewrite !falsy_false, Hd by done.
Qed.

(** ** Saving the intake form *)

(** C1: when a machine and a technician are selected, the description is
    a non-empty text and the store accepts the insert, [handleSave] adds
    exactly one row to the interventions table, under a key that was
    unused; the row has status pending, priority medium, the form's
    description and AI-solution text (NULL when the form holds no
    solution), the selected machine and technician, and no [resolved_at];
    the insert is the only store call made. *)
Theorem handleSave_creates_one_pending
    (srv : Store.Server) (σ : Session NewIntervention.Page) (description : string) :
  let p := page σ in
  let d := db (world σ) in
  NewIntervention.selectedMachine p ≠ EmptyString →
  NewIntervention.selectedTechnician p ≠ EmptyString →
  NewIntervention.problemDescription p = JsString description →
  description ≠ EmptyString →
  (Store.insert srv (NewIntervention.insert_values p) d).2 = None →
  let σ' := exec (NewIntervention.handleSave srv) σ in
  ∃ r : Store.InterventionRow,
    Store.interventions d !! Store.id r = None
    ∧ Store.interventions (db (world σ')) = <[Store.id r := r]> (Store.interventions d)
    ∧ size (Store.interventions (db (world σ'))) = S (size (Store.interventions d))
    ∧ Store.status r = Some "pending"
    ∧ Store.priority r = Some "medium"
    ∧ Store.problem_description r = Some description
    ∧ Store.ai_solution r = nullable (NewIntervention.aiSolution p)
    ∧ Store.machine_id r = Some (NewIntervention.selectedMachine p)
    ∧ Store.technician_id r = Some (NewIntervention.selectedTechnician p)
    ∧ Store.resolved_at r = None
    ∧ store_calls (trace (world σ')) =
      store_calls (trace (world σ)) ++
      [StoreInsert "interventions" (NewIntervention.insert_values p)].
Proof.
  intros p d Hm Ht Hd Hne Hok σ'.
  pose proof (new_row_insert_values srv p) as Hrow. rewrite Hd in Hrow.
  exists (Store.new_row srv (NewIntervention.insert_values p)).
  assert (Hfilled : js_falsy (NewIntervention.problemDescription p) = false)
    by (rewrite Hd; by apply falsy_false).
  subst σ'. rewrite (handleSave_valid srv σ Hm Ht Hfilled). fold p d.
  destruct (insert_cases srv (NewIntervention.insert_values p) d)
    as [[e He]|[Hfresh He]]; rewrite He in Hok |- *; [done|].
  rewrite Hrow. simpl.
  split_and!; try done.
  - by apply map_size_insert_None.
  - rewrite !store_calls_app. simpl. by rewrite app_nil_r.
Qed.

Lemma handleSave_creates_one_pending_witness :
  let σ := Sample.intake in
  let description := "motor faz ruído anómalo" in
  let p := page σ in
  let d := db (world σ) in
  let σ' := exec (NewIntervention.handleSave Sample.srv1) σ in
  (NewIntervention.selectedMachine p ≠ EmptyString
   ∧ NewIntervention.selectedTechnician p ≠ EmptyString
   ∧ NewIntervention.problemDescription p = JsString description
   ∧ description ≠ EmptyString
   ∧ (Store.insert Sample.srv1 (NewIntervention.insert_values p) d).2 = None)
  ∧ ∃ r : Store.InterventionRow,
    Store.interventions d !! Store.id r = None
    ∧ Store.interventions (db (world σ')) = <[Store.id r := r]> (Store.interventions d)
    ∧ size (Store.interventions (db (world σ'))) = S (size (Store.interventions d))
    ∧ Store.status r = Some "pending"
    ∧ Store.priority r = Some "medium"
    ∧ Store.problem_description r = Some description
    ∧ Store.ai_solution r = nullable (NewIntervention.aiSolution p)
    ∧ Store.machine_id r = Some (NewIntervention.selectedMachine p)
    ∧ Store.technician_id r = Some (NewIntervention.selectedTechnician p)
    ∧ Store.resolved_at r = None
    ∧ store_calls (trace (world σ')) =
      store_calls (trace (world σ)) ++
      [StoreInsert "interventions" (NewIntervention.insert_values p)].
Proof.
  intros σ description p d σ'.
  assert (H1 : NewIntervention.selectedMachine p ≠ EmptyString) by (vm_compute; discriminate).
  assert (H2 : NewIntervention.selectedTechnician p ≠ EmptyString) by (vm_compute; discriminate).
  assert (H3 : NewIntervention.problemDescription p = JsString description) by reflexivity.
  assert (H4 : description ≠ EmptyString) by (vm_compute; discriminate).
  assert (H5 : (Store.insert Sample.srv1 (NewIntervention.insert_values p) d).2 = None)
    by (vm_compute; reflexivity).
  split; [exact (conj H1 (conj H2 (conj H3 (conj H4 H5))))|].
  exact (handleSave_creates_one_pending Sample.srv1 σ description H1 H2 H3 H4 H5).
Defined.

(** The row stored for a form whose generation call was answered without
    a solution has a NULL [ai_solution]. *)
Example save_without_solution :
  let σ := NewIntervention.session Sample.after_empty_answer in
  NewIntervention.aiSolution (page σ) = JsUndefined
  ∧ (Store.ai_solution <$>
       Store.interventions (db (world (exec (NewIntervention.handleSave Sample.srv1) σ)))
         !! "I1") = Some None.
Proof. vm_compute. split; reflexivity. Qed.

(** C5: when the machine, the technician or the description is missing
    (the empty string; for the description also [null] or [undefined]),
    [handleSave] makes no store call, leaves the database and the form as
    they are, and shows the required-fields toast (the validation error). *)
Theorem handleSave_missing_field
    (srv : Store.Server) (σ : Session NewIntervention.Page) :
  let p := page σ in
  NewIntervention.selectedMachine p = EmptyString
  ∨ NewIntervention.selectedTechnician p = EmptyString
  ∨ js_falsy (NewIntervention.problemDescription p) = true →
  let σ' := exec (NewIntervention.handleSave srv) σ in
  store_calls (trace (world σ')) = store_calls (trace (world σ))
  ∧ db (world σ') = db (world σ)
  ∧ page σ' = p
  ∧ trace (world σ') = trace (world σ) ++
      [Toast ToastDestructive "Campos obrigatórios"
         "Por favor, preencha todos os campos obrigatórios."].
Proof.
  intros p H σ'. subst σ'. rewrite handleSave_eq. fold p.
  assert (falsy (NewIntervention.selectedMachine p)
          || falsy (NewIntervention.selectedTechnician p)
          || js_falsy (NewIntervention.problemDescription p) = true) as ->.
  { destruct H as [H|[H|H]]; [apply falsy_true in H..|]; rewrite H;
      rewrite ?orb_true_r; reflexivity. }
  simpl. split_and!; try done.
  rewrite store_calls_app. simpl. by rewrite app_nil_r.
Qed.

Lemma handleSave_missing_field_witness :
  let σ := {| page := Sample.form_without_technician; world := Sample.world0 |} in
  let σ' := exec (NewIntervention.handleSave Sample.srv1) σ in
  (NewIntervention.selectedMachine (page σ) = EmptyString
   ∨ NewIntervention.selectedTechnician (page σ) = EmptyString
   ∨ js_falsy (NewIntervention.problemDescription (page σ)) = true)
  ∧ store_calls (trace (world σ')) = store_calls (trace (world σ))
  ∧ db (world σ') = db (world σ)
  ∧ page σ' = page σ
  ∧ trace (world σ') = trace (world σ) ++
      [Toast ToastDestructive "Campos obrigatórios"
         "Por favor, preencha todos os campos obrigatórios."].
Proof.
  intros σ σ'.
  assert (H : NewIntervention.selectedMachine (page σ) = EmptyString
              ∨ NewIntervention.selectedTechnician (page σ) = EmptyString
              ∨ js_falsy (NewIntervention.problemDescription (page σ)) = true)
    by (right; left; reflexivity).
  split; [exact H|].
  exact (handleSave_missing_field Sample.srv1 σ H).
Defined.

(** ** Status transitions *)

Lemma exec_bind_normal {E P A B} (m : M E P A) (k : A → M E P B)
    (σ : Session P) (a : A) :
  eval m σ = Normal a → exec (bind m k) σ = exec (k a) (exec m σ).
Proof.
  unfold eval, exec, bind. destruct (m σ) as [c σ']. simpl. by intros ->.
Qed.

(** [updateStatus] as one equation. *)
Lemma updateStatus_eq (srv : Store.Server) (clock newStatus : string)
    (σ : Session InterventionDetail.Page) :
  let p := page σ in
  let w := world σ in
  InterventionDetail.updateStatus srv clock newStatus σ =
  (Normal tt,
   match InterventionDetail.intervention p with
   | None => σ
   | Some iv =>
     let values := InterventionDetail.updateData clock newStatus in
     let '(d', error) := Store.update srv values (Store.id iv) (db w) in
     {| page :=
          {| InterventionDetail.intervention :=
               match error with
               | None => Some (InterventionDetail.with_status iv newStatus)
               | Some _ => Some iv
               end;
             InterventionDetail.machine := InterventionDetail.machine p;
             InterventionDetail.technician := InterventionDetail.technician p;
             InterventionDetail.loading := InterventionDetail.loading p;
             InterventionDetail.updating := false |};
        world :=
          {| db := d';
             trace := (trace w ++ [StoreUpdate "interventions" values (Store.id iv)]) ++
               match error with
               | None =>
                 [Toast ToastDefault "Estado atualizado"
                    ("Intervenção marcada como " +:+
                     (if bool_decide (newStatus = "resolved") then "resolvida"
                      else if bool_decide (newStatus = "in_progress")
                           then "em progresso" else newStatus))]
               | Some _ =>
                 [ConsoleError "Error updating status:";
                  Toast ToastDestructive "Erro"
                    "Não foi possível atualizar o estado."]
               end |} |}
   end).
Proof.
  intros p w. destruct σ as [pg wd]. subst p w. simpl.
  unfold InterventionDetail.updateStatus, bind, get_page. simpl.
  destruct (InterventionDetail.intervention pg) as [iv|] eqn:Hiv; [|reflexivity].
  unfold finally, try_catch, store_update, bind, emit, get_db, set_db. simpl.
  rewrite Hiv.
  destruct (Store.update srv _ _ _) as [d' [e|]]; simpl;
    rewrite <- ?app_assoc; reflexivity.
Qed.

(** The store's side of a status change on a persisted record. *)
Lemma updateStatus_row (srv : Store.Server) (clock newStatus : string)
    (σ : Session InterventionDetail.Page) (iv r : Store.InterventionRow) :
  InterventionDetail.intervention (page σ) = Some iv →
  Store.interventions (db (world σ)) !! Store.id iv = Some r →
  let σ' := exec (InterventionDetail.updateStatus srv clock newStatus) σ in
  let error := (Store.update srv (InterventionDetail.updateData clock newStatus)
                             (Store.id iv) (db (world σ))).2 in
  (error = None →
   Store.interventions (db (world σ')) !! Store.id iv =
     Some (Store.patched srv (InterventionDetail.updateData clock newStatus) r)
   ∧ InterventionDetail.intervention (page σ') =
     Some (InterventionDetail.with_status iv newStatus))
  ∧ (error ≠ None →
     db (world σ') = db (world σ)
     ∧ InterventionDetail.intervention (page σ') = Some iv).
Proof.
  intros Hiv Hr σ' error. subst σ' error.
  unfold exec. rewrite updateStatus_eq. simpl. rewrite Hiv.
  destruct (update_cases srv (InterventionDetail.updateData clock newStatus)
              (Store.id iv) (db (world σ)))
    as [[e He]|[[Hnone He]|(r0 & Hr0 & He)]]; rewrite He; simpl.
  - split; [done|]. done.
  - congruence.
  - assert (r0 = r) as -> by congruence.
    split; [|done]. intros _. split; [|done].
    apply lookup_insert_eq.
Qed.



(** The example request of the witness above does succeed. *)
Example updateStatus_sample_succeeds :
  (Store.update Sample.srv2
     (InterventionDetail.updateData "2024-05-01T10:00:00.123Z" "resolved")
     "I1" (db (world Sample.detail1))).2 = None.
Proof. vm_compute. reflexivity. Qed.

(** A request that does not get through leaves the page's copy, the
    database and the [updating] flag as they were and shows the error
    toast. *)
Example updateStatus_offline :
  let σ' := exec (InterventionDetail.updateStatus Sample.offline
                    "2024-05-01T10:00:00.123Z" "resolved") Sample.detail1 in
  page σ' = page Sample.detail1
  ∧ db (world σ') = db (world Sample.detail1)
  ∧ toasts (trace (world σ')) =
    toasts (trace (world Sample.detail1)) ++
    [(ToastDestructive, "Erro", "Não foi possível atualizar o estado.")].
Proof.
  unfold exec. rewrite updateStatus_eq.
  vm_compute. repeat split; reflexivity.
Qed.

(** ** Loading the detail page *)

Lemma select_single_cases {A} (srv : Store.Server) (t : gmap string A)
    (k : string) :
  (∃ e, Store.select_single srv t k = (None, Some e))
  ∨ (∃ r, Store.available srv = true ∧ t !! k = Some r
          ∧ Store.select_single srv t k = (Some r, None)).
Proof.
  unfold Store.select_single.
  destruct (Store.available srv); simpl; [|by eauto].
  destruct (t !! k); by eauto.
Qed.

(** [fetchData] never changes the database and always completes. *)
Lemma fetchData_db (srv srvM srvT : Store.Server) (k : string)
    (σ : Session InterventionDetail.Page) :
  eval (InterventionDetail.fetchData srv srvM srvT k) σ = Normal tt
  ∧ db (world (exec (InterventionDetail.fetchData srv srvM srvT k) σ)) = db (world σ).
Proof.
  destruct σ as [pg wd].
  unfold eval, exec, InterventionDetail.fetchData, finally, try_catch, bind,
    emit, get_db. simpl.
  destruct (select_single_cases srv (Store.interventions (db wd)) k)
    as [[e ->]|(r & _ & _ & ->)]; simpl; [done|].
  destruct (truthy (Store.machine_id r)), (truthy (Store.technician_id r));
    simpl; done.
Qed.

(** When the request gets through and the record exists, the page's copy
    is the stored row. *)
Lemma fetchData_loads (srv srvM srvT : Store.Server) (k : string)
    (σ : Session InterventionDetail.Page) (r : Store.InterventionRow) :
  Store.available srv = true →
  Store.interventions (db (world σ)) !! k = Some r →
  InterventionDetail.intervention
    (page (exec (InterventionDetail.fetchData srv srvM srvT k) σ)) = Some r.
Proof.
  destruct σ as [pg wd]. simpl. intros Hav Hr.
  unfold exec, InterventionDetail.fetchData, finally, try_catch, bind,
    emit, get_db. simpl.
  destruct (select_single_cases srv (Store.interventions (db wd)) k)
    as [[e He]|(r0 & _ & Hr0 & ->)]; simpl.
  - unfold Store.select_single in He. rewrite Hav, Hr in He. discriminate.
  - assert (r0 = r) as -> by congruence.
    destruct (truthy (Store.machine_id r)), (truthy (Store.technician_id r));
    simpl; done.
Qed.

(** C10: after a successful [updateStatus] to resolved, the page's copy of
    the record differs from the copy it held before in the status field
    only: its [resolved_at] (like every other field) is the old in-memory
    value, while the stored row now carries the browser's time in
    [resolved_at]; a later successful [fetchData] brings the stored row
    into the page. *)
Theorem updateStatus_cached_copy
    (srv : Store.Server) (clock : string)
    (σ : Session InterventionDetail.Page) (iv r : Store.InterventionRow) :
  InterventionDetail.intervention (page σ) = Some iv →
  Store.interventions (db (world σ)) !! Store.id iv = Some r →
  (Store.update srv (InterventionDetail.updateData clock "resolved")
                (Store.id iv) (db (world σ))).2 = None →
  let σ' := exec (InterventionDetail.updateStatus srv clock "resolved") σ in
  ∃ iv' r' : Store.InterventionRow,
    InterventionDetail.intervention (page σ') = Some iv'
    ∧ Store.interventions (db (world σ')) !! Store.id iv = Some r'
    ∧ Store.status iv' = Some "resolved"
    ∧ Store.resolved_at iv' = Store.resolved_at iv
    ∧ Store.id iv' = Store.id iv
    ∧ Store.technician_id iv' = Store.technician_id iv
    ∧ Store.machine_id iv' = Store.machine_id iv
    ∧ Store.problem_description iv' = Store.problem_description iv
    ∧ Store.audio_url iv' = Store.audio_url iv
    ∧ Store.ai_solution iv' = Store.ai_solution iv
    ∧ Store.priority iv' = Store.priority iv
    ∧ Store.created_at iv' = Store.created_at iv
    ∧ Store.updated_at iv' = Store.updated_at iv
    ∧ Store.resolved_at r' = Some clock
    ∧ ∀ srv' srvM srvT : Store.Server,
        Store.available srv' = true →
        InterventionDetail.intervention
          (page (exec (InterventionDetail.fetchData srv' srvM srvT (Store.id iv)) σ'))
        = Some r'.
Proof.
  intros Hiv Hr Hok σ'.
  destruct (updateStatus_row srv clock "resolved" σ iv r Hiv Hr) as [[Hrow Hpage] _];
    [exact Hok|].
  fold σ' in Hrow, Hpage.
  exists (InterventionDetail.with_status iv "resolved"),
         (Store.patched srv (InterventionDetail.updateData clock "resolved") r).
  split; [exact Hpage|]. split; [exact Hrow|].
  rewrite patched_updateData. simpl.
  split_and!; try reflexivity.
  intros srv' srvM srvT Hav.
  apply fetchData_loads; [exact Hav|].
  rewrite Hrow. by rewrite patched_updateData.
Qed.

Lemma updateStatus_cached_copy_witness :
  let σ := Sample.detail1 in
  let srv := Sample.srv2 in
  let clock := "2024-05-01T10:00:00.123Z" in
  let iv := Sample.row1 in
  let r := Sample.row1 in
  (InterventionDetail.intervention (page σ) = Some iv
   ∧ Store.interventions (db (world σ)) !! Store.id iv = Some r
   ∧ (Store.update srv (InterventionDetail.updateData clock "resolved")
                   (Store.id iv) (db (world σ))).2 = None)
  ∧
  let σ' := exec (InterventionDetail.updateStatus srv clock "resolved") σ in
  ∃ iv' r' : Store.InterventionRow,
    InterventionDetail.intervention (page σ') = Some iv'
    ∧ Store.interventions (db (world σ')) !! Store.id iv = Some r'
    ∧ Store.status iv' = Some "resolved"
    ∧ Store.resolved_at iv' = Store.resolved_at iv
    ∧ Store.id iv' = Store.id iv
    ∧ Store.technician_id iv' = Store.technician_id iv
    ∧ Store.machine_id iv' = Store.machine_id iv
    ∧ Store.problem_description iv' = Store.problem_description iv
    ∧ Store.audio_url iv' = Store.audio_url iv
    ∧ Store.ai_solution iv' = Store.ai_solution iv
    ∧ Store.priority iv' = Store.priority iv
    ∧ Store.created_at iv' = Store.created_at iv
    ∧ Store.updated_at iv' = Store.updated_at iv
    ∧ Store.resolved_at r' = Some clock
    ∧ ∀ srv' srvM srvT : Store.Server,
        Store.available srv' = true →
        InterventionDetail.intervention
          (page (exec (InterventionDetail.fetchData srv' srvM srvT (Store.id iv)) σ'))
        = Some r'.
Proof.
  intros σ srv clock iv r.
  assert (H1 : InterventionDetail.intervention (page σ) = Some iv)
    by (vm_compute; reflexivity).
  assert (H2 : Store.interventions (db (world σ)) !! Store.id iv = Some r)
    by (vm_compute; reflexivity).
  assert (H3 : (Store.update srv (InterventionDetail.updateData clock "resolved")
                   (Store.id iv) (db (world σ))).2 = None)
    by (vm_compute; reflexivity).
  split; [exact (conj H1 (conj H2 H3))|].
  exact (updateStatus_cached_copy srv clock σ iv r H1 H2 H3).
Defined.

(** In the worked example the page still shows no resolution time after
    the record has been resolved, although the store has one. *)
Example cached_copy_is_stale :
  (Store.resolved_at <$> InterventionDetail.intervention (page Sample.detail2))
    = Some None
  ∧ (Store.resolved_at <$> Store.interventions (db (world Sample.detail2)) !! "I1")
    = Some (Some "2024-05-01T10:00:00.123Z").
Proof. vm_compute. split; reflexivity. Qed.

(** ** Terminal statuses *)

(** C4, as stated, fails: on the detail page of a resolved record the
    status select offers all four statuses, and choosing "Pendente" makes
    the stored status pending again. *)
Lemma resolved_record_reopened :
  (Store.status <$> Store.interventions (db (world Sample.detail2)) !! "I1")
    = Some (Some "resolved")
  ∧ (Store.status <$> InterventionDetail.intervention (page Sample.detail2))
    = Some (Some "resolved")
  ∧ InterventionDetail.offered_transitions (page Sample.detail2)
    = ["pending"; "in_progress"; "resolved"; "cancelled"]
  ∧ (Store.status <$> Store.interventions (db (world Sample.detail3)) !! "I1")
    = Some (Some "pending").
Proof. vm_compute. repeat split; reflexivity. Qed.

(** C4, amended: for a record whose status is resolved or cancelled the
    quick-action buttons offer no transition; the status select still
    offers all four statuses, and a successful [updateStatus] call stores
    and shows whichever status was requested. *)
Theorem terminal_status_controls
    (σ : Session InterventionDetail.Page) (iv : Store.InterventionRow) :
  InterventionDetail.intervention (page σ) = Some iv →
  Store.status iv = Some "resolved" ∨ Store.status iv = Some "cancelled" →
  InterventionDetail.loading (page σ) = false →
  InterventionDetail.updating (page σ) = false →
  InterventionDetail.quick_transitions (page σ) = []
  ∧ InterventionDetail.offered_transitions (page σ)
    = ["pending"; "in_progress"; "resolved"; "cancelled"]
  ∧ ∀ (srv : Store.Server) (clock newStatus : string) (r : Store.InterventionRow),
      Store.interventions (db (world σ)) !! Store.id iv = Some r →
      (Store.update srv (InterventionDetail.updateData clock newStatus)
                    (Store.id iv) (db (world σ))).2 = None →
      let σ' := exec (InterventionDetail.updateStatus srv clock newStatus) σ in
      (Store.status <$> Store.interventions (db (world σ')) !! Store.id iv)
        = Some (Some newStatus)
      ∧ (Store.status <$> InterventionDetail.intervention (page σ'))
        = Some (Some newStatus).
Proof.
  intros Hiv Hst Hload Hupd.
  assert (Hq : InterventionDetail.quick_actions (page σ) = []).
  { unfold InterventionDetail.quick_actions. rewrite Hiv.
    destruct Hst as [-> | ->]; reflexivity. }
  split_and!.
  - unfold InterventionDetail.quick_transitions. rewrite Hq.
    by destruct (InterventionDetail.loading _).
  - unfold InterventionDetail.offered_transitions, InterventionDetail.controls.
    rewrite Hload, Hq. unfold InterventionDetail.status_select.
    rewrite Hiv, Hupd. reflexivity.
  - intros srv clock newStatus r Hr Hok σ'.
    destruct (updateStatus_row srv clock newStatus σ iv r Hiv Hr) as [[Hrow Hpage] _];
      [exact Hok|].
    fold σ' in Hrow, Hpage. rewrite Hrow, Hpage, patched_updateData.
    split; reflexivity.
Qed.

Lemma terminal_status_controls_witness :
  let σ := Sample.detail2 in
  let iv := InterventionDetail.with_status Sample.row1 "resolved" in
  (InterventionDetail.intervention (page σ) = Some iv
   ∧ (Store.status iv = Some "resolved" ∨ Store.status iv = Some "cancelled")
   ∧ InterventionDetail.loading (page σ) = false
   ∧ InterventionDetail.updating (page σ) = false)
  ∧ InterventionDetail.quick_transitions (page σ) = []
  ∧ InterventionDetail.offered_transitions (page σ)
    = ["pending"; "in_progress"; "resolved"; "cancelled"]
  ∧ ∀ (srv : Store.Server) (clock newStatus : string) (r : Store.InterventionRow),
      Store.interventions (db (world σ)) !! Store.id iv = Some r →
      (Store.update srv (InterventionDetail.updateData clock newStatus)
                    (Store.id iv) (db (world σ))).2 = None →
      let σ' := exec (InterventionDetail.updateStatus srv clock newStatus) σ in
      (Store.status <$> Store.interventions (db (world σ')) !! Store.id iv)
        = Some (Some newStatus)
      ∧ (Store.status <$> InterventionDetail.intervention (page σ'))
        = Some (Some newStatus).
Proof.
  intros σ iv.
  assert (H1 : InterventionDetail.intervention (page σ) = Some iv)
    by (vm_compute; reflexivity).
  assert (H2 : Store.status iv = Some "resolved" ∨ Store.status iv = Some "cancelled")
    by (left; reflexivity).
  assert (H3 : InterventionDetail.loading (page σ) = false)
    by (vm_compute; reflexivity).
  assert (H4 : InterventionDetail.updating (page σ) = false)
    by (vm_compute; reflexivity).
  split; [exact (conj H1 (conj H2 (conj H3 H4)))|].
  exact (terminal_status_controls σ iv H1 H2 H3 H4).
Defined.

(** ** The resolved_at invariant *)

(** C3, as stated, fails: a record saved from the intake form, resolved
    and then set back to pending through the status select (both targets
    are offered by the page) keeps its [resolved_at] although its status is
    no longer resolved. *)
Lemma reopened_record_keeps_resolved_at :
  let w := Lifecycle.run Sample.reopen Sample.world0 in
  (Store.status <$> Store.interventions (db w) !! "I1") = Some (Some "pending")
  ∧ (Store.resolved_at <$> Store.interventions (db w) !! "I1")
    = Some (Some "2024-05-01T10:00:00.123Z")
  ∧ w = world Sample.detail3
  ∧ InterventionDetail.offered_transitions (page Sample.detail1)
    = ["in_progress"; "cancelled"; "pending"; "in_progress"; "resolved"; "cancelled"]
  ∧ InterventionDetail.offered_transitions (page Sample.detail2)
    = ["pending"; "in_progress"; "resolved"; "cancelled"].
Proof. vm_compute. repeat split; reflexivity. Qed.

Lemma fresh_timestamped (technicians : gmap string Store.TechnicianRow)
    (machines : gmap string Store.MachineRow) :
  Lifecycle.resolved_rows_timestamped (db (Lifecycle.fresh technicians machines)).
Proof. intros k r Hr. simpl in Hr. by rewrite lookup_empty in Hr. Qed.

Lemma handleSave_timestamped (srv : Store.Server) (σ : Session NewIntervention.Page) :
  Lifecycle.resolved_rows_timestamped (db (world σ)) →
  Lifecycle.resolved_rows_timestamped
    (db (world (exec (NewIntervention.handleSave srv) σ))).
Proof.
  intros Hinv. rewrite handleSave_eq.
  destruct (_ || _ || _); [exact Hinv|].
  destruct (insert_cases srv (NewIntervention.insert_values (page σ)) (db (world σ)))
    as [[e ->]|[_ ->]]; [exact Hinv|].
  intros k r Hr Hst. simpl in Hr.
  destruct (decide (k = Store.gen_random_uuid srv)) as [->|Hne].
  - rewrite lookup_insert_eq in Hr. injection Hr as <-.
    rewrite new_row_insert_values in Hst. simpl in Hst. discriminate.
  - rewrite lookup_insert_ne in Hr by done. by apply (Hinv k).
Qed.

Lemma updateStatus_timestamped (srv : Store.Server) (clock newStatus : string)
    (σ : Session InterventionDetail.Page) :
  Lifecycle.resolved_rows_timestamped (db (world σ)) →
  Lifecycle.resolved_rows_timestamped
    (db (world (exec (InterventionDetail.updateStatus srv clock newStatus) σ))).
Proof.
  intros Hinv. unfold exec. rewrite updateStatus_eq. simpl.
  destruct (InterventionDetail.intervention (page σ)) as [iv|]; [|exact Hinv].
  destruct (update_cases srv (InterventionDetail.updateData clock newStatus)
              (Store.id iv) (db (world σ)))
    as [[e ->]|[[_ ->]|(r0 & Hr0 & ->)]]; [exact Hinv|exact Hinv|].
  intros k r Hr Hst. simpl in Hr.
  destruct (decide (k = Store.id iv)) as [->|Hne].
  - rewrite lookup_insert_eq in Hr. injection Hr as <-.
    rewrite patched_updateData in Hst |- *. simpl in *.
    injection Hst as ->. by eexists.
  - rewrite lookup_insert_ne in Hr by done. by apply (Hinv k).
Qed.

Lemma updateStatus_normal (srv : Store.Server) (clock newStatus : string)
    (σ : Session InterventionDetail.Page) :
  eval (InterventionDetail.updateStatus srv clock newStatus) σ = Normal tt.
Proof. unfold eval. by rewrite updateStatus_eq. Qed.

Lemma transitions_timestamped (ts : list Lifecycle.Transition) :
  ∀ σ : Session InterventionDetail.Page,
    Lifecycle.resolved_rows_timestamped (db (world σ)) →
    Lifecycle.resolved_rows_timestamped
      (db (world (exec (Lifecycle.transitions ts) σ))).
Proof.
  induction ts as [|t ts IH]; intros σ Hinv; [exact Hinv|].
  simpl. rewrite (exec_bind_normal _ _ _ tt) by apply updateStatus_normal.
  apply IH. by apply updateStatus_timestamped.
Qed.

Lemma step_timestamped (w : World) (o : Lifecycle.Op) :
  Lifecycle.resolved_rows_timestamped (db w) →
  Lifecycle.resolved_rows_timestamped (db (Lifecycle.step w o)).
Proof.
  intros Hinv. destruct o as [form srv|k srv srvM srvT ts]; simpl.
  - by apply (handleSave_timestamped srv {| page := form; world := w |}).
  - destruct (fetchData_db srv srvM srvT k
                {| page := InterventionDetail.initial; world := w |}) as [Hn Hdb].
    rewrite (exec_bind_normal _ _ _ tt) by exact Hn.
    apply transitions_timestamped. by rewrite Hdb.
Qed.

(** C3, amended: in every database reached from one without interventions
    by saving intake forms and by status changes made on detail pages,
    a record whose status is resolved has a non-null [resolved_at]. *)
Theorem resolved_implies_resolved_at
    (technicians : gmap string Store.TechnicianRow)
    (machines : gmap string Store.MachineRow)
    (ops : list Lifecycle.Op) (k : string) (r : Store.InterventionRow) :
  Store.interventions
    (db (Lifecycle.run ops (Lifecycle.fresh technicians machines))) !! k = Some r →
  Store.status r = Some "resolved" →
  is_Some (Store.resolved_at r).
Proof.
  assert (Hrun : ∀ ops w, Lifecycle.resolved_rows_timestamped (db w) →
                 Lifecycle.resolved_rows_timestamped (db (Lifecycle.run ops w))).
  { clear. induction ops as [|o ops IH]; intros w Hinv; [exact Hinv|].
    simpl. apply IH. by apply step_timestamped. }
  intros Hr Hst.
  exact (Hrun ops _ (fresh_timestamped technicians machines) k r Hr Hst).
Qed.

Lemma resolved_implies_resolved_at_witness :
  let r := Store.patched Sample.srv2
             (InterventionDetail.updateData "2024-05-01T10:00:00.123Z" "resolved")
             Sample.row1 in
  (Store.interventions
     (db (Lifecycle.run Sample.resolve_only
            (Lifecycle.fresh Sample.technicians Sample.machines))) !! "I1" = Some r
   ∧ Store.status r = Some "resolved")
  ∧ is_Some (Store.resolved_at r).
Proof.
  intros r.
  assert (H1 : Store.interventions
     (db (Lifecycle.run Sample.resolve_only
            (Lifecycle.fresh Sample.technicians Sample.machines))) !! "I1" = Some r)
    by (vm_compute; reflexivity).
  assert (H2 : Store.status r = Some "resolved") by (vm_compute; reflexivity).
  split; [exact (conj H1 H2)|].
  exact (resolved_implies_resolved_at Sample.technicians Sample.machines
           Sample.resolve_only "I1" r H1 H2).
Defined.

(** ** The voice pipeline *)

(** A failed [processAudio] run, whatever the stage: the state the page is
    left in and what was added to the trace. *)
Lemma processAudio_reader_failure (render : NewIntervention.Closure)
    (transcribe generate : InvokeResult) (σ : Session NewIntervention.Page) :
  let σ' := exec (NewIntervention.processAudio render None transcribe generate) σ in
  page σ' = page (exec (NewIntervention.setProcessingStep NewIntervention.idle) σ)
  ∧ db (world σ') = db (world σ)
  ∧ trace (world σ') = trace (world σ) ++
      [ConsoleError "Processing error:";
       Toast ToastDestructive "Erro no processamento"
         "Ocorreu um erro ao processar o áudio. Tente novamente."].
Proof.
  destruct σ as [pg wd]. simpl.
  unfold exec, NewIntervention.processAudio, try_catch, bind, throw, emit,
    NewIntervention.setProcessingStep, set_page. simpl.
  rewrite <- app_assoc. done.
Qed.

Lemma processAudio_transcribe_failure (render : NewIntervention.Closure)
    (url : string) (transcribe generate : InvokeResult)
    (σ : Session NewIntervention.Page) :
  throws transcribe = true →
  let σ' := exec (NewIntervention.processAudio render (Some url) transcribe generate) σ in
  page σ' = page (exec (NewIntervention.setProcessingStep NewIntervention.idle) σ)
  ∧ db (world σ') = db (world σ)
  ∧ trace (world σ') = trace (world σ) ++
      [FunctionsInvoke "transcribe-audio"
         (object [("audio", element (split_on ","%char url) 1)]);
       ConsoleError "Processing error:";
       Toast ToastDestructive "Erro no processamento"
         "Ocorreu um erro ao processar o áudio. Tente novamente."].
Proof.
  destruct σ as [pg wd]. simpl. intros Hfail.
  unfold exec, NewIntervention.processAudio, try_catch, bind, throw, ret, emit,
    NewIntervention.setProcessingStep, set_page. simpl.
  destruct transcribe as [text| |e]; [discriminate| |]; simpl;
    rewrite <- !app_assoc; done.
Qed.

Lemma processAudio_generate_failure (render : NewIntervention.Closure)
    (url : string) (text : JsValue) (generate : InvokeResult)
    (σ : Session NewIntervention.Page) :
  throws generate = true →
  let σ' := exec (NewIntervention.processAudio render (Some url) (Data text) generate) σ in
  page σ' =
    page (exec (NewIntervention.setProblemDescription text ;;
                NewIntervention.setProcessingStep NewIntervention.idle) σ)
  ∧ db (world σ') = db (world σ)
  ∧ trace (world σ') = trace (world σ) ++
      [FunctionsInvoke "transcribe-audio"
         (object [("audio", element (split_on ","%char url) 1)]);
       FunctionsInvoke "generate-solution" (NewInterventionView.generate_body render text);
       ConsoleError "Processing error:";
       Toast ToastDestructive "Erro no processamento"
         "Ocorreu um erro ao processar o áudio. Tente novamente."].
Proof.
  destruct σ as [pg wd]. simpl. intros Hfail.
  unfold exec, NewIntervention.processAudio, try_catch, bind, throw, ret, emit,
    get_page, NewIntervention.setProcessingStep,
    NewIntervention.setProblemDescription, set_page. simpl.
  destruct generate as [solution| |e]; [discriminate| |]; simpl;
    rewrite <- !app_assoc; done.
Qed.

Lemma processAudio_success (render : NewIntervention.Closure)
    (url : string) (text solution : JsValue) (σ : Session NewIntervention.Page) :
  let σ' := exec (NewIntervention.processAudio render (Some url) (Data text)
                    (Data solution)) σ in
  page σ' =
    page (exec (NewIntervention.setProblemDescription text ;;
                NewIntervention.setAiSolution solution ;;
                NewIntervention.setProcessingStep NewIntervention.complete) σ)
  ∧ db (world σ') = db (world σ)
  ∧ trace (world σ') = trace (world σ) ++
      [FunctionsInvoke "transcribe-audio"
         (object [("audio", element (split_on ","%char url) 1)]);
       FunctionsInvoke "generate-solution" (NewInterventionView.generate_body render text);
       Toast ToastDefault "Processamento concluído"
         "Áudio transcrito e solução gerada com sucesso!"].
Proof.
  destruct σ as [pg wd]. simpl.
  unfold exec, NewIntervention.processAudio, try_catch, bind, throw, ret, emit,
    get_page, NewIntervention.setProcessingStep, NewIntervention.setAiSolution,
    NewIntervention.setProblemDescription, set_page. simpl.
  rewrite <- !app_assoc. done.
Qed.

(** A device-access failure leaves the page as it was. *)
Lemma startRecording_failure (e : Thrown) (σ : Session NewIntervention.Page) :
  let σ' := exec (NewIntervention.startRecording (Abrupt e)) σ in
  page σ' = page σ
  ∧ db (world σ') = db (world σ)
  ∧ trace (world σ') = trace (world σ) ++
      [GetUserMedia;
       ConsoleError "Error accessing microphone:";
       Toast ToastDestructive "Erro no microfone"
         "Não foi possível aceder ao microfone. Verifique as permissões."].
Proof.
  destruct σ as [pg wd].
  unfold exec, NewIntervention.startRecording, try_catch, bind, await, emit, get_page.
  simpl. rewrite <- !app_assoc. done.
Qed.

(** The same holds of [processAudio] resumed task by task: a continuation
    that fails leaves nothing pending, the pipeline idle and the two
    fields as they were when it was resumed. *)
Lemma processAudio_continuation_failure (render : NewIntervention.Closure)
    (σ : Session NewIntervention.Page) :
  let failed (m : M Thrown NewIntervention.Page (option NewIntervention.Task)) :=
    eval m σ = Normal None
    ∧ page (exec m σ)
      = page (exec (NewIntervention.setProcessingStep NewIntervention.idle) σ)
    ∧ toasts (trace (world (exec m σ))) = toasts (trace (world σ)) ++
        [(ToastDestructive, "Erro no processamento",
          "Ocorreu um erro ao processar o áudio. Tente novamente.")] in
  failed (NewIntervention.processAudio_read render None)
  ∧ (∀ transcribe, throws transcribe = true →
       failed (NewIntervention.processAudio_transcribed render transcribe))
  ∧ (∀ generate, throws generate = true →
       failed (NewIntervention.processAudio_generated generate)).
Proof.
  destruct σ as [pg wd]. simpl.
  unfold eval, exec, NewIntervention.processAudio_read,
    NewIntervention.processAudio_transcribed, NewIntervention.processAudio_generated,
    NewIntervention.processAudio_catch, try_catch, bind, throw, ret, emit,
    NewIntervention.setProcessingStep, set_page.
  split; [|split].
  - simpl. rewrite !toasts_app. simpl. by rewrite app_nil_r.
  - intros [text| |e] Hfail; [discriminate| |]; simpl;
      rewrite !toasts_app; simpl; by rewrite app_nil_r.
  - intros [solution| |e] Hfail; [discriminate| |]; simpl;
      rewrite !toasts_app; simpl; by rewrite app_nil_r.
Qed.



(** ** Failure messages *)

(** C7, as stated, fails: a failed transcription call, a failed
    generation call and a generation call answered with HTTP 429 all show
    the same toast. *)
Lemma processing_failures_share_one_toast :
  let shown (transcribe generate : InvokeResult) :=
    toasts (trace (world (exec (NewIntervention.processAudio
                                  (NewIntervention.closure Sample.form)
                                  (Some Sample.dataUrl)
                                  transcribe generate) Sample.blank))) in
  let transcription_failed :=
    shown (Failed (FunctionsHttpError 500)) (Data (JsString "1. Diagnóstico")) in
  let generation_failed :=
    shown (Data (JsString "fuga de óleo na bomba")) (Failed (FunctionsHttpError 500)) in
  let rate_limited :=
    shown (Data (JsString "fuga de óleo na bomba")) (Failed (FunctionsHttpError 429)) in
  transcription_failed =
    [(ToastDestructive, "Erro no processamento",
      "Ocorreu um erro ao processar o áudio. Tente novamente.")]
  ∧ generation_failed = transcription_failed
  ∧ rate_limited = generation_failed.
Proof. vm_compute. repeat split; reflexivity. Qed.

(** C7, amended: a device-access failure shows the microphone toast and
    leaves the page as it was; every failure of [processAudio], at either
    stage and whatever the error (HTTP 429 included), shows one and the
    same processing-error toast, which differs from the microphone toast. *)
Theorem failure_toasts (σ : Session NewIntervention.Page) :
  let microphone :=
    (ToastDestructive, "Erro no microfone",
     "Não foi possível aceder ao microfone. Verifique as permissões.") in
  let processing :=
    (ToastDestructive, "Erro no processamento",
     "Ocorreu um erro ao processar o áudio. Tente novamente.") in
  let shown (m : M Thrown NewIntervention.Page unit) :=
    toasts (trace (world (exec m σ))) in
  (∀ e : Thrown,
     shown (NewIntervention.startRecording (Abrupt e))
       = toasts (trace (world σ)) ++ [microphone]
     ∧ page (exec (NewIntervention.startRecording (Abrupt e)) σ) = page σ)
  ∧ (∀ (render : NewIntervention.Closure) (transcribe generate : InvokeResult),
     shown (NewIntervention.processAudio render None transcribe generate)
       = toasts (trace (world σ)) ++ [processing])
  ∧ (∀ (render : NewIntervention.Closure) (url : string)
       (transcribe generate : InvokeResult),
     throws transcribe = true →
     shown (NewIntervention.processAudio render (Some url) transcribe generate)
       = toasts (trace (world σ)) ++ [processing])
  ∧ (∀ (render : NewIntervention.Closure) (url : string) (text : JsValue)
       (generate : InvokeResult),
     throws generate = true →
     shown (NewIntervention.processAudio render (Some url) (Data text) generate)
       = toasts (trace (world σ)) ++ [processing])
  ∧ (∀ (render : NewIntervention.Closure) (url : string) (text : JsValue)
       (e : FunctionsError),
     shown (NewIntervention.processAudio render (Some url) (Data text) (Failed e))
       = toasts (trace (world σ)) ++ [processing])
  ∧ microphone ≠ processing.
Proof.
  intros microphone processing shown. subst shown. split_and!.
  - intros e. destruct (startRecording_failure e σ) as (-> & _ & ->).
    by rewrite toasts_app.
  - intros render transcribe generate.
    destruct (processAudio_reader_failure render transcribe generate σ)
      as (_ & _ & ->).
    by rewrite toasts_app.
  - intros render url transcribe generate Hfail.
    destruct (processAudio_transcribe_failure render url transcribe generate σ Hfail)
      as (_ & _ & ->).
    by rewrite toasts_app.
  - intros render url text generate Hfail.
    destruct (processAudio_generate_failure render url text generate σ Hfail)
      as (_ & _ & ->).
    by rewrite toasts_app.
  - intros render url text e.
    destruct (processAudio_generate_failure render url text (Failed e) σ eq_refl)
      as (_ & _ & ->).
    by rewrite toasts_app.
  - discriminate.
Qed.

(** ** The microphone control *)

(** While the pipeline is transcribing or generating the microphone
    button is disabled and a click dispatched in such a state does
    nothing and leaves nothing pending; and within one [processAudio] run
    the transcription function is invoked before the generation function,
    which is invoked only after a transcription has been received.  This
    covers clicks dispatched in those states only; see
    [recording_starts_during_transcription]. *)
Theorem mic_disabled_while_processing (σ : Session NewIntervention.Page) :
  NewIntervention.processingStep (page σ) = NewIntervention.transcribing
  ∨ NewIntervention.processingStep (page σ) = NewIntervention.generating →
  NewIntervention.mic_disabled (page σ) = true
  ∧ NewIntervention.click σ = (Normal None, σ)
  ∧ (∀ (render : NewIntervention.Closure) (reader : option string)
       (transcribe generate : InvokeResult),
       invocations (trace (world
         (exec (NewIntervention.processAudio render reader transcribe generate) σ)))
       = invocations (trace (world σ)) ++
         match reader with
         | None => []
         | Some _ =>
           if throws transcribe then ["transcribe-audio"]
           else ["transcribe-audio"; "generate-solution"]
         end).
Proof.
  intros Hstep.
  assert (Hdis : NewIntervention.mic_disabled (page σ) = true).
  { unfold NewIntervention.mic_disabled. destruct Hstep as [-> | ->]; reflexivity. }
  split_and!.
  - exact Hdis.
  - unfold NewIntervention.click, bind, get_page. by rewrite Hdis.
  - intros render [url|] transcribe generate.
    + destruct (throws transcribe) eqn:Ht.
      * destruct (processAudio_transcribe_failure render url transcribe generate σ Ht)
          as (_ & _ & ->).
        by rewrite invocations_app.
      * destruct transcribe as [text| |e]; try discriminate.
        destruct (throws generate) eqn:Hg.
        -- destruct (processAudio_generate_failure render url text generate σ Hg)
             as (_ & _ & ->).
           by rewrite invocations_app.
        -- destruct generate as [solution| |e]; try discriminate.
           destruct (processAudio_success render url text solution σ)
             as (_ & _ & ->).
           by rewrite invocations_app.
    + destruct (processAudio_reader_failure render transcribe generate σ)
        as (_ & _ & ->).
      rewrite invocations_app. simpl. by rewrite app_nil_r.
Qed.

Lemma mic_disabled_while_processing_witness :
  let σ := Sample.busy in
  (NewIntervention.processingStep (page σ) = NewIntervention.transcribing
   ∨ NewIntervention.processingStep (page σ) = NewIntervention.generating)
  ∧ NewIntervention.mic_disabled (page σ) = true
  ∧ NewIntervention.click σ = (Normal None, σ)
  ∧ (∀ (render : NewIntervention.Closure) (reader : option string)
       (transcribe generate : InvokeResult),
       invocations (trace (world
         (exec (NewIntervention.processAudio render reader transcribe generate) σ)))
       = invocations (trace (world σ)) ++
         match reader with
         | None => []
         | Some _ =>
           if throws transcribe then ["transcribe-audio"]
           else ["transcribe-audio"; "generate-solution"]
         end).
Proof.
  intros σ.
  assert (H : NewIntervention.processingStep (page σ) = NewIntervention.transcribing
              ∨ NewIntervention.processingStep (page σ) = NewIntervention.generating)
    by (left; vm_compute; reflexivity).
  split; [exact H|].
  exact (mic_disabled_while_processing σ H).
Defined.

(** ** The generate-solution function *)

Local Ltac serve_answers :=
  eexists; split; [reflexivity|];
  split; [rewrite !fetches_app, !length_app; simpl; lia
         |simpl; repeat split; reflexivity].

(** The handler once the request has passed validation and a key is
    configured: one [fetch], then a response that depends on the gateway's
    answer only. *)
Lemma serve_reaches_gateway (key : JsValue)
    (gateway : Completion JsThrown GenerateSolution.GatewayResponse)
    (req : GenerateSolution.Request) (payload : JsObject) (σ : Session unit) :
  GenerateSolution.method req ≠ "OPTIONS" →
  GenerateSolution.json req = Normal payload →
  js_falsy (property payload "problemDescription") = false →
  js_falsy key = false →
  ∃ resp : GenerateSolution.Response,
    eval (GenerateSolution.serve key gateway req) σ = Normal resp
    ∧ length (fetches (trace (world (exec (GenerateSolution.serve key gateway req) σ))))
      = S (length (fetches (trace (world σ))))
    ∧ match gateway with
      | Abrupt e => GenerateSolution.status resp = 500
      | Normal r =>
        if GenerateSolution.ok r then
          match GenerateSolution.gw_content r with
          | Normal _ => GenerateSolution.status resp = 200
          | Abrupt _ => GenerateSolution.status resp = 500
          end
        else
          match GenerateSolution.gw_text r with
          | Abrupt _ => GenerateSolution.status resp = 500
          | Normal _ =>
            if bool_decide (GenerateSolution.gw_status r = 429) then
              GenerateSolution.status resp = 429
              ∧ GenerateSolution.body resp =
                Some (object [("error", JsString "Rate limit exceeded. Please try again later.")])
            else if bool_decide (GenerateSolution.gw_status r = 402) then
              GenerateSolution.status resp = 402
              ∧ GenerateSolution.body resp =
                Some (object [("error", JsString "Payment required. Please add credits to your workspace.")])
            else GenerateSolution.status resp = 500
          end
      end.
Proof.
  intros Hmethod Hjson Hpd Hkey. destruct σ as [pg wd].
  unfold eval, exec, GenerateSolution.serve.
  rewrite bool_decide_eq_false_2 by exact Hmethod.
  rewrite Hjson.
  unfold try_catch, bind, await, emit, ret, throw. simpl.
  rewrite Hpd, Hkey. simpl.
  destruct gateway as [r|e]; simpl.
  - destruct (GenerateSolution.ok r); simpl.
    + destruct (GenerateSolution.gw_content r) as [s|e]; simpl; serve_answers.
    + destruct (GenerateSolution.gw_text r) as [txt|e]; simpl;
        [repeat case_bool_decide; simpl|]; serve_answers.
  - serve_answers.
Qed.

(** Without a configured key the handler answers 500 and calls nobody. *)
Lemma serve_without_key (key : JsValue)
    (gateway : Completion JsThrown GenerateSolution.GatewayResponse)
    (req : GenerateSolution.Request) (payload : JsObject) (σ : Session unit) :
  GenerateSolution.method req ≠ "OPTIONS" →
  GenerateSolution.json req = Normal payload →
  js_falsy (property payload "problemDescription") = false →
  js_falsy key = true →
  ∃ resp : GenerateSolution.Response,
    eval (GenerateSolution.serve key gateway req) σ = Normal resp
    ∧ fetches (trace (world (exec (GenerateSolution.serve key gateway req) σ)))
      = fetches (trace (world σ))
    ∧ GenerateSolution.status resp = 500
    ∧ GenerateSolution.body resp =
      Some (object [("error", JsString "LOVABLE_API_KEY is not configured")]).
Proof.
  intros Hmethod Hjson Hpd Hkey. destruct σ as [pg wd].
  unfold eval, exec, GenerateSolution.serve.
  rewrite bool_decide_eq_false_2 by exact Hmethod.
  rewrite Hjson.
  unfold try_catch, bind, await, emit, ret, throw. simpl.
  rewrite Hpd, Hkey. simpl.
  eexists. split; [reflexivity|].
  rewrite !fetches_app. simpl. rewrite !app_nil_r. done.
Qed.

(** C8, as stated, fails: the handler reads the gateway's error body
    before it looks at the status, so an upstream 429 whose body cannot
    be read (the connection breaks) is answered 500 with the read error's
    message, not 429. *)
Lemma rate_limit_with_unreadable_body :
  let answer :=
    eval (GenerateSolution.serve (JsString "sk-test") (Normal Sample.cut_off)
            Sample.request) Sample.edge in
  GenerateSolution.gw_status Sample.cut_off = 429
  ∧ (GenerateSolution.status <$>
       match answer with Normal resp => Some resp | Abrupt _ => None end) = Some 500
  ∧ (match answer with
     | Normal resp => GenerateSolution.body resp ≫= (.!! "error")
     | Abrupt _ => None
     end) = Some (Some "error reading a body from connection").
Proof. vm_compute. repeat split; reflexivity. Qed.

(** C8, amended: for a well-formed request the handler always answers,
    and calls the gateway at most once (no retry).  With no key configured
    it answers 500 without calling the gateway.  With a key: a gateway
    answer of 429 whose error body can be read gives status 429 with the
    rate-limit error, one of 402 whose error body can be read gives status
    402 with the payment-required error, and every other failure (a
    rejected fetch, any other status outside 2xx, an unreadable error
    body whatever the status, an unreadable success body) gives status
    500. *)
Theorem serve_error_statuses (key : JsValue)
    (gateway : Completion JsThrown GenerateSolution.GatewayResponse)
    (req : GenerateSolution.Request) (payload : JsObject) (σ : Session unit) :
  GenerateSolution.method req ≠ "OPTIONS" →
  GenerateSolution.json req = Normal payload →
  js_falsy (property payload "problemDescription") = false →
  ∃ resp : GenerateSolution.Response,
    eval (GenerateSolution.serve key gateway req) σ = Normal resp
    ∧ (length (fetches (trace (world (exec (GenerateSolution.serve key gateway req) σ))))
       ≤ S (length (fetches (trace (world σ)))))%nat
    ∧ (js_falsy key = true →
       GenerateSolution.status resp = 500
       ∧ fetches (trace (world (exec (GenerateSolution.serve key gateway req) σ)))
         = fetches (trace (world σ)))
    ∧ (js_falsy key = false →
       (∀ r txt, gateway = Normal r → GenerateSolution.gw_text r = Normal txt →
          GenerateSolution.gw_status r = 429 →
          GenerateSolution.status resp = 429
          ∧ GenerateSolution.body resp =
            Some (object [("error", JsString "Rate limit exceeded. Please try again later.")]))
       ∧ (∀ r txt, gateway = Normal r → GenerateSolution.gw_text r = Normal txt →
          GenerateSolution.gw_status r = 402 →
          GenerateSolution.status resp = 402
          ∧ GenerateSolution.body resp =
            Some (object [("error", JsString "Payment required. Please add credits to your workspace.")]))
       ∧ (∀ e, gateway = Abrupt e → GenerateSolution.status resp = 500)
       ∧ (∀ r, gateway = Normal r → GenerateSolution.ok r = false →
          GenerateSolution.gw_status r ≠ 429 → GenerateSolution.gw_status r ≠ 402 →
          GenerateSolution.status resp = 500)
       ∧ (∀ r e, gateway = Normal r → GenerateSolution.ok r = false →
          GenerateSolution.gw_text r = Abrupt e →
          GenerateSolution.status resp = 500)
       ∧ (∀ r e, gateway = Normal r → GenerateSolution.ok r = true →
          GenerateSolution.gw_content r = Abrupt e →
          GenerateSolution.status resp = 500)).
Proof.
  intros Hmethod Hjson Hpd.
  destruct (js_falsy key) eqn:Hkey.
  - destruct (serve_without_key key gateway req payload σ Hmethod Hjson Hpd Hkey)
      as (resp & Hresp & Hfetch & Hst & _).
    exists resp. split; [exact Hresp|]. rewrite Hfetch.
    split; [lia|]. split; [done|]. discriminate.
  - destruct (serve_reaches_gateway key gateway req payload σ Hmethod Hjson Hpd Hkey)
      as (resp & Hresp & Hfetch & Hcase).
    exists resp. split; [exact Hresp|]. rewrite Hfetch.
    split; [lia|]. split; [discriminate|]. intros _.
    split_and!.
    + intros r txt -> Htxt Hst. simpl in Hcase.
      assert (GenerateSolution.ok r = false) as Hok
        by (unfold GenerateSolution.ok; rewrite Hst; reflexivity).
      rewrite Hok, Htxt, Hst in Hcase. exact Hcase.
    + intros r txt -> Htxt Hst. simpl in Hcase.
      assert (GenerateSolution.ok r = false) as Hok
        by (unfold GenerateSolution.ok; rewrite Hst; reflexivity).
      rewrite Hok, Htxt, Hst in Hcase. exact Hcase.
    + intros e ->. exact Hcase.
    + intros r -> Hok H429 H402. simpl in Hcase. rewrite Hok in Hcase.
      destruct (GenerateSolution.gw_text r); [|exact Hcase].
      rewrite !bool_decide_eq_false_2 in Hcase by done. exact Hcase.
    + intros r e -> Hok Htxt. simpl in Hcase. by rewrite Hok, Htxt in Hcase.
    + intros r e -> Hok Hc. simpl in Hcase. by rewrite Hok, Hc in Hcase.
Qed.

Lemma serve_error_statuses_witness :
  let key := JsString "sk-test" in
  let gateway := Sample.gateway 429 in
  let req := Sample.request in
  let payload := Sample.payload in
  let σ := Sample.edge in
  (GenerateSolution.method req ≠ "OPTIONS"
   ∧ GenerateSolution.json req = Normal payload
   ∧ js_falsy (property payload "problemDescription") = false)
  ∧ ∃ resp : GenerateSolution.Response,
    eval (GenerateSolution.serve key gateway req) σ = Normal resp
    ∧ (length (fetches (trace (world (exec (GenerateSolution.serve key gateway req) σ))))
       ≤ S (length (fetches (trace (world σ)))))%nat
    ∧ (js_falsy key = true →
       GenerateSolution.status resp = 500
       ∧ fetches (trace (world (exec (GenerateSolution.serve key gateway req) σ)))
         = fetches (trace (world σ)))
    ∧ (js_falsy key = false →
       (∀ r txt, gateway = Normal r → GenerateSolution.gw_text r = Normal txt →
          GenerateSolution.gw_status r = 429 →
          GenerateSolution.status resp = 429
          ∧ GenerateSolution.body resp =
            Some (object [("error", JsString "Rate limit exceeded. Please try again later.")]))
       ∧ (∀ r txt, gateway = Normal r → GenerateSolution.gw_text r = Normal txt →
          GenerateSolution.gw_status r = 402 →
          GenerateSolution.status resp = 402
          ∧ GenerateSolution.body resp =
            Some (object [("error", JsString "Payment required. Please add credits to your workspace.")]))
       ∧ (∀ e, gateway = Abrupt e → GenerateSolution.status resp = 500)
       ∧ (∀ r, gateway = Normal r → GenerateSolution.ok r = false →
          GenerateSolution.gw_status r ≠ 429 → GenerateSolution.gw_status r ≠ 402 →
          GenerateSolution.status resp = 500)
       ∧ (∀ r e, gateway = Normal r → GenerateSolution.ok r = false →
          GenerateSolution.gw_text r = Abrupt e →
          GenerateSolution.status resp = 500)
       ∧ (∀ r e, gateway = Normal r → GenerateSolution.ok r = true →
          GenerateSolution.gw_content r = Abrupt e →
          GenerateSolution.status resp = 500)).
Proof.
  intros key gateway req payload σ.
  assert (H1 : GenerateSolution.method req ≠ "OPTIONS")
    by (vm_compute; discriminate).
  assert (H2 : GenerateSolution.json req = Normal payload) by reflexivity.
  assert (H3 : js_falsy (property payload "problemDescription") = false)
    by (vm_compute; reflexivity).
  split; [exact (conj H1 (conj H2 H3))|].
  exact (serve_error_statuses key gateway req payload σ H1 H2 H3).
Defined.

(** The handler on the sample request, for four gateway outcomes and for a
    missing key: the status and the [error] and [solution] properties of
    the body. *)
Example serve_samples :
  let answer key gateway :=
    match eval (GenerateSolution.serve key gateway Sample.request) Sample.edge with
    | Normal resp =>
      Some (GenerateSolution.status resp,
            GenerateSolution.body resp ≫= (.!! "error"),
            GenerateSolution.body resp ≫= (.!! "solution"))
    | Abrupt _ => None
    end in
  answer (JsString "sk-test") (Sample.gateway 429)
    = Some (429, Some (Some "Rate limit exceeded. Please try again later."), None)
  ∧ answer (JsString "sk-test") (Sample.gateway 402)
    = Some (402, Some (Some "Payment required. Please add credits to your workspace."),
            None)
  ∧ answer (JsString "sk-test") (Sample.gateway 503)
    = Some (500, Some (Some "AI Gateway error: upstream says no"), None)
  ∧ answer (JsString "sk-test") (Abrupt (JsError "connection refused"))
    = Some (500, Some (Some "connection refused"), None)
  ∧ answer JsUndefined (Sample.gateway 200)
    = Some (500, Some (Some "LOVABLE_API_KEY is not configured"), None)
  ∧ answer (JsString "sk-test") (Sample.gateway 200)
    = Some (200, None, Some (Some "1. Diagnóstico")).
Proof. vm_compute. repeat split; reflexivity. Qed.

(** ** The handlers and their suspension points *)

(** The handlers cut at their [await]s compose to the handlers as
    written, when each continuation runs as soon as the one before it has
    suspended. *)
Lemma startRecording_split (media : Completion Thrown unit)
    (σ : Session NewIntervention.Page) :
  NewIntervention.startRecording media σ
  = (render <- NewIntervention.startRecording_request ;;
     NewIntervention.startRecording_resume render media) σ.
Proof.
  destruct σ as [pg wd].
  unfold NewIntervention.startRecording, NewIntervention.startRecording_request,
    NewIntervention.startRecording_resume, try_catch, bind, await, emit, get_page,
    ret.
  simpl. destruct media; reflexivity.
Qed.

Lemma onstop_split (render : NewIntervention.Closure) (reader : option string)
    (transcribe generate : InvokeResult) (σ : Session NewIntervention.Page) :
  NewIntervention.onstop render reader transcribe generate σ
  = (NewIntervention.onstop_begin ;;
     read <- NewIntervention.processAudio_read render reader ;;
     match read with
     | None => ret tt
     | Some _ =>
       transcribed <- NewIntervention.processAudio_transcribed render transcribe ;;
       match transcribed with
       | None => ret tt
       | Some _ => NewIntervention.processAudio_generated generate ;; ret tt
       end
     end) σ.
Proof.
  destruct σ as [pg wd].
  unfold NewIntervention.onstop, NewIntervention.processAudio,
    NewIntervention.onstop_begin, NewIntervention.processAudio_read,
    NewIntervention.processAudio_transcribed,
    NewIntervention.processAudio_generated, NewIntervention.processAudio_catch,
    try_catch, bind, throw, ret, emit, get_page,
    NewIntervention.setProcessingStep, NewIntervention.setAiSolution,
    NewIntervention.setProblemDescription, set_page.
  simpl.
  destruct reader as [url|]; [|reflexivity].
  destruct transcribe as [text| |e]; [|reflexivity..].
  destruct generate as [solution| |e]; reflexivity.
Qed.

(** C9, evaluated on the code: after a recording has been stopped, and
    before the recorder's [stop] event has been dispatched, the button is
    enabled and a click dispatches [startRecording]; [onstop] then puts
    the pipeline in the transcribing state with no function answered yet,
    and [processAudio] calls the transcription function; when the pending
    [getUserMedia] settles, a new recording starts and the step is set
    back to recording while that transcription is still awaited. *)
Lemma recording_starts_during_transcription :
  let shown (b : NewIntervention.Browser) := page (NewIntervention.session b) in
  let called (b : NewIntervention.Browser) :=
    invocations (trace (world (NewIntervention.session b))) in
  let render := NewIntervention.closure NewIntervention.initial in
  (NewIntervention.mic_disabled (shown Sample.stopped),
   NewIntervention.processingStep (shown Sample.stopped),
   NewIntervention.isRecording (shown Sample.stopped),
   eval NewIntervention.click (NewIntervention.session Sample.stopped))
  = (false, NewIntervention.recording, false,
     Normal (Some (NewIntervention.AwaitingGetUserMedia render)))
  ∧ NewIntervention.pending Sample.clicked_again
    = [NewIntervention.AwaitingStop render;
       NewIntervention.AwaitingGetUserMedia render]
  ∧ (NewIntervention.processingStep (shown Sample.transcription_pending),
     NewIntervention.mic_disabled (shown Sample.transcription_pending),
     called Sample.transcription_pending)
    = (NewIntervention.transcribing, true, [])
  ∧ (NewIntervention.processingStep (shown Sample.transcription_in_flight),
     called Sample.transcription_in_flight,
     NewIntervention.pending Sample.transcription_in_flight)
    = (NewIntervention.transcribing, ["transcribe-audio"],
       [NewIntervention.AwaitingGetUserMedia render;
        NewIntervention.AwaitingTranscription render])
  ∧ (NewIntervention.isRecording (shown Sample.recording_during_transcription),
     NewIntervention.processingStep (shown Sample.recording_during_transcription),
     NewIntervention.mic_disabled (shown Sample.recording_during_transcription))
    = (true, NewIntervention.recording, false)
  ∧ NewIntervention.pending Sample.recording_during_transcription
    = [NewIntervention.AwaitingTranscription render].
Proof. vm_compute. repeat split; reflexivity. Qed.

(** * Further properties of the modelled code *)

(** ** The intake page *)

(** X1: the progress display.  While the pipeline is idle every step reads
    idle; otherwise the steps before the current one read complete, the
    current one active and the later ones pending, and a step reads active
    exactly when it is the current one. *)
Theorem getStepStatus_progress :
  (∀ current : NewIntervention.ProcessingStep,
     NewInterventionView.getStepStatus current <$> NewInterventionView.steps =
     match current with
     | NewIntervention.idle => ["idle"; "idle"; "idle"; "idle"]
     | NewIntervention.recording => ["active"; "pending"; "pending"; "pending"]
     | NewIntervention.transcribing => ["complete"; "active"; "pending"; "pending"]
     | NewIntervention.generating => ["complete"; "complete"; "active"; "pending"]
     | NewIntervention.complete => ["complete"; "complete"; "complete"; "active"]
     end)
  ∧ (∀ current step : NewIntervention.ProcessingStep,
       current ≠ NewIntervention.idle →
       (NewInterventionView.getStepStatus current step = "active" ↔ step = current)).
Proof.
  split.
  - intros []; reflexivity.
  - intros [] [] Hne; try (by destruct Hne); vm_compute; split; congruence.
Qed.

(** X2: the save button and the validation in [handleSave] agree.  When a
    required field is missing the button is disabled; when the button is
    enabled, [handleSave] passes its validation and sends exactly one
    insert to the store, followed by one toast that is not the
    required-fields toast. *)
Theorem save_button_guards_validation
    (srv : Store.Server) (σ : Session NewIntervention.Page) :
  let p := page σ in
  (NewIntervention.selectedMachine p = EmptyString
   ∨ NewIntervention.selectedTechnician p = EmptyString
   ∨ js_falsy (NewIntervention.problemDescription p) = true →
   NewIntervention.save_disabled p = true)
  ∧ (NewIntervention.save_disabled p = false →
     let σ' := exec (NewIntervention.handleSave srv) σ in
     store_calls (trace (world σ')) =
       store_calls (trace (world σ)) ++
       [StoreInsert "interventions" (NewIntervention.insert_values p)]
     ∧ (toasts (trace (world σ')) = toasts (trace (world σ)) ++
          [(ToastDefault, "Intervenção criada",
            "A intervenção foi registada com sucesso.")]
        ∨ toasts (trace (world σ')) = toasts (trace (world σ)) ++
          [(ToastDestructive, "Erro ao guardar",
            "Não foi possível guardar a intervenção.")])).
Proof.
  intros p. split.
  - intros H. unfold NewIntervention.save_disabled.
    destruct H as [H|[H|H]]; [apply falsy_true in H..|]; rewrite H;
      rewrite ?orb_true_r; reflexivity.
  - intros Hen σ'. subst σ'. rewrite handleSave_eq. fold p.
    unfold NewIntervention.save_disabled in Hen.
    apply orb_false_elim in Hen as [Hen Ht].
    apply orb_false_elim in Hen as [Hen Hm].
    apply orb_false_elim in Hen as [_ Hd].
    rewrite Hm, Ht, Hd. simpl.
    destruct (Store.insert srv _ _) as [d' [e|]]; simpl;
      rewrite !store_calls_app, !toasts_app; simpl; rewrite ?app_nil_r;
      (split; [reflexivity|]); [right|left]; reflexivity.
Qed.

(** X3: when the store refuses the insert, [handleSave] leaves the
    database and every form field as they were, clears the saving flag,
    logs the error and shows the could-not-save toast; it does not
    navigate. *)
Theorem handleSave_rejected
    (srv : Store.Server) (σ : Session NewIntervention.Page) (e : Store.StoreError) :
  let p := page σ in
  NewIntervention.selectedMachine p ≠ EmptyString →
  NewIntervention.selectedTechnician p ≠ EmptyString →
  js_falsy (NewIntervention.problemDescription p) = false →
  (Store.insert srv (NewIntervention.insert_values p) (db (world σ))).2 = Some e →
  let σ' := exec (NewIntervention.handleSave srv) σ in
  db (world σ') = db (world σ)
  ∧ page σ' = page (exec (NewIntervention.setSaving false) σ)
  ∧ NewIntervention.problemDescription (page σ') = NewIntervention.problemDescription p
  ∧ NewIntervention.aiSolution (page σ') = NewIntervention.aiSolution p
  ∧ NewIntervention.selectedMachine (page σ') = NewIntervention.selectedMachine p
  ∧ NewIntervention.selectedTechnician (page σ') = NewIntervention.selectedTechnician p
  ∧ NewIntervention.processingStep (page σ') = NewIntervention.processingStep p
  ∧ NewIntervention.saving (page σ') = false
  ∧ trace (world σ') = trace (world σ) ++
      [StoreInsert "interventions" (NewIntervention.insert_values p);
       ConsoleError "Save error:";
       Toast ToastDestructive "Erro ao guardar"
         "Não foi possível guardar a intervenção."].
Proof.
  intros p Hm Ht Hd Herr σ'. subst σ'. rewrite (handleSave_valid srv σ Hm Ht Hd).
  fold p.
  destruct (insert_cases srv (NewIntervention.insert_values p) (db (world σ)))
    as [[e' He]|[_ He]]; rewrite He in Herr |- *; [|discriminate].
  simpl. rewrite <- app_assoc. split_and!; reflexivity.
Qed.

Lemma handleSave_rejected_witness :
  let σ := Sample.intake in
  let srv := Sample.offline in
  let e := Store.RequestFailed in
  let p := page σ in
  (NewIntervention.selectedMachine p ≠ EmptyString
   ∧ NewIntervention.selectedTechnician p ≠ EmptyString
   ∧ js_falsy (NewIntervention.problemDescription p) = false
   ∧ (Store.insert srv (NewIntervention.insert_values p) (db (world σ))).2 = Some e)
  ∧
  let σ' := exec (NewIntervention.handleSave srv) σ in
  db (world σ') = db (world σ)
  ∧ page σ' = page (exec (NewIntervention.setSaving false) σ)
  ∧ NewIntervention.problemDescription (page σ') = NewIntervention.problemDescription p
  ∧ NewIntervention.aiSolution (page σ') = NewIntervention.aiSolution p
  ∧ NewIntervention.selectedMachine (page σ') = NewIntervention.selectedMachine p
  ∧ NewIntervention.selectedTechnician (page σ') = NewIntervention.selectedTechnician p
  ∧ NewIntervention.processingStep (page σ') = NewIntervention.processingStep p
  ∧ NewIntervention.saving (page σ') = false
  ∧ trace (world σ') = trace (world σ) ++
      [StoreInsert "interventions" (NewIntervention.insert_values p);
       ConsoleError "Save error:";
       Toast ToastDestructive "Erro ao guardar"
         "Não foi possível guardar a intervenção."].
Proof.
  intros σ srv e p.
  assert (H1 : NewIntervention.selectedMachine p ≠ EmptyString) by (vm_compute; discriminate).
  assert (H2 : NewIntervention.selectedTechnician p ≠ EmptyString) by (vm_compute; discriminate).
  assert (H3 : js_falsy (NewIntervention.problemDescription p) = false)
    by (vm_compute; reflexivity).
  assert (H4 : (Store.insert srv (NewIntervention.insert_values p) (db (world σ))).2 = Some e)
    by (vm_compute; reflexivity).
  split; [exact (conj H1 (conj H2 (conj H3 H4)))|].
  exact (handleSave_rejected srv σ e H1 H2 H3 H4).
Defined.

(** X4: when the form is complete, the request gets through, the selected
    machine and technician exist in the store and the generated id is not
    in use, the insert is accepted: [handleSave] stores the new record
    under that id, shows the created toast and navigates to the
    dashboard. *)
Theorem handleSave_succeeds
    (srv : Store.Server) (σ : Session NewIntervention.Page) :
  let p := page σ in
  let d := db (world σ) in
  NewIntervention.selectedMachine p ≠ EmptyString →
  NewIntervention.selectedTechnician p ≠ EmptyString →
  js_falsy (NewIntervention.problemDescription p) = false →
  Store.available srv = true →
  is_Some (Store.machines d !! NewIntervention.selectedMachine p) →
  is_Some (Store.technicians d !! NewIntervention.selectedTechnician p) →
  Store.interventions d !! Store.gen_random_uuid srv = None →
  let σ' := exec (NewIntervention.handleSave srv) σ in
  Store.interventions (db (world σ')) !! Store.gen_random_uuid srv =
    Some (Store.new_row srv (NewIntervention.insert_values p))
  ∧ trace (world σ') = trace (world σ) ++
      [StoreInsert "interventions" (NewIntervention.insert_values p);
       Toast ToastDefault "Intervenção criada"
         "A intervenção foi registada com sucesso.";
       Navigate "/"].
Proof.
  intros p d Hm Ht Hd Hav HM HT Hfresh σ'. subst σ'.
  rewrite (handleSave_valid srv σ Hm Ht Hd). fold p d.
  assert (Hins : Store.insert srv (NewIntervention.insert_values p) d =
          (Store.with_interventions
             (<[Store.gen_random_uuid srv :=
                  Store.new_row srv (NewIntervention.insert_values p)]>
                (Store.interventions d)) d, None)).
  { unfold Store.insert. rewrite Hav, insert_values_columns. simpl.
    assert (Store.constraints d (Store.new_row srv (NewIntervention.insert_values p))
            = None) as ->.
    { rewrite new_row_insert_values. unfold Store.constraints. simpl.
      rewrite !bool_decide_eq_true_2 by done. reflexivity. }
    simpl. rewrite Hfresh. reflexivity. }
  rewrite Hins. simpl. rewrite lookup_insert_eq, <- app_assoc. done.
Qed.

Lemma handleSave_succeeds_witness :
  let σ := Sample.intake in
  let srv := Sample.srv1 in
  let p := page σ in
  let d := db (world σ) in
  (NewIntervention.selectedMachine p ≠ EmptyString
   ∧ NewIntervention.selectedTechnician p ≠ EmptyString
   ∧ js_falsy (NewIntervention.problemDescription p) = false
   ∧ Store.available srv = true
   ∧ is_Some (Store.machines d !! NewIntervention.selectedMachine p)
   ∧ is_Some (Store.technicians d !! NewIntervention.selectedTechnician p)
   ∧ Store.interventions d !! Store.gen_random_uuid srv = None)
  ∧
  let σ' := exec (NewIntervention.handleSave srv) σ in
  Store.interventions (db (world σ')) !! Store.gen_random_uuid srv =
    Some (Store.new_row srv (NewIntervention.insert_values p))
  ∧ trace (world σ') = trace (world σ) ++
      [StoreInsert "interventions" (NewIntervention.insert_values p);
       Toast ToastDefault "Intervenção criada"
         "A intervenção foi registada com sucesso.";
       Navigate "/"].
Proof.
  intros σ srv p d.
  assert (H1 : NewIntervention.selectedMachine p ≠ EmptyString) by (vm_compute; discriminate).
  assert (H2 : NewIntervention.selectedTechnician p ≠ EmptyString) by (vm_compute; discriminate).
  assert (H3 : js_falsy (NewIntervention.problemDescription p) = false)
    by (vm_compute; reflexivity).
  assert (H4 : Store.available srv = true) by reflexivity.
  assert (H5 : is_Some (Store.machines d !! NewIntervention.selectedMachine p))
    by (vm_compute; eexists; reflexivity).
  assert (H6 : is_Some (Store.technicians d !! NewIntervention.selectedTechnician p))
    by (vm_compute; eexists; reflexivity).
  assert (H7 : Store.interventions d !! Store.gen_random_uuid srv = None)
    by (vm_compute; reflexivity).
  split; [exact (conj H1 (conj H2 (conj H3 (conj H4 (conj H5 (conj H6 H7))))))|].
  exact (handleSave_succeeds srv σ H1 H2 H3 H4 H5 H6 H7).
Defined.

(** ** Recording and the voice submission *)

Lemma dataavailable_eq (chunks : list string) :
  ∀ σ : Session NewIntervention.Page,
    NewInterventionView.dataavailable chunks σ =
    (Normal tt,
     exec (NewIntervention.setAudioChunksRef
             (NewIntervention.audioChunksRef (page σ) ++
              List.filter (λ data, bool_decide (0 < String.length data)%nat) chunks)) σ).
Proof.
  induction chunks as [|data rest IH]; intros [pg wd].
  - simpl. rewrite app_nil_r. destruct pg. reflexivity.
  - simpl. unfold bind at 1. unfold NewIntervention.ondataavailable.
    destruct (bool_decide (0 < String.length data)%nat) eqn:Hd.
    + unfold bind, get_page. simpl. rewrite IH. simpl.
      rewrite <- app_assoc. reflexivity.
    + unfold ret. rewrite IH. reflexivity.
Qed.

(** X5: a recording starts from no chunks and keeps, in order, exactly the
    non-empty chunks the recorder delivers; whatever an earlier recording
    had buffered is dropped. *)
Theorem recording_collects_nonempty_chunks
    (chunks : list string) (σ : Session NewIntervention.Page) :
  let σ' := exec (NewIntervention.startRecording (Normal tt) ;;
                  NewInterventionView.dataavailable chunks) σ in
  NewIntervention.audioChunksRef (page σ') =
    List.filter (λ data, bool_decide (0 < String.length data)%nat) chunks
  ∧ NewIntervention.isRecording (page σ') = true
  ∧ NewIntervention.processingStep (page σ') = NewIntervention.recording.
Proof.
  destruct σ as [pg wd]. simpl.
  unfold exec, bind.
  unfold NewIntervention.startRecording, try_catch, bind, await, emit, get_page.
  simpl.
  rewrite dataavailable_eq. simpl. done.
Qed.

(** *** Runs of events *)

Lemma run_app (b : NewIntervention.Browser) (events events' : list NewIntervention.Event) :
  NewIntervention.run b (events ++ events')
  = NewIntervention.run (NewIntervention.run b events) events'.
Proof. apply foldl_app. Qed.

(** The chunks a recorder delivers. *)
Lemma run_dataavailable (chunks : list string) :
  ∀ b : NewIntervention.Browser,
    NewIntervention.run b (NewIntervention.DataAvailable <$> chunks) =
    {| NewIntervention.session :=
         exec (NewIntervention.setAudioChunksRef
                 (NewIntervention.audioChunksRef (page (NewIntervention.session b)) ++
                  List.filter (λ data, bool_decide (0 < String.length data)%nat) chunks))
              (NewIntervention.session b);
       NewIntervention.pending := NewIntervention.pending b |}.
Proof.
  induction chunks as [|data rest IH]; intros [[pg wd] pend].
  - simpl. rewrite app_nil_r. destruct pg. reflexivity.
  - simpl. rewrite IH. clear IH.
    unfold NewIntervention.dispatch, NewIntervention.ondataavailable, bind, ret.
    simpl. destruct (bool_decide (0 < String.length data)%nat) eqn:Hd; simpl.
    + rewrite <- app_assoc. reflexivity.
    + reflexivity.
Qed.

(** A click on the enabled button while nothing is recorded runs
    [startRecording] up to its [await] and leaves the rest pending. *)
Lemma step_click_start (b : NewIntervention.Browser) :
  NewIntervention.mic_disabled (page (NewIntervention.session b)) = false →
  NewIntervention.isRecording (page (NewIntervention.session b)) = false →
  NewIntervention.step b NewIntervention.Click =
  {| NewIntervention.session :=
       exec NewIntervention.startRecording_request (NewIntervention.session b);
     NewIntervention.pending :=
       NewIntervention.pending b ++
       [NewIntervention.AwaitingGetUserMedia
          (NewIntervention.closure (page (NewIntervention.session b)))] |}.
Proof.
  destruct b as [[pg wd] pend]. simpl. intros Hdis Hrec.
  unfold NewIntervention.dispatch, NewIntervention.click, bind, get_page. simpl.
  rewrite Hdis, Hrec. reflexivity.
Qed.

(** A click while the recorder of the ref is running stops it and leaves
    its [stop] event pending. *)
Lemma step_click_stop (b : NewIntervention.Browser) (render : NewIntervention.Closure) :
  NewIntervention.processingStep (page (NewIntervention.session b))
    = NewIntervention.recording →
  NewIntervention.isRecording (page (NewIntervention.session b)) = true →
  NewIntervention.mediaRecorderRef (page (NewIntervention.session b)) = Some render →
  NewIntervention.step b NewIntervention.Click =
  {| NewIntervention.session :=
       exec (NewIntervention.setIsRecording false) (NewIntervention.session b);
     NewIntervention.pending :=
       NewIntervention.pending b ++ [NewIntervention.AwaitingStop render] |}.
Proof.
  destruct b as [[pg wd] pend]. simpl. intros Hstep Hrec Href.
  unfold NewIntervention.dispatch, NewIntervention.click, bind, get_page,
    NewIntervention.mic_disabled, NewIntervention.stopRecording. simpl.
  rewrite Hstep. simpl. rewrite Hrec. unfold bind, get_page. simpl.
  rewrite Href, Hrec. reflexivity.
Qed.

(** What the quiet events leave alone: the pending tasks, the database
    and the trace, the pipeline state, the recorder and the AI solution. *)
Lemma quiet_run (events : list NewIntervention.Event) :
  ∀ b : NewIntervention.Browser,
    Forall (λ e, NewIntervention.quiet e = true) events →
    let b' := NewIntervention.run b events in
    let p := page (NewIntervention.session b) in
    let p' := page (NewIntervention.session b') in
    NewIntervention.pending b' = NewIntervention.pending b
    ∧ world (NewIntervention.session b') = world (NewIntervention.session b)
    ∧ NewIntervention.processingStep p' = NewIntervention.processingStep p
    ∧ NewIntervention.isRecording p' = NewIntervention.isRecording p
    ∧ NewIntervention.mediaRecorderRef p' = NewIntervention.mediaRecorderRef p
    ∧ NewIntervention.aiSolution p' = NewIntervention.aiSolution p.
Proof.
  induction events as [|e events IH]; intros b Hq; [done|].
  inversion Hq as [|? ? He Hq']; subst. simpl.
  destruct (IH (NewIntervention.step b e) Hq') as (-> & -> & -> & -> & -> & ->).
  clear IH Hq Hq'. destruct b as [[pg wd] pend].
  destruct e as [|v|v|v|[ms|] [ts|]|data|i o]; try discriminate; try done.
  simpl. unfold NewIntervention.dispatch, NewIntervention.ondataavailable.
  destruct (bool_decide _); done.
Qed.

(** X6: one complete voice submission.  On a page with nothing pending,
    the microphone button enabled and nothing being recorded, the run of
    events of a submission (a click that gets the microphone, the chunks,
    a second click, the recorder's [stop] event, a recording that is
    read, transcribed and answered) leaves the pipeline complete with the
    transcription as description and the answer as AI solution, and
    nothing pending; the buffer holds the non-empty chunks, the two
    functions were invoked once each, in that order, the pickers and the
    database are untouched, and the success toast is the only toast. *)
Theorem submission_completes
    (chunks : list string) (url : string) (text solution : JsValue)
    (b : NewIntervention.Browser) :
  let p := page (NewIntervention.session b) in
  NewIntervention.pending b = [] →
  NewIntervention.mic_disabled p = false →
  NewIntervention.isRecording p = false →
  let b' := NewIntervention.run b
              (NewIntervention.submission chunks (Some url) (Data text)
                 (Data solution)) in
  let p' := page (NewIntervention.session b') in
  NewIntervention.pending b' = []
  ∧ NewIntervention.processingStep p' = NewIntervention.complete
  ∧ NewIntervention.problemDescription p' = text
  ∧ NewIntervention.aiSolution p' = solution
  ∧ NewIntervention.isRecording p' = false
  ∧ NewIntervention.audioChunksRef p' =
    List.filter (λ data, bool_decide (0 < String.length data)%nat) chunks
  ∧ NewIntervention.selectedMachine p' = NewIntervention.selectedMachine p
  ∧ NewIntervention.selectedTechnician p' = NewIntervention.selectedTechnician p
  ∧ db (world (NewIntervention.session b')) = db (world (NewIntervention.session b))
  ∧ invocations (trace (world (NewIntervention.session b'))) =
    invocations (trace (world (NewIntervention.session b)))
    ++ ["transcribe-audio"; "generate-solution"]
  ∧ toasts (trace (world (NewIntervention.session b'))) =
    toasts (trace (world (NewIntervention.session b))) ++
      [(ToastDefault, "Processamento concluído",
        "Áudio transcrito e solução gerada com sucesso!")].
Proof.
  intros p Hpend Hdis Hrec b' p'. subst p' b' p.
  destruct b as [[pg wd] pend]. simpl in Hpend, Hdis, Hrec. subst pend.
  unfold NewIntervention.submission. rewrite !run_app.
  change (NewIntervention.run ?b [?e1; ?e2])
    with (NewIntervention.step (NewIntervention.step b e1) e2).
  rewrite step_click_start by done.
  rewrite run_dataavailable. simpl.
  rewrite !invocations_app, !toasts_app. simpl. rewrite !app_nil_r.
  rewrite <- !app_assoc. simpl.
  split_and!; reflexivity.
Qed.

Lemma submission_completes_witness :
  let b := Sample.after_first in
  let chunks := ["c1"; EmptyString; "c2"] in
  let url := Sample.dataUrl in
  let text := JsString "fuga de óleo na bomba" in
  let solution := JsString "1. Diagnóstico: vedante gasto" in
  let p := page (NewIntervention.session b) in
  (NewIntervention.pending b = []
   ∧ NewIntervention.mic_disabled p = false
   ∧ NewIntervention.isRecording p = false)
  ∧
  let b' := NewIntervention.run b
              (NewIntervention.submission chunks (Some url) (Data text)
                 (Data solution)) in
  let p' := page (NewIntervention.session b') in
  NewIntervention.pending b' = []
  ∧ NewIntervention.processingStep p' = NewIntervention.complete
  ∧ NewIntervention.problemDescription p' = text
  ∧ NewIntervention.aiSolution p' = solution
  ∧ NewIntervention.isRecording p' = false
  ∧ NewIntervention.audioChunksRef p' =
    List.filter (λ data, bool_decide (0 < String.length data)%nat) chunks
  ∧ NewIntervention.selectedMachine p' = NewIntervention.selectedMachine p
  ∧ NewIntervention.selectedTechnician p' = NewIntervention.selectedTechnician p
  ∧ db (world (NewIntervention.session b')) = db (world (NewIntervention.session b))
  ∧ invocations (trace (world (NewIntervention.session b'))) =
    invocations (trace (world (NewIntervention.session b)))
    ++ ["transcribe-audio"; "generate-solution"]
  ∧ toasts (trace (world (NewIntervention.session b'))) =
    toasts (trace (world (NewIntervention.session b))) ++
      [(ToastDefault, "Processamento concluído",
        "Áudio transcrito e solução gerada com sucesso!")].
Proof.
  intros b chunks url text solution p.
  assert (H1 : NewIntervention.pending b = []) by (vm_compute; reflexivity).
  assert (H2 : NewIntervention.mic_disabled p = false) by (vm_compute; reflexivity).
  assert (H3 : NewIntervention.isRecording p = false) by (vm_compute; reflexivity).
  split; [exact (conj H1 (conj H2 H3))|].
  exact (submission_completes chunks url text solution b H1 H2 H3).
Defined.

(** The spec's scenario, event by event: the pickers set, three chunks,
    the two answers; the page then is the sample form, with nothing
    pending. *)
Example first_submission_fills_the_form :
  page (NewIntervention.session Sample.after_first) = Sample.form
  ∧ NewIntervention.pending Sample.after_first = [].
Proof. vm_compute. split; reflexivity. Qed.

(** ** What the page sends to the edge functions *)

Lemma invoke_bodies_app (name : string) (a b : list Effect) :
  NewInterventionView.invoke_bodies name (a ++ b) =
  NewInterventionView.invoke_bodies name a ++ NewInterventionView.invoke_bodies name b.
Proof. unfold NewInterventionView.invoke_bodies. apply omap_app. Qed.

(** X7: the request to generate-solution is built from the render in
    which the recording was started.  On a page with nothing pending, a
    click that gets the microphone, then any changes of the form, loaded
    picker rows and chunks, then the click that stops the recorder, its
    [stop] event, the recording read and a transcription received: one
    request is sent; its [problemDescription] is the transcription; its
    [machineName] and [machineLocation] are those of the first machine
    that, when the first click was made, was in the picker list under the
    id then selected, and both are absent when there was none, whatever
    was loaded or picked while the recorder was running. *)
Theorem generate_request_body
    (edits : list NewIntervention.Event) (url : string) (text : JsValue)
    (b : NewIntervention.Browser) :
  let p := page (NewIntervention.session b) in
  NewIntervention.pending b = [] →
  NewIntervention.mic_disabled p = false →
  NewIntervention.isRecording p = false →
  Forall (λ e, NewIntervention.quiet e = true) edits →
  let b' := NewIntervention.run b
              ([NewIntervention.Click;
                NewIntervention.Settle 0 (NewIntervention.Media (Normal tt))]
               ++ edits
               ++ [NewIntervention.Click;
                   NewIntervention.Settle 0 NewIntervention.StopEvent;
                   NewIntervention.Settle 0 (NewIntervention.Read (Some url));
                   NewIntervention.Settle 0 (NewIntervention.Answer (Data text))]) in
  ∃ body : JsObject,
    NewInterventionView.invoke_bodies "generate-solution"
      (trace (world (NewIntervention.session b')))
    = NewInterventionView.invoke_bodies "generate-solution"
        (trace (world (NewIntervention.session b))) ++ [body]
    ∧ property body "problemDescription" = text
    ∧ ((∀ m, m ∈ NewIntervention.machines p →
          NewIntervention.id m ≠ NewIntervention.selectedMachine p) →
       property body "machineName" = JsUndefined
       ∧ property body "machineLocation" = JsUndefined)
    ∧ (∀ before m after,
         NewIntervention.machines p = before ++ m :: after →
         NewIntervention.id m = NewIntervention.selectedMachine p →
         (∀ m', m' ∈ before →
            NewIntervention.id m' ≠ NewIntervention.selectedMachine p) →
         property body "machineName" = JsString (NewIntervention.model m)
         ∧ property body "machineLocation"
           = of_nullable (NewIntervention.location m)).
Proof.
  intros p Hpend Hdis Hrec Hquiet b'.
  exists (NewInterventionView.generate_body (NewIntervention.closure p) text).
  split.
  { subst b' p. destruct b as [[pg wd] pend]. simpl in Hpend, Hdis, Hrec. subst pend.
    rewrite !run_app.
    change (NewIntervention.run ?b [?e1; ?e2])
      with (NewIntervention.step (NewIntervention.step b e1) e2).
    rewrite step_click_start by done.
    set (b1 := NewIntervention.step _ _).
    destruct (quiet_run edits b1 Hquiet) as (Hp & Hw & Hs & Hr & Hm & _).
    destruct (NewIntervention.run b1 edits) as [[pg2 wd2] pend2].
    subst b1. simpl in Hp, Hw, Hs, Hr, Hm. subst pend2 wd2.
    change (NewIntervention.run ?b [?e1; ?e2; ?e3; ?e4])
      with (NewIntervention.step (NewIntervention.step (NewIntervention.step
              (NewIntervention.step b e1) e2) e3) e4).
    rewrite (step_click_stop _ (NewIntervention.closure pg)) by done.
    simpl. rewrite !invoke_bodies_app. simpl. by rewrite !app_nil_r. }
  set (c := NewIntervention.closure p).
  assert (Hc : NewIntervention.closure_machines c = NewIntervention.machines p
               ∧ NewIntervention.closure_selectedMachine c
                 = NewIntervention.selectedMachine p) by done.
  destruct Hc as [Hcm Hcs].
  unfold NewInterventionView.generate_body. rewrite Hcm, Hcs. clear Hcm Hcs.
  set (f := λ m, bool_decide (NewIntervention.id m = NewIntervention.selectedMachine p)).
  split_and!.
  - destruct (List.find f _) as [m|]; [destruct (NewIntervention.location m)|];
      destruct text; reflexivity.
  - intros Hnone.
    assert (List.find f (NewIntervention.machines p) = None) as ->.
    { induction (NewIntervention.machines p) as [|m l IH]; [reflexivity|].
      simpl. unfold f at 1. rewrite bool_decide_eq_false_2 by (apply Hnone; left).
      apply IH. intros m' Hm'. apply Hnone. by right. }
    destruct text; split; reflexivity.
  - intros before m after Hsplit Hid Hbefore.
    assert (List.find f (NewIntervention.machines p) = Some m) as ->.
    { rewrite Hsplit. clear Hsplit.
      induction before as [|m' before IH]; simpl.
      - unfold f at 1. by rewrite bool_decide_eq_true_2.
      - unfold f at 1. rewrite bool_decide_eq_false_2
          by (apply Hbefore; left).
        apply IH. intros m'' Hm''. apply Hbefore. by right. }
    destruct text, (NewIntervention.location m); split; reflexivity.
Qed.

Lemma generate_request_body_witness :
  let b := Sample.ready in
  let edits := [NewIntervention.SelectMachine "M2";
                NewIntervention.ChangeDescription "fuga";
                NewIntervention.DataAvailable "c1"] in
  let url := Sample.dataUrl in
  let text := JsString "fuga de óleo na bomba" in
  let p := page (NewIntervention.session b) in
  (NewIntervention.pending b = []
   ∧ NewIntervention.mic_disabled p = false
   ∧ NewIntervention.isRecording p = false
   ∧ Forall (λ e, NewIntervention.quiet e = true) edits)
  ∧
  let b' := NewIntervention.run b
              ([NewIntervention.Click;
                NewIntervention.Settle 0 (NewIntervention.Media (Normal tt))]
               ++ edits
               ++ [NewIntervention.Click;
                   NewIntervention.Settle 0 NewIntervention.StopEvent;
                   NewIntervention.Settle 0 (NewIntervention.Read (Some url));
                   NewIntervention.Settle 0 (NewIntervention.Answer (Data text))]) in
  ∃ body : JsObject,
    NewInterventionView.invoke_bodies "generate-solution"
      (trace (world (NewIntervention.session b')))
    = NewInterventionView.invoke_bodies "generate-solution"
        (trace (world (NewIntervention.session b))) ++ [body]
    ∧ property body "problemDescription" = text
    ∧ ((∀ m, m ∈ NewIntervention.machines p →
          NewIntervention.id m ≠ NewIntervention.selectedMachine p) →
       property body "machineName" = JsUndefined
       ∧ property body "machineLocation" = JsUndefined)
    ∧ (∀ before m after,
         NewIntervention.machines p = before ++ m :: after →
         NewIntervention.id m = NewIntervention.selectedMachine p →
         (∀ m', m' ∈ before →
            NewIntervention.id m' ≠ NewIntervention.selectedMachine p) →
         property body "machineName" = JsString (NewIntervention.model m)
         ∧ property body "machineLocation"
           = of_nullable (NewIntervention.location m)).
Proof.
  intros b edits url text p.
  assert (H1 : NewIntervention.pending b = []) by (vm_compute; reflexivity).
  assert (H2 : NewIntervention.mic_disabled p = false) by (vm_compute; reflexivity).
  assert (H3 : NewIntervention.isRecording p = false) by (vm_compute; reflexivity).
  assert (H4 : Forall (λ e, NewIntervention.quiet e = true) edits)
    by (repeat constructor).
  split; [exact (conj H1 (conj H2 (conj H3 H4)))|].
  exact (generate_request_body edits url text b H1 H2 H3 H4).
Defined.

(** In that example another machine is picked while the recorder is
    running: the page shows it as selected when the request is made, and
    the request names the machine selected when the recording started. *)
Example request_names_the_machine_selected_at_the_start :
  let b' := NewIntervention.run Sample.ready
              ([NewIntervention.Click;
                NewIntervention.Settle 0 (NewIntervention.Media (Normal tt));
                NewIntervention.SelectMachine "M2";
                NewIntervention.ChangeDescription "fuga";
                NewIntervention.DataAvailable "c1";
                NewIntervention.Click;
                NewIntervention.Settle 0 NewIntervention.StopEvent;
                NewIntervention.Settle 0 (NewIntervention.Read (Some Sample.dataUrl));
                NewIntervention.Settle 0
                  (NewIntervention.Answer (Data (JsString "fuga de óleo na bomba")))]) in
  NewIntervention.selectedMachine (page (NewIntervention.session b')) = "M2"
  ∧ (λ body, property body "machineName") <$>
      NewInterventionView.invoke_bodies "generate-solution"
        (trace (world (NewIntervention.session b')))
    = [JsString "Prensa P-200"].
Proof. vm_compute. split; reflexivity. Qed.

(** ** What stays pending *)

Lemma elem_of_delete_other {A} (l : list A) (i : nat) (x t : A) :
  x ∈ l → l !! i = Some t → x ≠ t → x ∈ delete i l.
Proof.
  intros Hx Hi Hne. apply list_elem_of_lookup in Hx as [j Hj].
  apply list_elem_of_lookup.
  destruct (decide (j < i)%nat) as [Hlt|Hge].
  - exists j. by rewrite list_lookup_delete_lt.
  - assert (j ≠ i) by (intros ->; congruence).
    exists (pred j). rewrite list_lookup_delete_ge by lia.
    replace (S (pred j)) with j by lia. exact Hj.
Qed.

Lemma step_stop_pending (b : NewIntervention.Browser) (e : NewIntervention.Event) :
  NewIntervention.stop_pending b →
  NewIntervention.stop_pending (NewIntervention.step b e).
Proof.
  destruct b as [[pg wd] pend]. unfold NewIntervention.stop_pending. simpl.
  intros Hinv.
  destruct e as [|v|v|v|[ms|] [ts|]|data|i o]; simpl;
    unfold NewIntervention.dispatch; simpl; try exact Hinv.
  - unfold NewIntervention.click, bind, get_page. simpl.
    destruct (NewIntervention.mic_disabled pg); simpl; [exact Hinv|].
    destruct (NewIntervention.isRecording pg) eqn:Hrec; simpl.
    + unfold NewIntervention.stopRecording, bind, get_page. simpl.
      destruct (NewIntervention.mediaRecorderRef pg) as [c|]; simpl.
      * rewrite Hrec. simpl. intros _ _. exists c. set_solver.
      * rewrite Hrec. intros _ ?. discriminate.
    + intros Hs _. destruct (Hinv Hs eq_refl) as [c Hc]. exists c. set_solver.
  - unfold NewIntervention.ondataavailable.
    destruct (bool_decide _); simpl; exact Hinv.
  - destruct (pend !! i) as [t|] eqn:Hi; [|exact Hinv].
    destruct t as [c|c|c|c|], o as [media| |reader|result]; simpl; try exact Hinv.
    + destruct media as [[]|err]; simpl; [discriminate|].
      intros Hs Hr. destruct (Hinv Hs Hr) as [c' Hc']. exists c'.
      by apply (elem_of_delete_other _ _ _ _ Hc' Hi).
    + discriminate.
    + destruct reader as [url|]; simpl; [|discriminate].
      intros Hs Hr. destruct (Hinv Hs Hr) as [c' Hc']. exists c'.
      apply elem_of_app. left. by apply (elem_of_delete_other _ _ _ _ Hc' Hi).
    + destruct result as [text| |err]; simpl; discriminate.
    + destruct result as [text| |err]; simpl; discriminate.
Qed.

(** X29: a stopped recorder has its [stop] event pending.  Whatever has
    happened since the page was mounted, whenever it shows the recording
    step with nothing being recorded (the state [stopRecording] leaves
    until [onstop] runs, in which the microphone button is enabled and
    bound to [startRecording]), some recorder's [stop] event is still to
    be dispatched: [processAudio] will run and put the pipeline in the
    transcribing state. *)
Theorem stopped_recorder_awaits_its_stop_event (w : World)
    (events : list NewIntervention.Event) :
  let b := NewIntervention.run (NewIntervention.mount w) events in
  NewIntervention.processingStep (page (NewIntervention.session b))
    = NewIntervention.recording →
  NewIntervention.isRecording (page (NewIntervention.session b)) = false →
  NewIntervention.mic_disabled (page (NewIntervention.session b)) = false
  ∧ ∃ render, NewIntervention.AwaitingStop render ∈ NewIntervention.pending b.
Proof.
  assert (Hrun : ∀ events b, NewIntervention.stop_pending b →
                 NewIntervention.stop_pending (NewIntervention.run b events)).
  { clear. induction events as [|e events IH]; intros b Hb; [exact Hb|].
    simpl. apply IH. by apply step_stop_pending. }
  intros b Hs Hr. split.
  - unfold NewIntervention.mic_disabled. by rewrite Hs.
  - apply (Hrun events (NewIntervention.mount w)); [|exact Hs|exact Hr].
    intros Hs'. discriminate.
Qed.

Lemma stopped_recorder_awaits_its_stop_event_witness :
  let w := Sample.world0 in
  let events := [NewIntervention.Click;
                 NewIntervention.Settle 0 (NewIntervention.Media (Normal tt));
                 NewIntervention.DataAvailable "c1";
                 NewIntervention.Click] in
  let b := NewIntervention.run (NewIntervention.mount w) events in
  (NewIntervention.processingStep (page (NewIntervention.session b))
     = NewIntervention.recording
   ∧ NewIntervention.isRecording (page (NewIntervention.session b)) = false)
  ∧ NewIntervention.mic_disabled (page (NewIntervention.session b)) = false
  ∧ ∃ render, NewIntervention.AwaitingStop render ∈ NewIntervention.pending b.
Proof.
  intros w events b.
  assert (H1 : NewIntervention.processingStep (page (NewIntervention.session b))
               = NewIntervention.recording) by (vm_compute; reflexivity).
  assert (H2 : NewIntervention.isRecording (page (NewIntervention.session b)) = false)
    by (vm_compute; reflexivity).
  split; [exact (conj H1 H2)|].
  exact (stopped_recorder_awaits_its_stop_event w events H1 H2).
Defined.

Lemma split_on_absent (c : ascii) (s : string) :
  NewInterventionView.occurs c s = false → split_on c s = [s].
Proof.
  induction s as [|c' s IH]; simpl; [reflexivity|].
  intros H. apply orb_false_elim in H as [Hc Hs].
  rewrite Hc, (IH Hs). reflexivity.
Qed.

Lemma split_on_first (c : ascii) (a b : string) :
  NewInterventionView.occurs c a = false →
  split_on c (a +:+ String c b) = a :: split_on c b.
Proof.
  induction a as [|c' a IH]; simpl.
  - intros _. by rewrite Ascii.eqb_refl.
  - intros H. apply orb_false_elim in H as [Hc Ha].
    rewrite Hc, (IH Ha). reflexivity.
Qed.

(** X8: the audio sent to transcribe-audio is the data URL without its
    prefix: for a data URL made of a comma-free prefix, a comma and a
    comma-free payload, the request body is exactly [{ audio: payload }].
    When the reader's result holds no comma at all, the function is still
    invoked, with no [audio] property. *)
Theorem transcribe_request_body (render : NewIntervention.Closure)
    (header payload : string)
    (transcribe generate : InvokeResult) (σ : Session NewIntervention.Page) :
  NewInterventionView.occurs ","%char header = false →
  NewInterventionView.occurs ","%char payload = false →
  (let σ' := exec (NewIntervention.processAudio render
                     (Some (header +:+ String ","%char payload))
                     transcribe generate) σ in
   NewInterventionView.invoke_bodies "transcribe-audio" (trace (world σ'))
   = NewInterventionView.invoke_bodies "transcribe-audio" (trace (world σ))
     ++ [{[ "audio" := Some payload ]}])
  ∧ (let σ' := exec (NewIntervention.processAudio render (Some header)
                       transcribe generate) σ in
     NewInterventionView.invoke_bodies "transcribe-audio" (trace (world σ'))
     = NewInterventionView.invoke_bodies "transcribe-audio" (trace (world σ)) ++ [∅]).
Proof.
  intros Hh Hp.
  assert (Hgen : ∀ url,
    NewInterventionView.invoke_bodies "transcribe-audio"
      (trace (world (exec (NewIntervention.processAudio render (Some url)
                             transcribe generate) σ)))
    = NewInterventionView.invoke_bodies "transcribe-audio" (trace (world σ)) ++
      [object [("audio", element (split_on ","%char url) 1)]]).
  { intros url. destruct σ as [pg wd].
    unfold exec, NewIntervention.processAudio, try_catch, bind, throw, ret, emit,
      get_page, NewIntervention.setProcessingStep, NewIntervention.setAiSolution,
      NewIntervention.setProblemDescription, set_page. simpl.
    destruct transcribe as [text| |e]; [destruct generate as [solution| |e]| |];
      simpl; rewrite !invoke_bodies_app; simpl; rewrite ?app_nil_r; reflexivity. }
  split; simpl; rewrite Hgen.
  - rewrite (split_on_first _ _ _ Hh), (split_on_absent _ _ Hp). reflexivity.
  - rewrite (split_on_absent _ _ Hh). reflexivity.
Qed.

Lemma transcribe_request_body_witness :
  let render := NewIntervention.closure Sample.form in
  let header := "data:audio/webm;base64" in
  let payload := "GkXfo59ChoEB" in
  let transcribe := Data (JsString "motor faz ruído anómalo") in
  let generate := Data (JsString "1. Diagnóstico") in
  let σ := Sample.blank in
  (NewInterventionView.occurs ","%char header = false
   ∧ NewInterventionView.occurs ","%char payload = false)
  ∧ (let σ' := exec (NewIntervention.processAudio render
                     (Some (header +:+ String ","%char payload))
                     transcribe generate) σ in
   NewInterventionView.invoke_bodies "transcribe-audio" (trace (world σ'))
   = NewInterventionView.invoke_bodies "transcribe-audio" (trace (world σ))
     ++ [{[ "audio" := Some payload ]}])
  ∧ (let σ' := exec (NewIntervention.processAudio render (Some header)
                       transcribe generate) σ in
     NewInterventionView.invoke_bodies "transcribe-audio" (trace (world σ'))
     = NewInterventionView.invoke_bodies "transcribe-audio" (trace (world σ)) ++ [∅]).
Proof.
  intros render header payload transcribe generate σ.
  assert (H1 : NewInterventionView.occurs ","%char header = false) by reflexivity.
  assert (H2 : NewInterventionView.occurs ","%char payload = false) by reflexivity.
  split; [exact (conj H1 H2)|].
  exact (transcribe_request_body render header payload transcribe generate σ H1 H2).
Defined.

(** ** The list page *)

Lemma includes_empty (s : string) : Interventions.includes s EmptyString = true.
Proof. destruct s; reflexivity. Qed.

(** X9: a record with no description whose machine and technician are not
    among the loaded names is never listed, whatever is typed in the
    search box (nothing included) and whichever status filter is chosen. *)
Theorem record_without_text_is_hidden
    (toLowerCase : string → string) (p : Interventions.Page)
    (intervention : Store.InterventionRow) :
  Store.problem_description intervention = None →
  Interventions.machines p !! default EmptyString (Store.machine_id intervention)
    = None →
  Interventions.technicians p !! default EmptyString (Store.technician_id intervention)
    = None →
  Interventions.shown toLowerCase p intervention = false
  ∧ intervention ∉ Interventions.filteredInterventions toLowerCase p.
Proof.
  intros Hd Hm Ht.
  assert (Hshown : Interventions.shown toLowerCase p intervention = false).
  { unfold Interventions.shown, Interventions.matchesSearch,
      Interventions.lower_includes. rewrite Hd, Hm, Ht. reflexivity. }
  split; [exact Hshown|].
  unfold Interventions.filteredInterventions. intros Hin.
  apply list_elem_of_In, List.filter_In in Hin as [_ Hin]. congruence.
Qed.

Lemma record_without_text_is_hidden_witness :
  let p := {| Interventions.interventions :=
                [InterventionDetail.with_status Sample.row1 "pending"];
              Interventions.machines := {[ "M1" := "Prensa P-200" ]};
              Interventions.technicians := {[ "T1" := "Ana" ]};
              Interventions.search := EmptyString;
              Interventions.statusFilter := "all";
              Interventions.loading := false |} in
  let intervention :=
    {| Store.id := "I9"; Store.technician_id := None; Store.machine_id := Some "M7";
       Store.problem_description := None; Store.audio_url := None;
       Store.ai_solution := None; Store.status := Some "pending";
       Store.priority := Some "medium";
       Store.created_at := "2024-05-01T09:00:00.000Z";
       Store.updated_at := "2024-05-01T09:00:00.000Z";
       Store.resolved_at := None |} in
  (Store.problem_description intervention = None
   ∧ Interventions.machines p !! default EmptyString (Store.machine_id intervention)
     = None
   ∧ Interventions.technicians p
       !! default EmptyString (Store.technician_id intervention) = None)
  ∧ Interventions.shown Interventions.lower p intervention = false
  ∧ intervention ∉ Interventions.filteredInterventions Interventions.lower p.
Proof.
  intros p intervention.
  assert (H1 : Store.problem_description intervention = None) by reflexivity.
  assert (H2 : Interventions.machines p
                 !! default EmptyString (Store.machine_id intervention) = None)
    by (vm_compute; reflexivity).
  assert (H3 : Interventions.technicians p
                 !! default EmptyString (Store.technician_id intervention) = None)
    by (vm_compute; reflexivity).
  split; [exact (conj H1 (conj H2 H3))|].
  exact (record_without_text_is_hidden Interventions.lower p intervention H1 H2 H3).
Defined.

(** X10: with an empty search box (and a lower-casing that maps the empty
    string to itself) and the filter on "all", the page lists, in their
    order, exactly the records that have a description, or a machine among
    the loaded names, or a technician among the loaded names. *)
Theorem empty_search_lists_records_with_text
    (toLowerCase : string → string) (p : Interventions.Page) :
  toLowerCase EmptyString = EmptyString →
  Interventions.search p = EmptyString →
  Interventions.statusFilter p = "all" →
  Interventions.filteredInterventions toLowerCase p =
  List.filter
    (λ intervention,
       bool_decide (is_Some (Store.problem_description intervention))
       || bool_decide (is_Some (Interventions.machines p
            !! default EmptyString (Store.machine_id intervention)))
       || bool_decide (is_Some (Interventions.technicians p
            !! default EmptyString (Store.technician_id intervention))))
    (Interventions.interventions p).
Proof.
  intros Hlow Hsearch Hall. unfold Interventions.filteredInterventions.
  apply List.filter_ext. intros iv.
  unfold Interventions.shown, Interventions.matchesSearch,
    Interventions.matchesStatus, Interventions.lower_includes.
  rewrite Hsearch, Hall, Hlow.
  destruct (Store.problem_description iv),
    (Interventions.machines p !! _), (Interventions.technicians p !! _);
    simpl; rewrite ?includes_empty; reflexivity.
Qed.

Lemma empty_search_lists_records_with_text_witness :
  let p := {| Interventions.interventions :=
                [Sample.row1; InterventionDetail.with_status Sample.row1 "resolved"];
              Interventions.machines := {[ "M1" := "Prensa P-200" ]};
              Interventions.technicians := {[ "T1" := "Ana" ]};
              Interventions.search := EmptyString;
              Interventions.statusFilter := "all";
              Interventions.loading := false |} in
  (Interventions.lower EmptyString = EmptyString
   ∧ Interventions.search p = EmptyString
   ∧ Interventions.statusFilter p = "all")
  ∧ Interventions.filteredInterventions Interventions.lower p =
  List.filter
    (λ intervention,
       bool_decide (is_Some (Store.problem_description intervention))
       || bool_decide (is_Some (Interventions.machines p
            !! default EmptyString (Store.machine_id intervention)))
       || bool_decide (is_Some (Interventions.technicians p
            !! default EmptyString (Store.technician_id intervention))))
    (Interventions.interventions p).
Proof.
  intros p.
  assert (H1 : Interventions.lower EmptyString = EmptyString) by reflexivity.
  assert (H2 : Interventions.search p = EmptyString) by reflexivity.
  assert (H3 : Interventions.statusFilter p = "all") by reflexivity.
  split; [exact (conj H1 (conj H2 H3))|].
  exact (empty_search_lists_records_with_text Interventions.lower p H1 H2 H3).
Defined.

(** X11: what the search box matches.  A record is listed exactly when
    its status passes the filter and the lower-cased search text occurs
    in the lower-cased description, machine name or technician name, among
    those of the three the page has for the record; a missing one is
    skipped, and the order in which the three are tried plays no role. *)
Theorem search_matches_any_field
    (toLowerCase : string → string) (p : Interventions.Page)
    (intervention : Store.InterventionRow) :
  Interventions.shown toLowerCase p intervention = true ↔
  Interventions.matchesStatus p intervention = true
  ∧ ∃ text,
      (Store.problem_description intervention = Some text
       ∨ Interventions.machines p
           !! default EmptyString (Store.machine_id intervention) = Some text
       ∨ Interventions.technicians p
           !! default EmptyString (Store.technician_id intervention) = Some text)
      ∧ Interventions.includes (toLowerCase text)
          (toLowerCase (Interventions.search p)) = true.
Proof.
  unfold Interventions.shown, Interventions.matchesSearch,
    Interventions.lower_includes.
  destruct (Store.problem_description intervention) as [d|];
    destruct (Interventions.machines p !! _) as [m|];
    destruct (Interventions.technicians p !! _) as [t|]; simpl;
    repeat match goal with
           | |- context [Interventions.includes ?a ?b] =>
             destruct (Interventions.includes a b) eqn:?; simpl
           end;
    (split;
     [intros H; try discriminate; (split; [exact H|]); eauto 6
     |intros (H & text & Hsrc & Hinc); try exact H;
      destruct Hsrc as [Hs|[Hs|Hs]]; try discriminate;
      injection Hs as ->; congruence]).
Qed.

(** A record found through its machine's name, typed in capitals. *)
Example search_finds_by_machine_name :
  Interventions.filteredInterventions Interventions.lower
    {| Interventions.interventions := [Sample.row1];
       Interventions.machines := {[ "M1" := "Prensa P-200" ]};
       Interventions.technicians := {[ "T1" := "Ana" ]};
       Interventions.search := "PRENSA";
       Interventions.statusFilter := "pending";
       Interventions.loading := false |}
  = [Sample.row1].
Proof. vm_compute. reflexivity. Qed.

Lemma index_by_snoc {A} (key value : A → string) (rows : list A) (row : A) :
  Interventions.index_by key value (rows ++ [row])
  = <[key row := value row]> (Interventions.index_by key value rows).
Proof. unfold Interventions.index_by. by rewrite foldl_app. Qed.

Lemma index_by_lookup {A} (key value : A → string) (rows : list A) (k : string) :
  Interventions.index_by key value rows !! k
  = value <$> list.last (List.filter (λ row, bool_decide (key row = k)) rows).
Proof.
  induction rows as [|row rows IH] using rev_ind; [reflexivity|].
  rewrite index_by_snoc, List.filter_app. simpl.
  case_bool_decide as Hk.
  - subst k. rewrite lookup_insert_eq, last_snoc. reflexivity.
  - rewrite lookup_insert_ne by done. rewrite app_nil_r. exact IH.
Qed.

(** X12: after [fetchData] the page's name maps send an id to the model
    (or name) of the last fetched row with that id, and to nothing when no
    fetched row has it; an answer without data empties the map, whatever
    it held before.  The loading flag is cleared and the search box and
    filter are kept. *)
Theorem fetchData_name_maps
    (interventionsData : option (list Store.InterventionRow))
    (machinesData : option (list Store.MachineRow))
    (techniciansData : option (list Store.TechnicianRow))
    (p : Interventions.Page) (k : string) :
  let p' := Interventions.fetchData interventionsData machinesData techniciansData p in
  Interventions.machines p' !! k
    = Store.m_model <$> list.last (List.filter (λ row, bool_decide (Store.m_id row = k))
                                (default [] machinesData))
  ∧ Interventions.technicians p' !! k
    = Store.t_name <$> list.last (List.filter (λ row, bool_decide (Store.t_id row = k))
                               (default [] techniciansData))
  ∧ (machinesData = None → Interventions.machines p' = ∅)
  ∧ (techniciansData = None → Interventions.technicians p' = ∅)
  ∧ (interventionsData = None →
     Interventions.interventions p' = Interventions.interventions p)
  ∧ Interventions.loading p' = false
  ∧ Interventions.search p' = Interventions.search p
  ∧ Interventions.statusFilter p' = Interventions.statusFilter p.
Proof.
  intros p'. subst p'. simpl. split_and!; try reflexivity.
  - apply index_by_lookup.
  - apply index_by_lookup.
  - by intros ->.
  - by intros ->.
  - by intros ->.
Qed.

(** ** The detail page: loading *)

(** X13: when the record cannot be read (the request fails, or no row has
    the id), [fetchData] makes no further request, logs the error and
    navigates back to the list; the page keeps what it held, with the
    loading flag cleared, and the database is untouched. *)
Theorem fetchData_failure_navigates_back
    (srv srvM srvT : Store.Server) (k : string)
    (σ : Session InterventionDetail.Page) :
  Store.available srv = false ∨ Store.interventions (db (world σ)) !! k = None →
  let σ' := exec (InterventionDetail.fetchData srv srvM srvT k) σ in
  InterventionDetail.intervention (page σ') = InterventionDetail.intervention (page σ)
  ∧ InterventionDetail.machine (page σ') = InterventionDetail.machine (page σ)
  ∧ InterventionDetail.technician (page σ') = InterventionDetail.technician (page σ)
  ∧ InterventionDetail.loading (page σ') = false
  ∧ db (world σ') = db (world σ)
  ∧ trace (world σ') = trace (world σ) ++
      [StoreSelect "interventions" k;
       ConsoleError "Error fetching intervention:";
       Navigate "/interventions"].
Proof.
  destruct σ as [pg wd]. simpl. intros Hfail.
  unfold exec, InterventionDetail.fetchData, finally, try_catch, bind,
    emit, get_db. simpl.
  destruct (select_single_cases srv (Store.interventions (db wd)) k)
    as [[e ->]|(r & Hav & Hr & _)]; simpl.
  - rewrite <- !app_assoc. done.
  - destruct Hfail; congruence.
Qed.

Lemma fetchData_failure_navigates_back_witness :
  let σ := {| page := InterventionDetail.initial; world := Sample.world1 |} in
  let k := "I404" in
  (Store.available Sample.srv1 = false
   ∨ Store.interventions (db (world σ)) !! k = None)
  ∧
  let σ' := exec (InterventionDetail.fetchData Sample.srv1 Sample.srv1 Sample.srv1 k) σ in
  InterventionDetail.intervention (page σ') = InterventionDetail.intervention (page σ)
  ∧ InterventionDetail.machine (page σ') = InterventionDetail.machine (page σ)
  ∧ InterventionDetail.technician (page σ') = InterventionDetail.technician (page σ)
  ∧ InterventionDetail.loading (page σ') = false
  ∧ db (world σ') = db (world σ)
  ∧ trace (world σ') = trace (world σ) ++
      [StoreSelect "interventions" k;
       ConsoleError "Error fetching intervention:";
       Navigate "/interventions"].
Proof.
  intros σ k.
  assert (H : Store.available Sample.srv1 = false
              ∨ Store.interventions (db (world σ)) !! k = None)
    by (right; vm_compute; reflexivity).
  split; [exact H|].
  exact (fetchData_failure_navigates_back Sample.srv1 Sample.srv1 Sample.srv1 k σ H).
Defined.

Lemma select_single_data {A} (srv : Store.Server) (t : gmap string A) (k : string) :
  (Store.select_single srv t k).1 = if Store.available srv then t !! k else None.
Proof.
  unfold Store.select_single. destruct (Store.available srv); simpl; [|reflexivity].
  destruct (t !! k); reflexivity.
Qed.

(** X14: when the record is read, [fetchData] shows it and never
    navigates away, whatever becomes of the two follow-up requests: a
    machine or technician that cannot be read (request failed, row gone)
    is simply shown as missing.  A follow-up request is made only for a
    non-empty reference; without one the page keeps the machine or
    technician it held. *)
Theorem fetchData_tolerates_missing_references
    (srv srvM srvT : Store.Server) (k : string)
    (σ : Session InterventionDetail.Page) (r : Store.InterventionRow) :
  Store.available srv = true →
  Store.interventions (db (world σ)) !! k = Some r →
  let d := db (world σ) in
  let σ' := exec (InterventionDetail.fetchData srv srvM srvT k) σ in
  InterventionDetail.intervention (page σ') = Some r
  ∧ InterventionDetail.loading (page σ') = false
  ∧ InterventionDetail.machine (page σ') =
    (if truthy (Store.machine_id r) then
       if Store.available srvM
       then Store.machines d !! default EmptyString (Store.machine_id r)
       else None
     else InterventionDetail.machine (page σ))
  ∧ InterventionDetail.technician (page σ') =
    (if truthy (Store.technician_id r) then
       if Store.available srvT
       then Store.technicians d !! default EmptyString (Store.technician_id r)
       else None
     else InterventionDetail.technician (page σ))
  ∧ db (world σ') = d
  ∧ trace (world σ') = trace (world σ) ++
      [StoreSelect "interventions" k] ++
      (if truthy (Store.machine_id r)
       then [StoreSelect "machines" (default EmptyString (Store.machine_id r))]
       else []) ++
      (if truthy (Store.technician_id r)
       then [StoreSelect "technicians" (default EmptyString (Store.technician_id r))]
       else []).
Proof.
  destruct σ as [pg wd]. simpl. intros Hav Hr.
  unfold exec, InterventionDetail.fetchData, finally, try_catch, bind,
    emit, get_db. simpl.
  destruct (select_single_cases srv (Store.interventions (db wd)) k)
    as [[e He]|(r0 & _ & Hr0 & ->)]; simpl.
  - unfold Store.select_single in He. rewrite Hav, Hr in He. discriminate.
  - assert (r0 = r) as -> by congruence.
    destruct (truthy (Store.machine_id r)), (truthy (Store.technician_id r));
      simpl; rewrite ?select_single_data, <- ?app_assoc, ?app_nil_r; done.
Qed.

Lemma fetchData_tolerates_missing_references_witness :
  let σ := {| page := InterventionDetail.initial; world := Sample.world1 |} in
  let k := "I1" in
  let r := Sample.row1 in
  let srv := Sample.srv1 in
  let srvM := Sample.offline in
  let srvT := Sample.srv1 in
  (Store.available srv = true
   ∧ Store.interventions (db (world σ)) !! k = Some r)
  ∧
  let d := db (world σ) in
  let σ' := exec (InterventionDetail.fetchData srv srvM srvT k) σ in
  InterventionDetail.intervention (page σ') = Some r
  ∧ InterventionDetail.loading (page σ') = false
  ∧ InterventionDetail.machine (page σ') =
    (if truthy (Store.machine_id r) then
       if Store.available srvM
       then Store.machines d !! default EmptyString (Store.machine_id r)
       else None
     else InterventionDetail.machine (page σ))
  ∧ InterventionDetail.technician (page σ') =
    (if truthy (Store.technician_id r) then
       if Store.available srvT
       then Store.technicians d !! default EmptyString (Store.technician_id r)
       else None
     else InterventionDetail.technician (page σ))
  ∧ db (world σ') = d
  ∧ trace (world σ') = trace (world σ) ++
      [StoreSelect "interventions" k] ++
      (if truthy (Store.machine_id r)
       then [StoreSelect "machines" (default EmptyString (Store.machine_id r))]
       else []) ++
      (if truthy (Store.technician_id r)
       then [StoreSelect "technicians" (default EmptyString (Store.technician_id r))]
       else []).
Proof.
  intros σ k r srv srvM srvT.
  assert (H1 : Store.available srv = true) by reflexivity.
  assert (H2 : Store.interventions (db (world σ)) !! k = Some r)
    by (vm_compute; reflexivity).
  split; [exact (conj H1 H2)|].
  exact (fetchData_tolerates_missing_references srv srvM srvT k σ r H1 H2).
Defined.

(** ** The detail page: status changes *)

(** X15: what [updateStatus] leaves alone.  It never changes the machines
    or technicians tables nor any row other than the one the page shows;
    whatever row was stored under a key is still there afterwards with the
    same id, creation time, machine, technician, description, audio
    reference, AI solution and priority; and it makes at most one store
    call, an update keyed by the shown record's id (none when the page
    shows no record). *)
Theorem updateStatus_frame (srv : Store.Server) (clock newStatus : string)
    (σ : Session InterventionDetail.Page) :
  let σ' := exec (InterventionDetail.updateStatus srv clock newStatus) σ in
  Store.machines (db (world σ')) = Store.machines (db (world σ))
  ∧ Store.technicians (db (world σ')) = Store.technicians (db (world σ))
  ∧ (∀ k, (∀ iv, InterventionDetail.intervention (page σ) = Some iv →
                 k ≠ Store.id iv) →
          Store.interventions (db (world σ')) !! k
          = Store.interventions (db (world σ)) !! k)
  ∧ (∀ k r, Store.interventions (db (world σ)) !! k = Some r →
            ∃ r', Store.interventions (db (world σ')) !! k = Some r'
                  ∧ Records.same_particulars r r')
  ∧ store_calls (trace (world σ')) =
    store_calls (trace (world σ)) ++
    match InterventionDetail.intervention (page σ) with
    | Some iv =>
      [StoreUpdate "interventions"
         (InterventionDetail.updateData clock newStatus) (Store.id iv)]
    | None => []
    end.
Proof.
  intros σ'. subst σ'. unfold exec. rewrite updateStatus_eq. simpl.
  assert (Hsame : ∀ r, Records.same_particulars r r) by (intros r; by repeat split).
  destruct (InterventionDetail.intervention (page σ)) as [iv|].
  2:{ rewrite app_nil_r. split_and!; try done. intros k r Hr. eauto. }
  destruct (update_cases srv (InterventionDetail.updateData clock newStatus)
              (Store.id iv) (db (world σ)))
    as [[e ->]|[[_ ->]|(r0 & Hr0 & ->)]]; simpl;
    rewrite !store_calls_app; simpl; rewrite ?app_nil_r.
  - split_and!; try done. intros k r Hr. eauto.
  - split_and!; try done. intros k r Hr. eauto.
  - split_and!; try done.
    + intros k Hk. apply lookup_insert_ne. intros Heq.
      by apply (Hk iv eq_refl).
    + intros k r Hr. destruct (decide (k = Store.id iv)) as [->|Hne].
      * rewrite lookup_insert_eq. eexists. split; [reflexivity|].
        assert (r0 = r) as -> by congruence.
        rewrite patched_updateData. by repeat split.
      * rewrite lookup_insert_ne by done. eauto.
Qed.

Lemma update_check_violation (srv : Store.Server) (clock newStatus : string)
    (key : string) (d : Store.DB) (r : Store.InterventionRow) :
  Store.interventions d !! key = Some r →
  newStatus ∉ Store.status_values →
  ∃ e, Store.update srv (InterventionDetail.updateData clock newStatus) key d
       = (d, Some e).
Proof.
  intros Hr Hbad. unfold Store.update.
  destruct (Store.available srv); simpl; [|by eauto].
  rewrite updateData_columns, Hr.
  unfold Store.constraints. rewrite patched_updateData. simpl.
  rewrite bool_decide_eq_false_2 by done. simpl. eauto.
Qed.

(** X16: a status outside pending, in_progress, resolved and cancelled is
    never stored: for a persisted record, [updateStatus] with such a
    target leaves the database and the page's copy as they were and shows
    the error toast. *)
Theorem updateStatus_rejects_unknown_status
    (srv : Store.Server) (clock newStatus : string)
    (σ : Session InterventionDetail.Page) (iv r : Store.InterventionRow) :
  InterventionDetail.intervention (page σ) = Some iv →
  Store.interventions (db (world σ)) !! Store.id iv = Some r →
  newStatus ∉ Store.status_values →
  let σ' := exec (InterventionDetail.updateStatus srv clock newStatus) σ in
  db (world σ') = db (world σ)
  ∧ InterventionDetail.intervention (page σ') = Some iv
  ∧ toasts (trace (world σ')) = toasts (trace (world σ)) ++
      [(ToastDestructive, "Erro", "Não foi possível atualizar o estado.")].
Proof.
  intros Hiv Hr Hbad σ'. subst σ'. unfold exec. rewrite updateStatus_eq. simpl.
  rewrite Hiv.
  destruct (update_check_violation srv clock newStatus (Store.id iv)
              (db (world σ)) r Hr Hbad) as [e ->].
  simpl. rewrite !toasts_app. simpl. rewrite app_nil_r. done.
Qed.

Lemma updateStatus_rejects_unknown_status_witness :
  let σ := Sample.detail1 in
  let srv := Sample.srv2 in
  let clock := "2024-05-01T10:00:00.123Z" in
  let newStatus := "done" in
  let iv := Sample.row1 in
  let r := Sample.row1 in
  (InterventionDetail.intervention (page σ) = Some iv
   ∧ Store.interventions (db (world σ)) !! Store.id iv = Some r
   ∧ newStatus ∉ Store.status_values)
  ∧
  let σ' := exec (InterventionDetail.updateStatus srv clock newStatus) σ in
  db (world σ') = db (world σ)
  ∧ InterventionDetail.intervention (page σ') = Some iv
  ∧ toasts (trace (world σ')) = toasts (trace (world σ)) ++
      [(ToastDestructive, "Erro", "Não foi possível atualizar o estado.")].
Proof.
  intros σ srv clock newStatus iv r.
  assert (H1 : InterventionDetail.intervention (page σ) = Some iv)
    by (vm_compute; reflexivity).
  assert (H2 : Store.interventions (db (world σ)) !! Store.id iv = Some r)
    by (vm_compute; reflexivity).
  assert (H3 : newStatus ∉ Store.status_values)
    by (apply (bool_decide_unpack _); vm_compute; exact I).
  split; [exact (conj H1 (conj H2 H3))|].
  exact (updateStatus_rejects_unknown_status srv clock newStatus σ iv r H1 H2 H3).
Defined.

(** X17: when the shown record is no longer in the store and the request
    gets through, the update matches no row and reports no error:
    [updateStatus] changes nothing in the database, yet sets the page's
    copy to the requested status and shows the success toast. *)
Theorem updateStatus_on_vanished_record
    (srv : Store.Server) (clock newStatus : string)
    (σ : Session InterventionDetail.Page) (iv : Store.InterventionRow) :
  InterventionDetail.intervention (page σ) = Some iv →
  Store.interventions (db (world σ)) !! Store.id iv = None →
  Store.available srv = true →
  let σ' := exec (InterventionDetail.updateStatus srv clock newStatus) σ in
  db (world σ') = db (world σ)
  ∧ InterventionDetail.intervention (page σ')
    = Some (InterventionDetail.with_status iv newStatus)
  ∧ ∃ description,
      toasts (trace (world σ')) = toasts (trace (world σ)) ++
        [(ToastDefault, "Estado atualizado", description)].
Proof.
  intros Hiv Hr Hav σ'. subst σ'. unfold exec. rewrite updateStatus_eq. simpl.
  rewrite Hiv.
  assert (Store.update srv (InterventionDetail.updateData clock newStatus)
            (Store.id iv) (db (world σ)) = (db (world σ), None)) as ->.
  { unfold Store.update. rewrite Hav, updateData_columns, Hr. reflexivity. }
  simpl. split_and!; try done.
  eexists. rewrite !toasts_app. simpl. rewrite app_nil_r. reflexivity.
Qed.

Lemma updateStatus_on_vanished_record_witness :
  let σ := {| page := page Sample.detail1; world := Sample.world0 |} in
  let srv := Sample.srv2 in
  let clock := "2024-05-01T10:00:00.123Z" in
  let newStatus := "resolved" in
  let iv := Sample.row1 in
  (InterventionDetail.intervention (page σ) = Some iv
   ∧ Store.interventions (db (world σ)) !! Store.id iv = None
   ∧ Store.available srv = true)
  ∧
  let σ' := exec (InterventionDetail.updateStatus srv clock newStatus) σ in
  db (world σ') = db (world σ)
  ∧ InterventionDetail.intervention (page σ')
    = Some (InterventionDetail.with_status iv newStatus)
  ∧ ∃ description,
      toasts (trace (world σ')) = toasts (trace (world σ)) ++
        [(ToastDefault, "Estado atualizado", description)].
Proof.
  intros σ srv clock newStatus iv.
  assert (H1 : InterventionDetail.intervention (page σ) = Some iv)
    by (vm_compute; reflexivity).
  assert (H2 : Store.interventions (db (world σ)) !! Store.id iv = None)
    by (vm_compute; reflexivity).
  assert (H3 : Store.available srv = true) by reflexivity.
  split; [exact (conj H1 (conj H2 H3))|].
  exact (updateStatus_on_vanished_record srv clock newStatus σ iv H1 H2 H3).
Defined.

(** ** Records over the life of the database *)

Lemma insert_accepted (srv : Store.Server) (values : JsObject) (d d' : Store.DB) :
  Store.insert srv values d = (d', None) →
  Store.constraints d (Store.new_row srv values) = None
  ∧ Store.interventions d !! Store.gen_random_uuid srv = None
  ∧ d' = Store.with_interventions
           (<[Store.gen_random_uuid srv := Store.new_row srv values]>
              (Store.interventions d)) d.
Proof.
  unfold Store.insert.
  destruct (Store.available srv); simpl; [|discriminate].
  destruct (Store.undefined_column values); [discriminate|].
  destruct (Store.constraints d _); [discriminate|].
  simpl. destruct (Store.interventions d !! _) eqn:E; [discriminate|].
  intros [= <-]. done.
Qed.

Lemma update_accepted (srv : Store.Server) (values : JsObject) (key : string)
    (d d' : Store.DB) (r : Store.InterventionRow) :
  Store.interventions d !! key = Some r →
  Store.update srv values key d = (d', None) →
  Store.constraints d (Store.patched srv values r) = None
  ∧ d' = Store.with_interventions
           (<[key := Store.patched srv values r]> (Store.interventions d)) d.
Proof.
  intros Hr. unfold Store.update.
  destruct (Store.available srv); simpl; [|discriminate].
  destruct (Store.undefined_column values); [discriminate|].
  rewrite Hr. destruct (Store.constraints d _); [discriminate|].
  intros [= <-]. done.
Qed.

Lemma constraints_none (d : Store.DB) (r : Store.InterventionRow) :
  Store.constraints d r = None →
  Store.check_in Store.status_values (Store.status r) = true
  ∧ Store.check_in Store.priority_values (Store.priority r) = true
  ∧ Store.references (Store.technicians d) (Store.technician_id r) = true
  ∧ Store.references (Store.machines d) (Store.machine_id r) = true.
Proof.
  unfold Store.constraints.
  destruct (Store.check_in Store.status_values _); simpl; [|discriminate].
  destruct (Store.check_in Store.priority_values _); simpl; [|discriminate].
  destruct (Store.references (Store.technicians d) _); simpl; [|discriminate].
  destruct (Store.references (Store.machines d) _); simpl; [|discriminate].
  done.
Qed.

Lemma well_formed_tables (d d' : Store.DB) (k : string) (r : Store.InterventionRow) :
  Store.machines d' = Store.machines d →
  Store.technicians d' = Store.technicians d →
  Records.well_formed d k r → Records.well_formed d' k r.
Proof. unfold Records.well_formed. intros -> ->. done. Qed.

Lemma handleSave_well_formed (srv : Store.Server) (σ : Session NewIntervention.Page) :
  Records.all_well_formed (db (world σ)) →
  Records.all_well_formed (db (world (exec (NewIntervention.handleSave srv) σ))).
Proof.
  intros Hinv. rewrite handleSave_eq.
  destruct (falsy (NewIntervention.selectedMachine (page σ))) eqn:Hm;
    [exact Hinv|].
  destruct (falsy (NewIntervention.selectedTechnician (page σ))) eqn:Ht;
    [exact Hinv|].
  destruct (js_falsy (NewIntervention.problemDescription (page σ))) eqn:Hd;
    [exact Hinv|].
  simpl.
  apply js_falsy_false in Hd as (description & Hd & Hne).
  destruct (Store.insert srv _ _) as [d' [e|]] eqn:Hins.
  - destruct (insert_cases srv (NewIntervention.insert_values (page σ))
                (db (world σ))) as [[e' He]|[_ He]]; rewrite He in Hins.
    + injection Hins as <- _. exact Hinv.
    + discriminate.
  - destruct (insert_accepted _ _ _ _ Hins) as (Hc & Hfresh & Hd'). subst d'.
    apply constraints_none in Hc as (_ & _ & HT & HM).
    rewrite new_row_insert_values in HT, HM. simpl in HT, HM.
    apply bool_decide_eq_true in HT, HM.
    intros k r Hr. simpl in Hr.
    destruct (decide (k = Store.gen_random_uuid srv)) as [->|Hne'].
    + rewrite lookup_insert_eq in Hr. injection Hr as <-.
      rewrite new_row_insert_values, Hd. unfold Records.well_formed. simpl.
      split_and!; try done.
      * eexists. split; [reflexivity|]. set_solver.
      * eexists. split_and!; [reflexivity| |done].
        intros E. apply falsy_true in E. congruence.
      * eexists. split_and!; [reflexivity| |done].
        intros E. apply falsy_true in E. congruence.
      * by eexists.
    + rewrite lookup_insert_ne in Hr by done.
      apply (well_formed_tables (db (world σ))); [done|done|]. by apply Hinv.
Qed.

Lemma updateStatus_well_formed (srv : Store.Server) (clock newStatus : string)
    (σ : Session InterventionDetail.Page) :
  Records.all_well_formed (db (world σ)) →
  Records.all_well_formed
    (db (world (exec (InterventionDetail.updateStatus srv clock newStatus) σ))).
Proof.
  intros Hinv. unfold exec. rewrite updateStatus_eq. simpl.
  destruct (InterventionDetail.intervention (page σ)) as [iv|]; [|exact Hinv].
  destruct (Store.update srv _ _ _) as [d' [e|]] eqn:Hupd.
  - destruct (update_cases srv (InterventionDetail.updateData clock newStatus)
                (Store.id iv) (db (world σ)))
      as [[e' He]|[[_ He]|(r0 & _ & He)]]; rewrite He in Hupd;
      [|discriminate|discriminate].
    injection Hupd as <- _. exact Hinv.
  - destruct (Store.interventions (db (world σ)) !! Store.id iv) as [r0|] eqn:Hr0.
    + destruct (update_accepted _ _ _ _ _ r0 Hr0 Hupd) as (Hc & Hd'). subst d'.
      apply constraints_none in Hc as (Hst & _).
      rewrite patched_updateData in Hst. simpl in Hst.
      apply bool_decide_eq_true in Hst.
      intros k r Hr. simpl in Hr.
      destruct (decide (k = Store.id iv)) as [->|Hne].
      * rewrite lookup_insert_eq in Hr. injection Hr as <-.
        destruct (Hinv _ _ Hr0) as (Hid & _ & Hrest).
        rewrite patched_updateData. unfold Records.well_formed. simpl.
        split; [exact Hid|]. split; [by eexists|]. exact Hrest.
      * rewrite lookup_insert_ne in Hr by done.
        apply (well_formed_tables (db (world σ))); [done|done|]. by apply Hinv.
    + destruct (update_cases srv (InterventionDetail.updateData clock newStatus)
                  (Store.id iv) (db (world σ)))
        as [[e' He]|[[_ He]|(r0 & Hr0' & _)]]; [| |congruence];
        rewrite He in Hupd; [discriminate|].
      injection Hupd as <-. exact Hinv.
Qed.

(** An invariant of the database that the two writing handlers keep is
    kept by every sequence of operations. *)
Lemma run_invariant (I : Store.DB → Prop) :
  (∀ srv (σ : Session NewIntervention.Page),
     I (db (world σ)) → I (db (world (exec (NewIntervention.handleSave srv) σ)))) →
  (∀ srv clock newStatus (σ : Session InterventionDetail.Page),
     I (db (world σ)) →
     I (db (world (exec (InterventionDetail.updateStatus srv clock newStatus) σ)))) →
  ∀ ops w, I (db w) → I (db (Lifecycle.run ops w)).
Proof.
  intros Hsave Hupd.
  assert (Hts : ∀ ts (σ : Session InterventionDetail.Page),
            I (db (world σ)) → I (db (world (exec (Lifecycle.transitions ts) σ)))).
  { induction ts as [|t ts IH]; intros σ Hσ; [exact Hσ|].
    simpl. rewrite (exec_bind_normal _ _ _ tt) by apply updateStatus_normal.
    apply IH, Hupd, Hσ. }
  induction ops as [|o ops IH]; intros w Hw; [exact Hw|].
  simpl. apply IH. destruct o as [form srv|k srv srvM srvT ts]; simpl.
  - by apply (Hsave srv {| page := form; world := w |}).
  - destruct (fetchData_db srv srvM srvT k
                {| page := InterventionDetail.initial; world := w |}) as [Hn Hdb].
    rewrite (exec_bind_normal _ _ _ tt) by exact Hn.
    apply Hts. by rewrite Hdb.
Qed.

Lemma run_well_formed (technicians : gmap string Store.TechnicianRow)
    (machines : gmap string Store.MachineRow) (ops : list Lifecycle.Op) :
  Records.all_well_formed
    (db (Lifecycle.run ops (Lifecycle.fresh technicians machines))).
Proof.
  apply (run_invariant Records.all_well_formed).
  - apply handleSave_well_formed.
  - apply updateStatus_well_formed.
  - intros k r Hr. simpl in Hr. by rewrite lookup_empty in Hr.
Qed.

(** X18: in every database reached from one without interventions by
    saving intake forms and changing statuses on detail pages, each record
    is stored under its own id, its status is one of pending, in_progress,
    resolved and cancelled (never NULL), and its machine and technician
    are set and exist in their tables. *)
Theorem reachable_records_respect_schema
    (technicians : gmap string Store.TechnicianRow)
    (machines : gmap string Store.MachineRow)
    (ops : list Lifecycle.Op) (k : string) (r : Store.InterventionRow) :
  let d := db (Lifecycle.run ops (Lifecycle.fresh technicians machines)) in
  Store.interventions d !! k = Some r →
  Store.id r = k
  ∧ (∃ s, Store.status r = Some s ∧ s ∈ Store.status_values)
  ∧ (∃ m, Store.machine_id r = Some m ∧ is_Some (Store.machines d !! m))
  ∧ (∃ t, Store.technician_id r = Some t ∧ is_Some (Store.technicians d !! t)).
Proof.
  intros d Hr.
  destruct (run_well_formed technicians machines ops k r Hr)
    as (Hid & Hst & _ & (m & Hm & _ & HM) & (t & Ht & _ & HT) & _).
  split_and!; [done|done|by exists m|by exists t].
Qed.

Lemma reachable_records_respect_schema_witness :
  let r := Store.patched Sample.srv2
             (InterventionDetail.updateData "2024-05-01T10:00:00.123Z" "resolved")
             Sample.row1 in
  let d := db (Lifecycle.run Sample.resolve_only
                 (Lifecycle.fresh Sample.technicians Sample.machines)) in
  Store.interventions d !! "I1" = Some r
  ∧ Store.id r = "I1"
  ∧ (∃ s, Store.status r = Some s ∧ s ∈ Store.status_values)
  ∧ (∃ m, Store.machine_id r = Some m ∧ is_Some (Store.machines d !! m))
  ∧ (∃ t, Store.technician_id r = Some t ∧ is_Some (Store.technicians d !! t)).
Proof.
  intros r d.
  assert (H1 : Store.interventions d !! "I1" = Some r) by (vm_compute; reflexivity).
  split; [exact H1|].
  exact (reachable_records_respect_schema Sample.technicians Sample.machines
           Sample.resolve_only "I1" r H1).
Defined.

(** X19: every such record has priority medium, a non-empty description
    and no audio reference: the pages never set another priority, never
    save an empty description and never store the recording.  (The AI
    solution can be NULL: see [save_without_solution].) *)
Theorem reachable_records_carry_form_data
    (technicians : gmap string Store.TechnicianRow)
    (machines : gmap string Store.MachineRow)
    (ops : list Lifecycle.Op) (k : string) (r : Store.InterventionRow) :
  Store.interventions
    (db (Lifecycle.run ops (Lifecycle.fresh technicians machines))) !! k = Some r →
  Store.priority r = Some "medium"
  ∧ (∃ text, Store.problem_description r = Some text ∧ text ≠ EmptyString)
  ∧ Store.audio_url r = None.
Proof.
  intros Hr.
  destruct (run_well_formed technicians machines ops k r Hr)
    as (_ & _ & Hp & _ & _ & Hd & Hu).
  done.
Qed.

Lemma reachable_records_carry_form_data_witness :
  let r := Store.patched Sample.srv2
             (InterventionDetail.updateData "2024-05-01T10:00:00.123Z" "resolved")
             Sample.row1 in
  Store.interventions
    (db (Lifecycle.run Sample.resolve_only
           (Lifecycle.fresh Sample.technicians Sample.machines))) !! "I1" = Some r
  ∧ Store.priority r = Some "medium"
  ∧ (∃ text, Store.problem_description r = Some text ∧ text ≠ EmptyString)
  ∧ Store.audio_url r = None.
Proof.
  intros r.
  assert (H1 : Store.interventions
    (db (Lifecycle.run Sample.resolve_only
           (Lifecycle.fresh Sample.technicians Sample.machines))) !! "I1" = Some r)
    by (vm_compute; reflexivity).
  split; [exact H1|].
  exact (reachable_records_carry_form_data Sample.technicians Sample.machines
           Sample.resolve_only "I1" r H1).
Defined.

Lemma same_particulars_refl (r : Store.InterventionRow) :
  Records.same_particulars r r.
Proof. by repeat split. Qed.

Lemma same_particulars_trans (r1 r2 r3 : Store.InterventionRow) :
  Records.same_particulars r1 r2 → Records.same_particulars r2 r3 →
  Records.same_particulars r1 r3.
Proof.
  unfold Records.same_particulars.
  intros (?&?&?&?&?&?&?&?) (?&?&?&?&?&?&?&?). split_and!; congruence.
Qed.

(** X20: nothing the pages do deletes a record or rewrites its
    particulars: a record present in the database is still present after
    any sequence of saves and status changes, under the same key, with the
    same id, creation time, machine, technician, description, audio
    reference, AI solution and priority; and the machines and technicians
    tables are never changed. *)
Theorem records_persist (ops : list Lifecycle.Op) (w : World)
    (k : string) (r : Store.InterventionRow) :
  Store.interventions (db w) !! k = Some r →
  let d' := db (Lifecycle.run ops w) in
  (∃ r', Store.interventions d' !! k = Some r' ∧ Records.same_particulars r r')
  ∧ Store.machines d' = Store.machines (db w)
  ∧ Store.technicians d' = Store.technicians (db w).
Proof.
  intros Hr d'. subst d'.
  apply (run_invariant (λ d,
    (∃ r', Store.interventions d !! k = Some r' ∧ Records.same_particulars r r')
    ∧ Store.machines d = Store.machines (db w)
    ∧ Store.technicians d = Store.technicians (db w))).
  - intros srv σ ((r' & Hr' & Hsame) & HM & HT). rewrite handleSave_eq.
    destruct (_ || _ || _); [by eauto|].
    destruct (insert_cases srv (NewIntervention.insert_values (page σ))
                (db (world σ))) as [[e ->]|[Hfresh ->]]; [by eauto|].
    simpl. split; [|done]. exists r'. split; [|done].
    rewrite lookup_insert_ne; [done|]. intros <-. congruence.
  - intros srv clock newStatus σ ((r' & Hr' & Hsame) & HM & HT).
    unfold exec. rewrite updateStatus_eq. simpl.
    destruct (InterventionDetail.intervention (page σ)) as [iv|]; [|by eauto].
    destruct (update_cases srv (InterventionDetail.updateData clock newStatus)
                (Store.id iv) (db (world σ)))
      as [[e ->]|[[_ ->]|(r0 & Hr0 & ->)]]; [by eauto|by eauto|].
    simpl. split; [|done].
    destruct (decide (k = Store.id iv)) as [->|Hne].
    + rewrite lookup_insert_eq. eexists. split; [reflexivity|].
      assert (r0 = r') as -> by congruence.
      apply (same_particulars_trans _ r'); [done|].
      rewrite patched_updateData. by repeat split.
    + rewrite lookup_insert_ne by done. eauto.
  - split; [|done]. exists r. split; [done|apply same_particulars_refl].
Qed.

Lemma records_persist_witness :
  let ops := [Lifecycle.Visit "I1" Sample.srv1 Sample.srv1 Sample.srv1
                [{| Lifecycle.server := Sample.srv2;
                    Lifecycle.clock := "2024-05-01T10:00:00.123Z";
                    Lifecycle.target := "cancelled" |}];
              Lifecycle.Create Sample.form Sample.srv2] in
  let w := Sample.world1 in
  let k := "I1" in
  let r := Sample.row1 in
  Store.interventions (db w) !! k = Some r
  ∧
  let d' := db (Lifecycle.run ops w) in
  (∃ r', Store.interventions d' !! k = Some r' ∧ Records.same_particulars r r')
  ∧ Store.machines d' = Store.machines (db w)
  ∧ Store.technicians d' = Store.technicians (db w).
Proof.
  intros ops w k r.
  assert (H1 : Store.interventions (db w) !! k = Some r) by (vm_compute; reflexivity).
  split; [exact H1|].
  exact (records_persist ops w k r H1).
Defined.

(** X21: a resolution time comes only from a request for resolved: if no
    status change in the history asks for resolved, every record of the
    database has a NULL [resolved_at]. *)
Theorem resolved_at_needs_a_resolve
    (technicians : gmap string Store.TechnicianRow)
    (machines : gmap string Store.MachineRow)
    (ops : list Lifecycle.Op) (k : string) (r : Store.InterventionRow) :
  (∀ o, o ∈ ops → "resolved" ∉ Records.requested o) →
  Store.interventions
    (db (Lifecycle.run ops (Lifecycle.fresh technicians machines))) !! k = Some r →
  Store.resolved_at r = None.
Proof.
  set (I := λ d : Store.DB,
         ∀ k r, Store.interventions d !! k = Some r → Store.resolved_at r = None).
  assert (Hsave : ∀ srv (σ : Session NewIntervention.Page),
            I (db (world σ)) → I (db (world (exec (NewIntervention.handleSave srv) σ)))).
  { intros srv σ Hinv. rewrite handleSave_eq.
    destruct (_ || _ || _); [exact Hinv|].
    destruct (insert_cases srv (NewIntervention.insert_values (page σ))
                (db (world σ))) as [[e ->]|[_ ->]]; [exact Hinv|].
    intros k' r' Hr'. simpl in Hr'.
    destruct (decide (k' = Store.gen_random_uuid srv)) as [->|Hne].
    - rewrite lookup_insert_eq in Hr'. injection Hr' as <-.
      by rewrite new_row_insert_values.
    - rewrite lookup_insert_ne in Hr' by done. by apply (Hinv k'). }
  assert (Hupd : ∀ srv clock newStatus (σ : Session InterventionDetail.Page),
            newStatus ≠ "resolved" → I (db (world σ)) →
            I (db (world (exec (InterventionDetail.updateStatus srv clock newStatus) σ)))).
  { intros srv clock newStatus σ Hne Hinv. unfold exec. rewrite updateStatus_eq. simpl.
    destruct (InterventionDetail.intervention (page σ)) as [iv|]; [|exact Hinv].
    destruct (update_cases srv (InterventionDetail.updateData clock newStatus)
                (Store.id iv) (db (world σ)))
      as [[e ->]|[[_ ->]|(r0 & Hr0 & ->)]]; [exact Hinv|exact Hinv|].
    intros k' r' Hr'. simpl in Hr'.
    destruct (decide (k' = Store.id iv)) as [->|Hne'].
    - rewrite lookup_insert_eq in Hr'. injection Hr' as <-.
      rewrite patched_updateData. simpl.
      rewrite bool_decide_eq_false_2 by done. by apply (Hinv (Store.id iv)).
    - rewrite lookup_insert_ne in Hr' by done. by apply (Hinv k'). }
  assert (Hts : ∀ ts (σ : Session InterventionDetail.Page),
            "resolved" ∉ Lifecycle.target <$> ts → I (db (world σ)) →
            I (db (world (exec (Lifecycle.transitions ts) σ)))).
  { induction ts as [|t ts IH]; intros σ Hno Hσ; [exact Hσ|].
    simpl. rewrite (exec_bind_normal _ _ _ tt) by apply updateStatus_normal.
    simpl in Hno. apply not_elem_of_cons in Hno as [Hhd Htl].
    apply IH; [exact Htl|]. apply Hupd; [congruence|exact Hσ]. }
  assert (Hrun : ∀ ops w, (∀ o, o ∈ ops → "resolved" ∉ Records.requested o) →
                 I (db w) → I (db (Lifecycle.run ops w))).
  { clear ops. induction ops as [|o ops IH]; intros w Hno Hw; [exact Hw|].
    simpl. apply IH; [intros o' Ho'; apply Hno; by right|].
    assert (Ho : "resolved" ∉ Records.requested o) by (apply Hno; left).
    destruct o as [form srv|k' srv srvM srvT ts]; simpl.
    - by apply (Hsave srv {| page := form; world := w |}).
    - destruct (fetchData_db srv srvM srvT k'
                  {| page := InterventionDetail.initial; world := w |}) as [Hn Hdb].
      rewrite (exec_bind_normal _ _ _ tt) by exact Hn.
      apply Hts; [exact Ho|]. by rewrite Hdb. }
  intros Hno Hr. apply (Hrun ops _ Hno) in Hr; [exact Hr|].
  intros k' r' Hr'. simpl in Hr'. by rewrite lookup_empty in Hr'.
Qed.

Lemma resolved_at_needs_a_resolve_witness :
  let ops := [Lifecycle.Create Sample.form Sample.srv1;
              Lifecycle.Visit "I1" Sample.srv1 Sample.srv1 Sample.srv1
                [{| Lifecycle.server := Sample.srv2;
                    Lifecycle.clock := "2024-05-01T10:00:00.123Z";
                    Lifecycle.target := "cancelled" |}]] in
  let r := Store.patched Sample.srv2
             (InterventionDetail.updateData "2024-05-01T10:00:00.123Z" "cancelled")
             Sample.row1 in
  ((∀ o, o ∈ ops → "resolved" ∉ Records.requested o)
   ∧ Store.interventions
       (db (Lifecycle.run ops (Lifecycle.fresh Sample.technicians Sample.machines)))
       !! "I1" = Some r)
  ∧ Store.resolved_at r = None.
Proof.
  intros ops r.
  assert (H1 : ∀ o, o ∈ ops → "resolved" ∉ Records.requested o).
  { intros o Ho. apply elem_of_cons in Ho as [->|Ho]; [simpl; apply not_elem_of_nil|].
    apply elem_of_cons in Ho as [->|Ho]; [|by apply not_elem_of_nil in Ho].
    simpl. intros Hin. apply elem_of_cons in Hin as [Hin|Hin];
      [discriminate|by apply not_elem_of_nil in Hin]. }
  assert (H2 : Store.interventions
       (db (Lifecycle.run ops (Lifecycle.fresh Sample.technicians Sample.machines)))
       !! "I1" = Some r) by (vm_compute; reflexivity).
  split; [exact (conj H1 H2)|].
  exact (resolved_at_needs_a_resolve Sample.technicians Sample.machines ops "I1" r
           H1 H2).
Defined.

(** X22: on a reachable database the store accepts every one of the four
    statuses for every record, whatever its current status: when the
    request gets through, [updateStatus] with a target among pending,
    in_progress, resolved and cancelled stores it and shows it. *)
Theorem any_listed_status_is_accepted
    (technicians : gmap string Store.TechnicianRow)
    (machines : gmap string Store.MachineRow) (ops : list Lifecycle.Op)
    (srv : Store.Server) (clock newStatus : string)
    (σ : Session InterventionDetail.Page) (iv r : Store.InterventionRow) :
  db (world σ) = db (Lifecycle.run ops (Lifecycle.fresh technicians machines)) →
  InterventionDetail.intervention (page σ) = Some iv →
  Store.interventions (db (world σ)) !! Store.id iv = Some r →
  newStatus ∈ Store.status_values →
  Store.available srv = true →
  let σ' := exec (InterventionDetail.updateStatus srv clock newStatus) σ in
  (Store.status <$> Store.interventions (db (world σ')) !! Store.id iv)
    = Some (Some newStatus)
  ∧ (Store.status <$> InterventionDetail.intervention (page σ'))
    = Some (Some newStatus).
Proof.
  intros Hdb Hiv Hr Hin Hav σ'.
  assert (Hwf : Records.well_formed (db (world σ)) (Store.id iv) r).
  { rewrite Hdb in Hr |- *. by apply run_well_formed. }
  destruct Hwf as (_ & _ & Hp & (m & Hm & _ & HM) & (t & Ht & _ & HT) & _).
  assert (Hok : (Store.update srv (InterventionDetail.updateData clock newStatus)
                   (Store.id iv) (db (world σ))).2 = None).
  { unfold Store.update. rewrite Hav, updateData_columns, Hr. simpl.
    unfold Store.constraints. rewrite patched_updateData. simpl.
    rewrite Hp, Hm, Ht. simpl.
    rewrite !bool_decide_eq_true_2 by done. reflexivity. }
  destruct (updateStatus_row srv clock newStatus σ iv r Hiv Hr) as [[Hrow Hpage] _];
    [exact Hok|].
  fold σ' in Hrow, Hpage. rewrite Hrow, Hpage, patched_updateData. done.
Qed.

Lemma any_listed_status_is_accepted_witness :
  let σ := Sample.detail2 in
  let srv := Sample.srv3 in
  let clock := "2024-05-01T11:00:00.456Z" in
  let newStatus := "in_progress" in
  let iv := InterventionDetail.with_status Sample.row1 "resolved" in
  let r := Store.patched Sample.srv2
             (InterventionDetail.updateData "2024-05-01T10:00:00.123Z" "resolved")
             Sample.row1 in
  (db (world σ) = db (Lifecycle.run Sample.resolve_only
                        (Lifecycle.fresh Sample.technicians Sample.machines))
   ∧ InterventionDetail.intervention (page σ) = Some iv
   ∧ Store.interventions (db (world σ)) !! Store.id iv = Some r
   ∧ newStatus ∈ Store.status_values
   ∧ Store.available srv = true)
  ∧
  let σ' := exec (InterventionDetail.updateStatus srv clock newStatus) σ in
  (Store.status <$> Store.interventions (db (world σ')) !! Store.id iv)
    = Some (Some newStatus)
  ∧ (Store.status <$> InterventionDetail.intervention (page σ'))
    = Some (Some newStatus).
Proof.
  intros σ srv clock newStatus iv r.
  assert (H1 : db (world σ) = db (Lifecycle.run Sample.resolve_only
                        (Lifecycle.fresh Sample.technicians Sample.machines)))
    by (vm_compute; reflexivity).
  assert (H2 : InterventionDetail.intervention (page σ) = Some iv)
    by (vm_compute; reflexivity).
  assert (H3 : Store.interventions (db (world σ)) !! Store.id iv = Some r)
    by (vm_compute; reflexivity).
  assert (H4 : newStatus ∈ Store.status_values)
    by (apply (bool_decide_unpack _); vm_compute; exact I).
  assert (H5 : Store.available srv = true) by reflexivity.
  split; [exact (conj H1 (conj H2 (conj H3 (conj H4 H5))))|].
  exact (any_listed_status_is_accepted Sample.technicians Sample.machines
           Sample.resolve_only srv clock newStatus σ iv r H1 H2 H3 H4 H5).
Defined.

(** ** The dashboard's count *)

(** Replacing or adding one row changes the number of rows a filter keeps
    by what the old and the new row contribute. *)
Lemma filter_size_insert {A} (P : string * A → Prop) `{!∀ x, Decision (P x)}
    (m : gmap string A) (k : string) (x : A) :
  (size (filter P (<[k := x]> m))
   + (match m !! k with
      | Some y => if decide (P (k, y)) then 1 else 0
      | None => 0
      end) =
   size (filter P m) + (if decide (P (k, x)) then 1 else 0))%nat.
Proof.
  assert (Hold : filter P m !! k =
                 match m !! k with
                 | Some y => if decide (P (k, y)) then Some y else None
                 | None => None
                 end).
  { rewrite map_lookup_filter. destruct (m !! k) as [y|]; simpl; [|done].
    case_decide; [by rewrite option_guard_True|by rewrite option_guard_False]. }
  assert (Hdel : ∀ y, filter P m !! k = Some y →
                 size (filter P m) = S (size (delete k (filter P m)))).
  { intros y Hy. rewrite <- (insert_id (filter P m) k y Hy) at 1.
    rewrite <- insert_delete_eq.
    apply map_size_insert_None, lookup_delete_eq. }
  rewrite map_filter_insert. case_decide as Hnew.
  - rewrite map_size_insert, Hold.
    destruct (m !! k) as [y|]; [|simpl; lia].
    case_decide; simpl; lia.
  - rewrite map_filter_delete.
    destruct (m !! k) as [y|] eqn:Hk.
    + case_decide as Hy.
      * rewrite (Hdel y) by exact Hold. lia.
      * rewrite map_size_delete_None by exact Hold. lia.
    + rewrite map_size_delete_None by exact Hold. lia.
Qed.

(** X23: the dashboard follows the pages.  Its count of open
    interventions (status pending or in_progress) goes up by exactly one
    with every record [handleSave] stores; and after a successful
    [updateStatus] on a persisted record it has lost one if the record was
    open and gained one if the new status is open, so that resolving or
    cancelling an open record takes one off and a move between pending and
    in_progress leaves it unchanged. *)
Theorem dashboard_follows_the_pages (dash : Store.Server) :
  Store.available dash = true →
  (∀ (srv : Store.Server) (σ : Session NewIntervention.Page),
     NewIntervention.selectedMachine (page σ) ≠ EmptyString →
     NewIntervention.selectedTechnician (page σ) ≠ EmptyString →
     js_falsy (NewIntervention.problemDescription (page σ)) = false →
     (Store.insert srv (NewIntervention.insert_values (page σ)) (db (world σ))).2
       = None →
     Dashboard.pendingInterventions dash
       (db (world (exec (NewIntervention.handleSave srv) σ)))
     = S (Dashboard.pendingInterventions dash (db (world σ))))
  ∧ (∀ (srv : Store.Server) (clock newStatus : string)
       (σ : Session InterventionDetail.Page) (iv r : Store.InterventionRow),
     InterventionDetail.intervention (page σ) = Some iv →
     Store.interventions (db (world σ)) !! Store.id iv = Some r →
     (Store.update srv (InterventionDetail.updateData clock newStatus)
                   (Store.id iv) (db (world σ))).2 = None →
     (Dashboard.pendingInterventions dash
        (db (world (exec (InterventionDetail.updateStatus srv clock newStatus) σ)))
      + (if Dashboard.is_open r then 1 else 0)
      = Dashboard.pendingInterventions dash (db (world σ))
        + (if bool_decide (newStatus ∈ ["pending"; "in_progress"]) then 1 else 0))%nat).
Proof.
  intros Hdash. unfold Dashboard.pendingInterventions, Dashboard.pendingCount.
  rewrite Hdash. simpl. split.
  - intros srv σ Hm Ht Hd Hok. rewrite (handleSave_valid srv σ Hm Ht Hd).
    destruct (insert_cases srv (NewIntervention.insert_values (page σ))
                (db (world σ))) as [[e He]|[Hfresh He]];
      rewrite He in Hok |- *; [discriminate|].
    simpl.
    pose proof (filter_size_insert (λ kr, Dashboard.is_open kr.2 = true)
                  (Store.interventions (db (world σ))) (Store.gen_random_uuid srv)
                  (Store.new_row srv (NewIntervention.insert_values (page σ)))) as Hsz.
    rewrite Hfresh in Hsz. simpl in Hsz.
    rewrite decide_True in Hsz; [lia|].
    rewrite new_row_insert_values. reflexivity.
  - intros srv clock newStatus σ iv r Hiv Hr Hok.
    destruct (updateStatus_row srv clock newStatus σ iv r Hiv Hr) as [[Hrow _] _];
      [exact Hok|].
    unfold exec in Hrow |- *. rewrite updateStatus_eq in Hrow |- *. simpl in *.
    rewrite Hiv in Hrow |- *.
    destruct (update_cases srv (InterventionDetail.updateData clock newStatus)
                (Store.id iv) (db (world σ)))
      as [[e He]|[[Hnone He]|(r0 & Hr0 & He)]]; rewrite He in Hok, Hrow |- *;
      [discriminate|congruence|].
    assert (r0 = r) as -> by congruence. simpl.
    pose proof (filter_size_insert (λ kr, Dashboard.is_open kr.2 = true)
                  (Store.interventions (db (world σ))) (Store.id iv)
                  (Store.patched srv (InterventionDetail.updateData clock newStatus) r))
      as Hsz.
    rewrite Hr in Hsz. simpl in Hsz.
    assert (Hnew : Dashboard.is_open
              (Store.patched srv (InterventionDetail.updateData clock newStatus) r)
            = bool_decide (newStatus ∈ ["pending"; "in_progress"]))
      by (by rewrite patched_updateData).
    rewrite Hnew in Hsz.
    destruct (Dashboard.is_open r), (bool_decide (newStatus ∈ _));
      repeat case_decide; try discriminate; try done; lia.
Qed.

Lemma dashboard_follows_the_pages_witness :
  let dash := Sample.srv3 in
  Store.available dash = true
  ∧ (∀ (srv : Store.Server) (σ : Session NewIntervention.Page),
     NewIntervention.selectedMachine (page σ) ≠ EmptyString →
     NewIntervention.selectedTechnician (page σ) ≠ EmptyString →
     js_falsy (NewIntervention.problemDescription (page σ)) = false →
     (Store.insert srv (NewIntervention.insert_values (page σ)) (db (world σ))).2
       = None →
     Dashboard.pendingInterventions dash
       (db (world (exec (NewIntervention.handleSave srv) σ)))
     = S (Dashboard.pendingInterventions dash (db (world σ))))
  ∧ (∀ (srv : Store.Server) (clock newStatus : string)
       (σ : Session InterventionDetail.Page) (iv r : Store.InterventionRow),
     InterventionDetail.intervention (page σ) = Some iv →
     Store.interventions (db (world σ)) !! Store.id iv = Some r →
     (Store.update srv (InterventionDetail.updateData clock newStatus)
                   (Store.id iv) (db (world σ))).2 = None →
     (Dashboard.pendingInterventions dash
        (db (world (exec (InterventionDetail.updateStatus srv clock newStatus) σ)))
      + (if Dashboard.is_open r then 1 else 0)
      = Dashboard.pendingInterventions dash (db (world σ))
        + (if bool_decide (newStatus ∈ ["pending"; "in_progress"]) then 1 else 0))%nat).
Proof.
  intros dash.
  assert (H : Store.available dash = true) by reflexivity.
  split; [exact H|].
  exact (dashboard_follows_the_pages dash H).
Defined.

(** The count over the worked example: one open record after the save,
    none after it is resolved, none reported when the request fails. *)
Example dashboard_sample :
  Dashboard.pendingInterventions Sample.srv3 (db Sample.world0) = 0%nat
  ∧ Dashboard.pendingInterventions Sample.srv3 (db Sample.world1) = 1%nat
  ∧ Dashboard.pendingInterventions Sample.srv3 (db (world Sample.detail2)) = 0%nat
  ∧ Dashboard.pendingInterventions Sample.offline (db Sample.world1) = 0%nat.
Proof. vm_compute. repeat split; reflexivity. Qed.

(** ** Routes *)

(** X24: the route guard.  While the session is loading every route
    renders the splash screen (never a redirect, and never the inner
    spinner of [ProtectedRoute]).  Once it has loaded, a page other than
    the sign-in page and the not-found page is rendered only for a
    signed-in user; without one every protected route redirects to /auth;
    the sign-in route redirects a signed-in user to the dashboard; and the
    not-found page is rendered signed in or not. *)
Theorem route_guard (user : option string) (loading : bool) (matched : App.Route) :
  (loading = true → App.AppRoutes user loading matched = App.Splash)
  ∧ App.AppRoutes user loading matched ≠ App.Spinner
  ∧ (∀ component, App.AppRoutes user loading matched = App.Page component →
       component ≠ App.Auth → component ≠ App.NotFound →
       loading = false ∧ is_Some user)
  ∧ (loading = false → user = None →
       matched ≠ App.RouteAuth → matched ≠ App.RouteStar →
       App.AppRoutes user loading matched = App.Navigate "/auth")
  ∧ (loading = false → is_Some user →
       App.AppRoutes user loading App.RouteAuth = App.Navigate "/")
  ∧ (loading = false → App.AppRoutes user loading App.RouteStar = App.Page App.NotFound).
Proof.
  split_and!.
  - by intros ->.
  - destruct loading, matched, user; discriminate.
  - intros component Hc Hauth Hnf.
    destruct loading, matched, user; simpl in Hc; try discriminate;
      injection Hc as <-; try (by split); by (destruct Hauth || destruct Hnf).
  - intros -> -> Hauth Hstar.
    destruct matched; try reflexivity; by (destruct Hauth || destruct Hstar).
  - intros -> [u ->]. reflexivity.
  - by intros ->.
Qed.

(** ** The edge function: every request *)

Local Ltac serve_done :=
  eexists; split; [reflexivity|];
  rewrite ?fetches_app, ?length_app; simpl;
  split_and!; try done; try lia; try set_solver; eauto.

(** X25: the handler answers every request: whatever the method, the
    body, the key and the gateway do, it returns a response whose status
    is 200, 402, 429 or 500 and whose headers begin with the CORS headers,
    after at most one call to the gateway and without touching the
    database.  A status other than 200 always comes with a body holding
    exactly an [error] message; a 200 never has one. *)
Theorem serve_always_answers (key : JsValue)
    (gateway : Completion JsThrown GenerateSolution.GatewayResponse)
    (req : GenerateSolution.Request) (σ : Session unit) :
  ∃ resp : GenerateSolution.Response,
    eval (GenerateSolution.serve key gateway req) σ = Normal resp
    ∧ GenerateSolution.status resp ∈ [200; 402; 429; 500]
    ∧ (∃ more, GenerateSolution.headers resp = GenerateSolution.corsHeaders ++ more)
    ∧ db (world (exec (GenerateSolution.serve key gateway req) σ)) = db (world σ)
    ∧ (length (fetches (trace (world (exec (GenerateSolution.serve key gateway req) σ))))
       ≤ S (length (fetches (trace (world σ)))))%nat
    ∧ (GenerateSolution.status resp ≠ 200 →
       ∃ message,
         GenerateSolution.body resp = Some (object [("error", JsString message)]))
    ∧ (GenerateSolution.status resp = 200 →
       GenerateSolution.body resp ≫= (.!! "error") = None).
Proof.
  destruct σ as [pg wd]. unfold eval, exec, GenerateSolution.serve.
  case_bool_decide as Hmethod.
  { unfold ret. simpl. eexists. split; [reflexivity|]. simpl.
    split_and!; try done; try lia; try set_solver. }
  unfold try_catch, bind, await, emit, ret, throw. simpl.
  destruct (GenerateSolution.json req) as [payload|e]; simpl.
  2:{ destruct e; serve_done. }
  destruct (js_falsy (property payload "problemDescription"));
    simpl; [serve_done|].
  destruct (js_falsy key); simpl; [serve_done|].
  destruct gateway as [r|e]; simpl.
  2:{ destruct e; serve_done. }
  destruct (GenerateSolution.ok r); simpl.
  - destruct (GenerateSolution.gw_content r) as [[| |s]|e]; simpl;
      [serve_done|serve_done|serve_done|destruct e; serve_done].
  - destruct (GenerateSolution.gw_text r) as [txt|e]; simpl;
      [repeat case_bool_decide; simpl; serve_done|destruct e; serve_done].
Qed.

(** X26: a request that is not a preflight and whose body cannot be parsed,
    or carries no problem description (absent, [null] or empty), is
    answered 500 with the matching message, before the key is looked at
    and without any call to the gateway: the parse error's own message
    (or "Unknown error" for a thrown value that is not an Error), or
    "Problem description is required". *)
Theorem serve_rejects_bad_request (key : JsValue)
    (gateway : Completion JsThrown GenerateSolution.GatewayResponse)
    (req : GenerateSolution.Request) (σ : Session unit) :
  GenerateSolution.method req ≠ "OPTIONS" →
  let answer := eval (GenerateSolution.serve key gateway req) σ in
  let σ' := exec (GenerateSolution.serve key gateway req) σ in
  (∀ message, GenerateSolution.json req = Abrupt (JsError message) →
     answer = Normal {| GenerateSolution.body :=
                          Some (object [("error", JsString message)]);
                        GenerateSolution.status := 500;
                        GenerateSolution.headers := GenerateSolution.jsonHeaders |}
     ∧ fetches (trace (world σ')) = fetches (trace (world σ)))
  ∧ (GenerateSolution.json req = Abrupt NotAnError →
     answer = Normal {| GenerateSolution.body :=
                          Some (object [("error", JsString "Unknown error")]);
                        GenerateSolution.status := 500;
                        GenerateSolution.headers := GenerateSolution.jsonHeaders |}
     ∧ fetches (trace (world σ')) = fetches (trace (world σ)))
  ∧ (∀ payload, GenerateSolution.json req = Normal payload →
     js_falsy (property payload "problemDescription") = true →
     answer = Normal {| GenerateSolution.body :=
                          Some (object [("error",
                                         JsString "Problem description is required")]);
                        GenerateSolution.status := 500;
                        GenerateSolution.headers := GenerateSolution.jsonHeaders |}
     ∧ fetches (trace (world σ')) = fetches (trace (world σ))).
Proof.
  intros Hmethod answer σ'. subst answer σ'. destruct σ as [pg wd].
  unfold eval, exec, GenerateSolution.serve.
  rewrite bool_decide_eq_false_2 by exact Hmethod.
  unfold try_catch, bind, await, emit, ret, throw. split_and!.
  - intros message ->. simpl. rewrite !fetches_app. simpl.
    by rewrite app_nil_r.
  - intros ->. simpl. rewrite !fetches_app. simpl. by rewrite app_nil_r.
  - intros payload -> Hpd. simpl. rewrite Hpd.
    simpl. rewrite !fetches_app. simpl. by rewrite !app_nil_r.
Qed.

Lemma serve_rejects_bad_request_witness :
  let key := JsString "sk-test" in
  let gateway := Sample.gateway 200 in
  let req := {| GenerateSolution.method := "POST";
                GenerateSolution.json :=
                  Normal (object [("problemDescription", JsNull);
                                  ("machineName", JsString "Prensa P-200")]) |} in
  let σ := Sample.edge in
  GenerateSolution.method req ≠ "OPTIONS"
  ∧
  let answer := eval (GenerateSolution.serve key gateway req) σ in
  let σ' := exec (GenerateSolution.serve key gateway req) σ in
  (∀ message, GenerateSolution.json req = Abrupt (JsError message) →
     answer = Normal {| GenerateSolution.body :=
                          Some (object [("error", JsString message)]);
                        GenerateSolution.status := 500;
                        GenerateSolution.headers := GenerateSolution.jsonHeaders |}
     ∧ fetches (trace (world σ')) = fetches (trace (world σ)))
  ∧ (GenerateSolution.json req = Abrupt NotAnError →
     answer = Normal {| GenerateSolution.body :=
                          Some (object [("error", JsString "Unknown error")]);
                        GenerateSolution.status := 500;
                        GenerateSolution.headers := GenerateSolution.jsonHeaders |}
     ∧ fetches (trace (world σ')) = fetches (trace (world σ)))
  ∧ (∀ payload, GenerateSolution.json req = Normal payload →
     js_falsy (property payload "problemDescription") = true →
     answer = Normal {| GenerateSolution.body :=
                          Some (object [("error",
                                         JsString "Problem description is required")]);
                        GenerateSolution.status := 500;
                        GenerateSolution.headers := GenerateSolution.jsonHeaders |}
     ∧ fetches (trace (world σ')) = fetches (trace (world σ))).
Proof.
  intros key gateway req σ.
  assert (H : GenerateSolution.method req ≠ "OPTIONS") by (vm_compute; discriminate).
  split; [exact H|].
  exact (serve_rejects_bad_request key gateway req σ H).
Defined.

(** X27: a well-formed request with a configured key makes exactly one
    call to the gateway, whatever the gateway then does: authorised with
    that key, for the fixed model, with the system prompt and the user
    prompt built from the description and the machine data.  When the
    gateway answers within 2xx with a readable body, the response is 200
    and its body is [{ solution }] for the first choice's content: the
    text, [null] when the content is [null], and no [solution] property
    when the answer has no such content. *)
Theorem serve_forwards_solution (key : JsValue)
    (gateway : Completion JsThrown GenerateSolution.GatewayResponse)
    (req : GenerateSolution.Request) (payload : JsObject) (σ : Session unit) :
  GenerateSolution.method req ≠ "OPTIONS" →
  GenerateSolution.json req = Normal payload →
  js_falsy (property payload "problemDescription") = false →
  js_falsy key = false →
  let answer := eval (GenerateSolution.serve key gateway req) σ in
  let σ' := exec (GenerateSolution.serve key gateway req) σ in
  fetches (trace (world σ')) = fetches (trace (world σ)) ++
    [Fetch "https://ai.gateway.lovable.dev/v1/chat/completions"
       ("Bearer " +:+ template key)
       "google/gemini-2.5-flash"
       [("system", GenerateSolution.systemPrompt);
        ("user",
         GenerateSolution.userPrompt
           (property payload "problemDescription")
           (property payload "machineName") (property payload "machineLocation"))]
       2000]
  ∧ (∀ (r : GenerateSolution.GatewayResponse) (content : JsValue),
       gateway = Normal r →
       GenerateSolution.ok r = true →
       GenerateSolution.gw_content r = Normal content →
       answer = Normal {| GenerateSolution.body :=
                            Some match content with
                                 | JsString s => {[ "solution" := Some s ]}
                                 | JsNull => {[ "solution" := None ]}
                                 | JsUndefined => ∅
                                 end;
                          GenerateSolution.status := 200;
                          GenerateSolution.headers := GenerateSolution.jsonHeaders |}).
Proof.
  intros Hmethod Hjson Hpd Hkey answer σ'. subst answer σ'.
  destruct σ as [pg wd].
  unfold eval, exec, GenerateSolution.serve.
  rewrite bool_decide_eq_false_2 by exact Hmethod.
  rewrite Hjson.
  unfold try_catch, bind, await, emit, ret, throw. simpl.
  rewrite Hpd, Hkey. simpl.
  split.
  - destruct gateway as [r|e]; simpl.
    + destruct (GenerateSolution.ok r); simpl.
      * destruct (GenerateSolution.gw_content r) as [s|e]; simpl;
          rewrite !fetches_app; simpl; by rewrite !app_nil_r.
      * destruct (GenerateSolution.gw_text r) as [txt|e]; simpl;
          [repeat case_bool_decide; simpl|];
          rewrite !fetches_app; simpl; by rewrite !app_nil_r.
    + rewrite !fetches_app. simpl. by rewrite !app_nil_r.
  - intros r content -> Hok Hcontent. simpl. rewrite Hok. simpl.
    rewrite Hcontent. simpl. by destruct content.
Qed.

Lemma serve_forwards_solution_witness :
  let key := JsString "sk-test" in
  let gateway :=
    Normal {| GenerateSolution.gw_status := 200;
              GenerateSolution.gw_text := Normal "{}";
              GenerateSolution.gw_content := Normal JsNull |} in
  let req := Sample.request in
  let payload := Sample.payload in
  let σ := Sample.edge in
  (GenerateSolution.method req ≠ "OPTIONS"
   ∧ GenerateSolution.json req = Normal payload
   ∧ js_falsy (property payload "problemDescription") = false
   ∧ js_falsy key = false)
  ∧
  let answer := eval (GenerateSolution.serve key gateway req) σ in
  let σ' := exec (GenerateSolution.serve key gateway req) σ in
  fetches (trace (world σ')) = fetches (trace (world σ)) ++
    [Fetch "https://ai.gateway.lovable.dev/v1/chat/completions"
       ("Bearer " +:+ template key)
       "google/gemini-2.5-flash"
       [("system", GenerateSolution.systemPrompt);
        ("user",
         GenerateSolution.userPrompt
           (property payload "problemDescription")
           (property payload "machineName") (property payload "machineLocation"))]
       2000]
  ∧ (∀ (r : GenerateSolution.GatewayResponse) (content : JsValue),
       gateway = Normal r →
       GenerateSolution.ok r = true →
       GenerateSolution.gw_content r = Normal content →
       answer = Normal {| GenerateSolution.body :=
                            Some match content with
                                 | JsString s => {[ "solution" := Some s ]}
                                 | JsNull => {[ "solution" := None ]}
                                 | JsUndefined => ∅
                                 end;
                          GenerateSolution.status := 200;
                          GenerateSolution.headers := GenerateSolution.jsonHeaders |}).
Proof.
  intros key gateway req payload σ.
  assert (H1 : GenerateSolution.method req ≠ "OPTIONS") by (vm_compute; discriminate).
  assert (H2 : GenerateSolution.json req = Normal payload) by reflexivity.
  assert (H3 : js_falsy (property payload "problemDescription") = false)
    by (vm_compute; reflexivity).
  assert (H4 : js_falsy key = false) by reflexivity.
  split; [exact (conj H1 (conj H2 (conj H3 H4)))|].
  exact (serve_forwards_solution key gateway req payload σ H1 H2 H3 H4).
Defined.

(** ** The list page over a reachable database *)

(** X28: records created through the intake form are never hidden: when
    the page holds records of a reachable database, the search box is
    empty and the filter is on "all", every one of them is listed. *)
Theorem records_from_the_form_are_listed
    (toLowerCase : string → string)
    (technicians : gmap string Store.TechnicianRow)
    (machines : gmap string Store.MachineRow)
    (ops : list Lifecycle.Op) (p : Interventions.Page) :
  toLowerCase EmptyString = EmptyString →
  Interventions.search p = EmptyString →
  Interventions.statusFilter p = "all" →
  (∀ intervention, intervention ∈ Interventions.interventions p →
     ∃ k, Store.interventions
            (db (Lifecycle.run ops (Lifecycle.fresh technicians machines))) !! k
          = Some intervention) →
  Interventions.filteredInterventions toLowerCase p = Interventions.interventions p.
Proof.
  intros Hlow Hsearch Hall Hfrom.
  assert (Hshown : ∀ iv, iv ∈ Interventions.interventions p →
                   Interventions.shown toLowerCase p iv = true).
  { intros iv Hiv. destruct (Hfrom iv Hiv) as [k Hk].
    destruct (run_well_formed technicians machines ops k iv Hk)
      as (_ & _ & _ & _ & _ & (text & Htext & _) & _).
    unfold Interventions.shown, Interventions.matchesSearch,
      Interventions.matchesStatus, Interventions.lower_includes.
    rewrite Htext, Hsearch, Hall, Hlow. simpl. by rewrite includes_empty. }
  clear Hfrom. unfold Interventions.filteredInterventions.
  induction (Interventions.interventions p) as [|iv l IH]; [reflexivity|].
  simpl. rewrite Hshown by (by left).
  f_equal. apply IH. intros iv' Hiv'. apply Hshown. by right.
Qed.

Lemma records_from_the_form_are_listed_witness :
  let p := {| Interventions.interventions := [Sample.row1];
              Interventions.machines := ∅;
              Interventions.technicians := ∅;
              Interventions.search := EmptyString;
              Interventions.statusFilter := "all";
              Interventions.loading := false |} in
  let ops := [Lifecycle.Create Sample.form Sample.srv1] in
  (Interventions.lower EmptyString = EmptyString
   ∧ Interventions.search p = EmptyString
   ∧ Interventions.statusFilter p = "all"
   ∧ (∀ intervention, intervention ∈ Interventions.interventions p →
        ∃ k, Store.interventions
               (db (Lifecycle.run ops
                      (Lifecycle.fresh Sample.technicians Sample.machines))) !! k
             = Some intervention))
  ∧ Interventions.filteredInterventions Interventions.lower p
    = Interventions.interventions p.
Proof.
  intros p ops.
  assert (H1 : Interventions.lower EmptyString = EmptyString) by reflexivity.
  assert (H2 : Interventions.search p = EmptyString) by reflexivity.
  assert (H3 : Interventions.statusFilter p = "all") by reflexivity.
  assert (H4 : ∀ intervention, intervention ∈ Interventions.interventions p →
        ∃ k, Store.interventions
               (db (Lifecycle.run ops
                      (Lifecycle.fresh Sample.technicians Sample.machines))) !! k
             = Some intervention).
  { intros iv Hiv. apply elem_of_cons in Hiv as [->|Hiv];
      [|by apply not_elem_of_nil in Hiv].
    exists "I1". vm_compute. reflexivity. }
  split; [exact (conj H1 (conj H2 (conj H3 H4)))|].
  exact (records_from_the_form_are_listed Interventions.lower Sample.technicians
           Sample.machines ops p H1 H2 H3 H4).
Defined.
